(** * WalletLinkProvider: request triage, address store and transaction
      normalisation

    A shallow embedding of [js/src/WalletLinkProvider.ts] and
    [js/src/types/JSONRPC.ts].  The provider is a class whose methods mutate
    two private fields and talk to four collaborators (the relay, the filter
    polyfill, the key/value storage and [window.fetch]).  Synchronous code is
    embedded in a state-and-exception monad over the provider's fields;
    asynchronous code is embedded as promises that are either settled or
    suspended on exactly one collaborator call together with the continuation
    that runs when that call completes. *)

From Stdlib Require Import ZArith String Ascii List Lia.
From Stdlib.Strings Require Import Byte.
From stdpp Require Import base list strings pretty.

Set Warnings "-register-all".

Local Open Scope string_scope.
Local Open Scope list_scope.

(** ** JavaScript values *)

(** The dynamically typed values that flow through the provider: request
    parameters, parsed JSON bodies, results.  Numbers are integers (ids, chain
    ids and codes); an object is the ordered list of its own properties. *)
Inductive JSValue : Type :=
| JUndefined
| JNull
| JBool (b : bool)
| JNum (n : Z)
| JStr (s : string)
| JArr (elems : list JSValue)
| JObj (props : list (string * JSValue)).

(** [ToBoolean]: the test performed by [if (v)], [!v], [v || w] and [c ? :]. *)
Definition truthy (v : JSValue) : bool :=
  match v with
  | JUndefined | JNull => false
  | JBool b => b
  | JNum n => negb (n =? 0)%Z
  | JStr s => negb (String.eqb s "")
  | JArr _ | JObj _ => true
  end.

(** [v || w] *)
Definition js_or (v w : JSValue) : JSValue := if truthy v then v else w.

(** [v != null] (loose inequality: neither [null] nor [undefined]). *)
Definition not_nullish (v : JSValue) : bool :=
  match v with
  | JUndefined | JNull => false
  | _ => true
  end.

(** [v !== undefined] *)
Definition is_defined (v : JSValue) : bool :=
  match v with
  | JUndefined => false
  | _ => true
  end.

Fixpoint assoc_get (k : string) (ps : list (string * JSValue)) : JSValue :=
  match ps with
  | [] => JUndefined
  | (k', v) :: ps' => if String.eqb k k' then v else assoc_get k ps'
  end.

(** Assignment of an own property: an existing key keeps its position. *)
Fixpoint assoc_set (k : string) (v : JSValue) (ps : list (string * JSValue))
  : list (string * JSValue) :=
  match ps with
  | [] => [(k, v)]
  | (k', v') :: ps' =>
      if String.eqb k k' then (k', v) :: ps' else (k', v') :: assoc_set k v ps'
  end.

(** [v.k] for the property names the provider reads ([from], [to], [value],
    [error], [message], [result], [id], ...): none of them is inherited from a
    built-in prototype, so only the own properties of an object answer. *)
Definition get_prop (v : JSValue) (k : string) : JSValue :=
  match v with
  | JObj ps => assoc_get k ps
  | _ => JUndefined
  end.

Fixpoint index_from {A} (i : nat) (l : list A) : list (string * A) :=
  match l with
  | [] => []
  | x :: l' => (pretty i, x) :: index_from (S i) l'
  end.

Fixpoint chars (s : string) : list JSValue :=
  match s with
  | EmptyString => []
  | String c s' => JStr (String c EmptyString) :: chars s'
  end.

(** The own enumerable properties copied by an object spread [{...v}]. *)
Definition own_props (v : JSValue) : list (string * JSValue) :=
  match v with
  | JObj ps => ps
  | JArr l => index_from 0 l
  | JStr s => index_from 0 (chars s)
  | _ => []
  end.

(** [params[i]] on an array of parameters. *)
Definition nth_param (i : nat) (params : list JSValue) : JSValue :=
  default JUndefined (params !! i).

(** ** Errors and outcomes *)

Inductive ErrorClass := ClassError | ClassProviderError.

(** A thrown error object: its class and the [message], [code] and [data]
    properties.  Collaborators reject with objects of this shape too; their
    [message] need not be a string, which is what [typeof err.message ===
    "string"] tests. *)
Record JSError := mkJSError {
  err_class : ErrorClass;
  err_message : JSValue;
  err_code : JSValue;
  err_data : JSValue
}.

(** [new Error(message)] *)
Definition Error (message : string) : JSError :=
  mkJSError ClassError (JStr message) JUndefined JUndefined.

(** Modelled from the spec: [ProviderError] is declared in [./types], which is
    not among the sources; the spec's CanonicalResponse error is
    [{code, message, optional data}], and the constructor is always called as
    [new ProviderError(message, code?, data?)]. *)
Definition ProviderError (message code data : JSValue) : JSError :=
  mkJSError ClassProviderError message code data.

(** A synchronous completion: a returned value or a thrown error.  A settled
    promise is the same thing: fulfilled or rejected. *)
Inductive Outcome (A : Type) : Type :=
| Normal (a : A)
| Throw (e : JSError).
Arguments Normal {A} a.
Arguments Throw {A} e.

Definition outcome_map {A B} (f : A -> B) (o : Outcome A) : Outcome B :=
  match o with
  | Normal a => Normal (f a)
  | Throw e => Throw e
  end.

(** [l.map(f)] where [f] may throw: the first throw aborts the map. *)
Fixpoint map_throwing {A B} (f : A -> Outcome B) (l : list A) : Outcome (list B) :=
  match l with
  | [] => Normal []
  | x :: l' =>
      match f x with
      | Throw e => Throw e
      | Normal y =>
          match map_throwing f l' with
          | Throw e => Throw e
          | Normal ys => Normal (y :: ys)
          end
      end
  end.

(** ** Types of [./types] and [./util] *)

Definition AddressString := string.
Definition HexString := string.
Definition IntNumber := Z.
Definition BN := Z.
Definition Buffer := list byte.

(** ** Numbers as strings

    An [IntNumber] is a JavaScript number whose value is an integer, hence a
    finite double.  [n.toString(10)] and [Array.prototype.join] print it with
    [Number::toString]: the decimal with the fewest significant digits that
    reads back as the same double (the nearest one, if several do), written
    out in full below 10^21 and in exponent notation from there on.  Up to
    2^53 every integer is a double and no shorter decimal reads back as it, so
    the string is the decimal numeral. *)

(** The double nearest to a non-negative integer, ties going to the even
    significand.  An integer that is not a double stands for the double that
    the number literal or [Number(...)] makes of it. *)
Definition nearest_double (v : Z) : Z :=
  let e := Z.log2 v in
  if (e <=? 52)%Z then v
  else
    let ulp := (2 ^ (e - 52))%Z in
    let q := (v / ulp)%Z in
    let r := (v mod ulp)%Z in
    if (ulp <? 2 * r)%Z || ((2 * r =? ulp)%Z && Z.odd q)
    then ((q + 1) * ulp)%Z
    else (q * ulp)%Z.

(** The number of digits of the decimal numeral of [v]. *)
Definition decimal_length (v : Z) : Z := Z.of_nat (String.length (pretty v)).

(** The decimal of at most [k] significant digits that reads back as the
    double [x]: one of the two nearest to [x], the nearer if both do, and
    the one with the even last digit if they are as near. *)
Definition shortest_with (k x : Z) : option Z :=
  let unit := (10 ^ Z.max 0 (decimal_length x - k))%Z in
  let below := (x / unit * unit)%Z in
  let above := (below + unit)%Z in
  match (nearest_double below =? x)%Z, (nearest_double above =? x)%Z with
  | true, true =>
      if (x - below <? above - x)%Z then Some below
      else if (above - x <? x - below)%Z then Some above
      else if Z.even (below / unit) then Some below else Some above
  | true, false => Some below
  | false, true => Some above
  | false, false => None
  end.

Fixpoint shortest_decimal_from (fuel : nat) (k x : Z) : Z :=
  match fuel with
  | O => x
  | S fuel' =>
      match shortest_with k x with
      | Some v => v
      | None => shortest_decimal_from fuel' (k + 1)%Z x
      end
  end.

(** Seventeen significant digits tell any two doubles apart. *)
Definition shortest_decimal (x : Z) : Z := shortest_decimal_from 17 1%Z x.

Fixpoint all_zeros (s : string) : bool :=
  match s with
  | EmptyString => true
  | String c s' => Ascii.eqb c "0" && all_zeros s'
  end.

(** A numeral without its trailing zeros. *)
Fixpoint significant (s : string) : string :=
  match s with
  | EmptyString => EmptyString
  | String c s' => if all_zeros s' then String c EmptyString else String c (significant s')
  end.

(** [d.ddd...e+n] *)
Definition exponent_notation (v : Z) : string :=
  let exponent := pretty (decimal_length v - 1)%Z in
  match significant (pretty v) with
  | String d EmptyString => String d ("e+" +:+ exponent)
  | String d more => String d ("." +:+ more +:+ "e+" +:+ exponent)
  | EmptyString => EmptyString
  end.

(** [Number::toString] in radix 10, on integers. *)
Definition Number_toString (n : IntNumber) : string :=
  if (Z.abs n <? 2 ^ 53)%Z then pretty n
  else
    let v := shortest_decimal (nearest_double (Z.abs n)) in
    (if (n <? 0)%Z then "-" else "") +:+
    (if (v <? 10 ^ 21)%Z then pretty v else exponent_notation v).

(** The members of the enum [ProviderErrorCode] that the provider uses. *)
Inductive ProviderErrorCode :=
| USER_DENIED_REQUEST_ACCOUNTS
| USER_DENIED_REQUEST_SIGNATURE
| UNAUTHORIZED.

(** The numeric values of [ProviderErrorCode] live in [./types]. *)
Class ProviderErrorCodes := {
  code_value : ProviderErrorCode -> Z
}.

(** The validators of [./util]: each either returns the normalised value or
    throws. *)
Class Util := {
  ensureAddressString : JSValue -> Outcome AddressString;
  ensureBN : JSValue -> Outcome BN;
  ensureBuffer : JSValue -> Outcome Buffer;
  ensureHexString : JSValue -> Outcome HexString;
  ensureIntNumber : JSValue -> Outcome IntNumber
}.

(** [walletLinkStorage.setItem]: a write completes or throws. *)
Class WalletLinkStorage := {
  setItem : string -> list AddressString -> Outcome unit
}.

(** The synchronous part of [WalletLinkRelay]: the handle of the linking
    window it opens, and whether a handle's [opener] is set. *)
Class WalletLinkWindows (Window : Type) := {
  openWalletLinkWindow : Window;
  opener : Window -> bool
}.

(** The synchronous part of [FilterPolyfill]. *)
Class FilterPolyfillSync := {
  uninstallFilter : HexString -> bool
}.

(** ** JSON-RPC *)

Module JSONRPCMethod.
Definition eth_accounts := "eth_accounts".
Definition eth_coinbase := "eth_coinbase".
Definition net_version := "net_version".
Definition eth_uninstallFilter := "eth_uninstallFilter".
Definition eth_requestAccounts := "eth_requestAccounts".
Definition eth_sign := "eth_sign".
Definition eth_ecRecover := "eth_ecRecover".
Definition personal_sign := "personal_sign".
Definition personal_ecRecover := "personal_ecRecover".
Definition eth_signTransaction := "eth_signTransaction".
Definition eth_sendRawTransaction := "eth_sendRawTransaction".
Definition eth_sendTransaction := "eth_sendTransaction".
Definition eth_newFilter := "eth_newFilter".
Definition eth_newBlockFilter := "eth_newBlockFilter".
Definition eth_newPendingTransactionFilter := "eth_newPendingTransactionFilter".
Definition eth_getFilterChanges := "eth_getFilterChanges".
Definition eth_getFilterLogs := "eth_getFilterLogs".
End JSONRPCMethod.

(** [JSONRPCRequest]; [params] is typed as an array, and the provider reads it
    as [request.params || []], so it may be absent. *)
Record JSONRPCRequest := mkRequest {
  id : Z;
  method : string;
  params : option (list JSValue)
}.

(** [request.params || []]: an array, even an empty one, is truthy. *)
Definition params_or_empty (request : JSONRPCRequest) : list JSValue :=
  default [] (params request).

(** A [JSONRPCResponse] is a plain object. *)
Definition JSONRPCResponse := JSValue.

(** The object literal [{ jsonrpc: "2.0", id, result }]. *)
Definition response (i : Z) (result : JSValue) : JSONRPCResponse :=
  JObj [("jsonrpc", JStr "2.0"); ("id", JNum i); ("result", result)].

(** The object literal [{ ...res, id }]. *)
Definition with_id (res : JSONRPCResponse) (i : Z) : JSONRPCResponse :=
  JObj (assoc_set "id" (JNum i) (own_props res)).

Definition addresses_value (l : list AddressString) : JSValue :=
  JArr (map JStr l).

(** [EthereumTransactionParams] of [./WalletLinkRelay]. *)
Record EthereumTransactionParams := mkTx {
  fromAddress : AddressString;
  toAddress : option AddressString;
  weiValue : BN;
  data : Buffer;
  nonce : option IntNumber;
  gasPriceInWei : option BN;
  gasLimit : option BN;
  chainId : IntNumber
}.

(** ** The collaborators' asynchronous operations *)

(** The calls on which the provider suspends.  Each completes later, outside
    the provider, with a value or a rejection.  [fetch] stands for the POST of
    the request to the JSON-RPC endpoint followed by [res.json()]: it completes
    with the parsed body. *)
Inductive ExternalCall : Type :=
| requestEthereumAccounts (appName : string)
| signEthereumMessage (message : Buffer) (address : AddressString) (addPrefix : bool)
| ethereumAddressFromSignedMessage (message signature : Buffer) (addPrefix : bool)
| signEthereumTransaction (tx : EthereumTransactionParams)
| submitEthereumTransaction (signedTransaction : Buffer) (chain : IntNumber)
| signAndSubmitEthereumTransaction (tx : EthereumTransactionParams)
| newFilter (param : JSValue)
| newBlockFilter
| newPendingTransactionFilter
| getFilterChanges (filterId : HexString)
| getFilterLogs (filterId : HexString)
| fetch (url : string) (body : JSONRPCRequest).

(** What the provider does to the outside world synchronously, in the order in
    which it happens. *)
Inductive Effect : Type :=
| EffOpenWalletLinkWindow
| EffLinkWindowFocus
| EffLinkWindowClose
| EffWindowFocus
| EffStorageSetItem (key : string) (value : list AddressString)
| EffEmit (event : string) (payload : list AddressString)
| EffUninstallFilter (filterId : HexString).

(** ** The denial pattern [/(denied|rejected)/i] *)

Definition lower (c : ascii) : ascii :=
  let n := nat_of_ascii c in
  if (65 <=? n)%nat && (n <=? 90)%nat then ascii_of_nat (n + 32) else c.

Fixpoint lower_string (s : string) : string :=
  match s with
  | EmptyString => EmptyString
  | String c s' => String (lower c) (lower_string s')
  end.

(** [pat] (in lower case) matches at the start of [s], ignoring case. *)
Fixpoint prefix_ci (pat s : string) : bool :=
  match pat, s with
  | EmptyString, _ => true
  | String p pat', String c s' => Ascii.eqb p (lower c) && prefix_ci pat' s'
  | String _ _, EmptyString => false
  end.

(** [pat] matches somewhere in [s], ignoring case. *)
Fixpoint search_ci (pat s : string) : bool :=
  prefix_ci pat s ||
  match s with
  | EmptyString => false
  | String _ s' => search_ci pat s'
  end.

(** [s.match(/(denied|rejected)/i)] as a condition. *)
Definition matches_denied_rejected (s : string) : bool :=
  search_ci "denied" s || search_ci "rejected" s.

(** [typeof err.message === "string" && err.message.match(/(denied|rejected)/i)] *)
Definition is_denial (err : JSError) : bool :=
  match err_message err with
  | JStr s => matches_denied_rejected s
  | _ => false
  end.

(** The spec's wording of the pattern: the message contains "denied" or
    "rejected", case-insensitively. *)
Definition contains_ci (word s : string) : Prop :=
  exists pre mid post, s = pre +:+ mid +:+ post /\ lower_string mid = word.

Definition mentions_denial (s : string) : Prop :=
  contains_ci "denied" s \/ contains_ci "rejected" s.

(** ** The provider *)

Section Provider.

Context {Window : Type}.
Context {util : Util} {codes : ProviderErrorCodes} {storage : WalletLinkStorage}
        {windows : WalletLinkWindows Window} {filters : FilterPolyfillSync}.

(** The fields of a [WalletLinkProvider], and the record of what it has done
    to the outside world so far (oldest first). *)
Record WalletLinkProvider := mkProvider {
  _appName : string;
  _chainId : IntNumber;
  _jsonRpcUrl : string;
  _providerId : string;
  _addresses : list AddressString;
  _walletLinkWindow : option Window;
  effects : list Effect
}.

Definition set_addresses (l : list AddressString) (this : WalletLinkProvider) :=
  mkProvider (_appName this) (_chainId this) (_jsonRpcUrl this) (_providerId this)
             l (_walletLinkWindow this) (effects this).

Definition set_walletLinkWindow (w : option Window) (this : WalletLinkProvider) :=
  mkProvider (_appName this) (_chainId this) (_jsonRpcUrl this) (_providerId this)
             (_addresses this) w (effects this).

Definition add_effect (e : Effect) (this : WalletLinkProvider) :=
  mkProvider (_appName this) (_chainId this) (_jsonRpcUrl this) (_providerId this)
             (_addresses this) (_walletLinkWindow this) (effects this ++ [e]).

(** *** Synchronous code: state and exceptions *)

(** A method body runs on [this] and returns or throws; what it did to [this]
    before throwing stays done. *)
Definition M (A : Type) : Type := WalletLinkProvider -> Outcome A * WalletLinkProvider.

Definition ret {A} (a : A) : M A := fun this => (Normal a, this).

Definition throw {A} (e : JSError) : M A := fun this => (Throw e, this).

Definition bind {A B} (m : M A) (f : A -> M B) : M B :=
  fun this =>
    match m this with
    | (Normal a, this') => f a this'
    | (Throw e, this') => (Throw e, this')
    end.

Notation "'let*' x ':=' m 'in' k" := (bind m (fun x => k))
  (at level 10, x name, m at level 100, k at level 200).

Definition lift {A} (o : Outcome A) : M A := fun this => (o, this).

Definition get : M WalletLinkProvider := fun this => (Normal this, this).

Definition modify (f : WalletLinkProvider -> WalletLinkProvider) : M unit :=
  fun this => (Normal tt, f this).

Definition perform (e : Effect) : M unit := modify (add_effect e).

(** [try { body } finally { cleanup }] *)
Definition try_finally {A} (body : M A) (cleanup : M unit) : M A :=
  fun this =>
    match body this with
    | (o, this') =>
        match cleanup this' with
        | (Normal _, this'') => (o, this'')
        | (Throw e, this'') => (Throw e, this'')
        end
    end.

Definition _localStorageAddressesKey (this : WalletLinkProvider) : string :=
  "WalletLinkProvider:" +:+ _providerId this +:+ ":addresses".

(** [this._addresses[0] || undefined] *)
Definition selectedAddress (this : WalletLinkProvider) : option AddressString :=
  match _addresses this with
  | a :: _ => if String.eqb a "" then None else Some a
  | [] => None
  end.

(** [this._addresses.includes(a)] *)
Definition includes (l : list AddressString) (a : AddressString) : bool :=
  existsb (String.eqb a) l.

Definition synchronous_unsupported (method : string) : JSError :=
  Error ("WalletLink does not support calling " +:+ method +:+
         " synchronously without a callback. Please provide a callback parameter to call " +:+
         method +:+ " asynchronously.").

Definition _eth_accounts : M JSValue :=
  let* this := get in ret (addresses_value (_addresses this)).

(** [this.selectedAddress || null] *)
Definition _eth_coinbase : M JSValue :=
  let* this := get in
  ret (match selectedAddress this with
       | Some a => JStr a
       | None => JNull
       end).

(** [this._chainId.toString(10)] *)
Definition _net_version : M JSValue :=
  let* this := get in ret (JStr (Number_toString (_chainId this))).

Definition _eth_uninstallFilter (params : list JSValue) : M JSValue :=
  let* filterId := lift (ensureHexString (nth_param 0 params)) in
  let* _ := perform (EffUninstallFilter filterId) in
  ret (JBool (uninstallFilter filterId)).

(** The [switch] over the synchronous table; [undefined] when the method is
    not in it. *)
Definition _handleSynchronousMethods (request : JSONRPCRequest) : M JSValue :=
  let params := params_or_empty request in
  if String.eqb (method request) JSONRPCMethod.eth_accounts then _eth_accounts
  else if String.eqb (method request) JSONRPCMethod.eth_coinbase then _eth_coinbase
  else if String.eqb (method request) JSONRPCMethod.eth_uninstallFilter
       then _eth_uninstallFilter params
  else if String.eqb (method request) JSONRPCMethod.net_version then _net_version
  else ret JUndefined.

(** [send(request)] without a callback. *)
Definition _sendRequest (request : JSONRPCRequest) : M JSONRPCResponse :=
  let* result := _handleSynchronousMethods request in
  if is_defined result
  then ret (response (id request) result)
  else throw (synchronous_unsupported (method request)).

Definition _setAddresses (addresses : JSValue) (persist : bool) : M unit :=
  match addresses with
  | JArr l =>
      let* normalized := lift (map_throwing ensureAddressString l) in
      let* _ := modify (set_addresses normalized) in
      let* _ :=
        if persist
        then
          let* this := get in
          let* _ := perform (EffStorageSetItem (_localStorageAddressesKey this) normalized) in
          lift (setItem (_localStorageAddressesKey this) normalized)
        else ret tt in
      perform (EffEmit "accountsChanged" normalized)
  | _ => throw (Error "addresses is not an array")
  end.

(** [cond ? ensure(v) : dflt] *)
Definition ensure_or {A} (cond : bool) (ensure : JSValue -> Outcome A) (v : JSValue)
           (dflt : A) : M A :=
  if cond then lift (ensure v) else ret dflt.

(** A validator whose result fills a nullable field. *)
Definition nullable {A} (ensure : JSValue -> Outcome A) (v : JSValue) : Outcome (option A) :=
  outcome_map Some (ensure v).

Definition _prepareTransactionParams (tx : JSValue) : M EthereumTransactionParams :=
  let* this := get in
  let* from := ensure_or (truthy (get_prop tx "from")) (nullable ensureAddressString)
                         (get_prop tx "from") (selectedAddress this) in
  match from with
  | None => throw (Error "Ethereum address is unavailable")
  | Some fromAddress =>
      if String.eqb fromAddress ""
      then throw (Error "Ethereum address is unavailable")
      else if negb (includes (_addresses this) fromAddress)
      then throw (Error "Unknown Ethereum address")
      else
        let* toAddress := ensure_or (truthy (get_prop tx "to")) (nullable ensureAddressString)
                                    (get_prop tx "to") None in
        let* weiValue := ensure_or (not_nullish (get_prop tx "value")) ensureBN
                                   (get_prop tx "value") 0%Z in
        let* data := ensure_or (truthy (get_prop tx "data")) ensureBuffer
                               (get_prop tx "data") [] in
        let* nonce := ensure_or (not_nullish (get_prop tx "nonce")) (nullable ensureIntNumber)
                                (get_prop tx "nonce") None in
        let* gasPriceInWei := ensure_or (not_nullish (get_prop tx "gasPrice")) (nullable ensureBN)
                                        (get_prop tx "gasPrice") None in
        let* gasLimit := ensure_or (not_nullish (get_prop tx "gas")) (nullable ensureBN)
                                   (get_prop tx "gas") None in
        ret (mkTx fromAddress toAddress weiValue data nonce gasPriceInWei gasLimit
                  (_chainId this))
  end.

Definition _requireAuthorization : M unit :=
  let* this := get in
  if (length (_addresses this) =? 0)%nat
  then throw (ProviderError (JStr "Unauthorized") (JNum (code_value UNAUTHORIZED)) JUndefined)
  else ret tt.

(** *** Asynchronous code: promises *)

(** A promise made by the provider is settled already, or it waits for one
    collaborator call; the continuation [k] is everything the provider does,
    on the provider as it is by then, once that call has completed. *)
Inductive Promise (A : Type) : Type :=
| Settled (o : Outcome A)
| Pending (call : ExternalCall) (k : Outcome JSValue -> M A).
Arguments Settled {A} o.
Arguments Pending {A} call k.

(** A method that returns a promise. *)
Definition Async (A : Type) : Type :=
  WalletLinkProvider -> Promise A * WalletLinkProvider.

(** An [async function], and the executor of [new Promise] with its
    [try]/[catch]: the body runs synchronously up to its suspension point, and
    a throw before that point is a rejection. *)
Definition async {A} (body : M (Promise A)) : Async A :=
  fun this =>
    match body this with
    | (Normal p, this') => (p, this')
    | (Throw e, this') => (Settled (Throw e), this')
    end.

(** Calling a promise-returning method from synchronous code. *)
Definition call_async {A} (f : Async A) : M (Promise A) :=
  fun this => let (p, this') := f this in (Normal p, this').

(** [p.then(f)] for an [f] that does not throw. *)
Definition then_ {A B} (p : Promise A) (f : A -> B) : Promise B :=
  match p with
  | Settled o => Settled (outcome_map f o)
  | Pending c k =>
      Pending c (fun completion this =>
                   match k completion this with
                   | (o, this') => (outcome_map f o, this')
                   end)
  end.

(** [const res = await call; k res] *)
Definition await {A} (c : ExternalCall) (k : JSValue -> M A) : Promise A :=
  Pending c (fun completion =>
               match completion with
               | Normal res => k res
               | Throw err => throw err
               end).

(** [try { const res = await call; k res } catch (err) { handler err }], for a
    [k] that does not throw. *)
Definition await_catch {A} (c : ExternalCall) (k : JSValue -> M A)
           (handler : JSError -> M A) : Promise A :=
  Pending c (fun completion =>
               match completion with
               | Normal res => k res
               | Throw err => handler err
               end).

(** The body shared by the five [catch] blocks. *)
Definition rethrow_denied {A} (message : string) (code : ProviderErrorCode)
           (err : JSError) : M A :=
  if is_denial err
  then throw (ProviderError (JStr message) (JNum (code_value code)) JUndefined)
  else throw err.

(** The [finally] block of [_eth_requestAccounts]. *)
Definition close_walletLinkWindow : M unit :=
  let* this := get in
  match _walletLinkWindow this with
  | Some _ =>
      let* _ := perform EffLinkWindowClose in
      let* _ := modify (set_walletLinkWindow None) in
      perform EffWindowFocus
  | None => ret tt
  end.

Definition _eth_requestAccounts : Async JSONRPCResponse :=
  async (
    let* this := get in
    if (0 <? length (_addresses this))%nat
    then ret (Settled (Normal (response 0 (addresses_value (_addresses this)))))
    else
      let* _ :=
        match _walletLinkWindow this with
        | Some w =>
            if opener w
            then perform EffLinkWindowFocus
            else
              let* _ := perform EffOpenWalletLinkWindow in
              modify (set_walletLinkWindow (Some openWalletLinkWindow))
        | None =>
            let* _ := perform EffOpenWalletLinkWindow in
            modify (set_walletLinkWindow (Some openWalletLinkWindow))
        end in
      ret (Pending (requestEthereumAccounts (_appName this))
             (fun completion =>
                let* res :=
                  try_finally
                    match completion with
                    | Normal res => ret res
                    | Throw err =>
                        rethrow_denied "User denied account authorization"
                                       USER_DENIED_REQUEST_ACCOUNTS err
                    end
                    close_walletLinkWindow in
                if negb (truthy (get_prop res "result"))
                then throw (Error "accounts received is empty")
                else
                  let* _ := _setAddresses (get_prop res "result") true in
                  let* this' := get in
                  ret (response 0 (addresses_value (_addresses this')))))).

Definition _eth_sign (params : list JSValue) : Async JSONRPCResponse :=
  async (
    let* _ := _requireAuthorization in
    let* message := lift (ensureBuffer (nth_param 1 params)) in
    let* address := lift (ensureAddressString (nth_param 0 params)) in
    ret (await_catch (signEthereumMessage message address false)
           (fun res => ret (response 0 (get_prop res "result")))
           (rethrow_denied "User denied message signature"
                           USER_DENIED_REQUEST_SIGNATURE))).

Definition _eth_ecRecover (params : list JSValue) : Async JSONRPCResponse :=
  async (
    let* message := lift (ensureBuffer (nth_param 0 params)) in
    let* signature := lift (ensureBuffer (nth_param 1 params)) in
    ret (await (ethereumAddressFromSignedMessage message signature false)
           (fun res => ret (response 0 (get_prop res "result"))))).

Definition _personal_sign (params : list JSValue) : Async JSONRPCResponse :=
  async (
    let* _ := _requireAuthorization in
    let* message := lift (ensureBuffer (nth_param 0 params)) in
    let* address := lift (ensureAddressString (nth_param 1 params)) in
    ret (await_catch (signEthereumMessage message address true)
           (fun res => ret (response 0 (get_prop res "result")))
           (rethrow_denied "User denied message signature"
                           USER_DENIED_REQUEST_SIGNATURE))).

Definition _personal_ecRecover (params : list JSValue) : Async JSONRPCResponse :=
  async (
    let* message := lift (ensureBuffer (nth_param 0 params)) in
    let* signature := lift (ensureBuffer (nth_param 1 params)) in
    ret (await (ethereumAddressFromSignedMessage message signature true)
           (fun res => ret (response 0 (get_prop res "result"))))).

Definition _eth_signTransaction (params : list JSValue) : Async JSONRPCResponse :=
  async (
    let* _ := _requireAuthorization in
    let* tx := _prepareTransactionParams (js_or (nth_param 0 params) (JObj [])) in
    ret (await_catch (signEthereumTransaction tx)
           (fun res => ret (response 0 (get_prop res "result")))
           (rethrow_denied "User denied transaction signature"
                           USER_DENIED_REQUEST_SIGNATURE))).

Definition _eth_sendRawTransaction (params : list JSValue) : Async JSONRPCResponse :=
  async (
    let* signedTransaction := lift (ensureBuffer (nth_param 0 params)) in
    let* this := get in
    ret (await (submitEthereumTransaction signedTransaction (_chainId this))
           (fun res => ret (response 0 (get_prop res "result"))))).

Definition _eth_sendTransaction (params : list JSValue) : Async JSONRPCResponse :=
  async (
    let* _ := _requireAuthorization in
    let* tx := _prepareTransactionParams (js_or (nth_param 0 params) (JObj [])) in
    ret (await_catch (signAndSubmitEthereumTransaction tx)
           (fun res => ret (response 0 (get_prop res "result")))
           (rethrow_denied "User denied transaction signature"
                           USER_DENIED_REQUEST_SIGNATURE))).

Definition _eth_newFilter (params : list JSValue) : Async JSONRPCResponse :=
  async (ret (await (newFilter (nth_param 0 params))
                (fun filterId => ret (response 0 filterId)))).

Definition _eth_newBlockFilter : Async JSONRPCResponse :=
  async (ret (await newBlockFilter (fun filterId => ret (response 0 filterId)))).

Definition _eth_newPendingTransactionFilter : Async JSONRPCResponse :=
  async (ret (await newPendingTransactionFilter
                (fun filterId => ret (response 0 filterId)))).

(** Not an [async function]: a bad filter id is thrown to the caller, and the
    promise returned is the filter polyfill's own. *)
Definition _eth_getFilterChanges (params : list JSValue) : M (Promise JSONRPCResponse) :=
  let* filterId := lift (ensureHexString (nth_param 0 params)) in
  ret (await (getFilterChanges filterId) ret).

Definition _eth_getFilterLogs (params : list JSValue) : M (Promise JSONRPCResponse) :=
  let* filterId := lift (ensureHexString (nth_param 0 params)) in
  ret (await (getFilterLogs filterId) ret).

(** The remote fallback: what happens to the parsed body. *)
Definition check_remote_response (json : JSValue) : M JSONRPCResponse :=
  if negb (truthy json)
  then throw (ProviderError (JStr "unexpected response") JUndefined JUndefined)
  else
    let error := get_prop json "error" in
    if truthy error
    then throw (ProviderError (js_or (get_prop error "message") (JStr "RPC Error"))
                              (get_prop error "code")
                              (get_prop error "data"))
    else ret json.

Definition _handleAsynchronousMethods (request : JSONRPCRequest) : Async JSONRPCResponse :=
  let params := params_or_empty request in
  if String.eqb (method request) JSONRPCMethod.eth_requestAccounts
  then _eth_requestAccounts
  else if String.eqb (method request) JSONRPCMethod.eth_sign then _eth_sign params
  else if String.eqb (method request) JSONRPCMethod.eth_ecRecover then _eth_ecRecover params
  else if String.eqb (method request) JSONRPCMethod.personal_sign then _personal_sign params
  else if String.eqb (method request) JSONRPCMethod.personal_ecRecover
       then _personal_ecRecover params
  else if String.eqb (method request) JSONRPCMethod.eth_signTransaction
       then _eth_signTransaction params
  else if String.eqb (method request) JSONRPCMethod.eth_sendRawTransaction
       then _eth_sendRawTransaction params
  else if String.eqb (method request) JSONRPCMethod.eth_sendTransaction
       then _eth_sendTransaction params
  else
    fun this =>
      (await (fetch (_jsonRpcUrl this) request) check_remote_response, this).

(** [None] is the [undefined] returned for a method outside the filter table. *)
Definition _handleAsynchronousFilterMethods (request : JSONRPCRequest)
  : M (option (Promise JSONRPCResponse)) :=
  let params := params_or_empty request in
  if String.eqb (method request) JSONRPCMethod.eth_newFilter
  then let* p := call_async (_eth_newFilter params) in ret (Some p)
  else if String.eqb (method request) JSONRPCMethod.eth_newBlockFilter
  then let* p := call_async _eth_newBlockFilter in ret (Some p)
  else if String.eqb (method request) JSONRPCMethod.eth_newPendingTransactionFilter
  then let* p := call_async _eth_newPendingTransactionFilter in ret (Some p)
  else if String.eqb (method request) JSONRPCMethod.eth_getFilterChanges
  then let* p := _eth_getFilterChanges params in ret (Some p)
  else if String.eqb (method request) JSONRPCMethod.eth_getFilterLogs
  then let* p := _eth_getFilterLogs params in ret (Some p)
  else ret None.

Definition _sendRequestAsync (request : JSONRPCRequest) : Async JSONRPCResponse :=
  async (
    let* syncResult := _handleSynchronousMethods request in
    if is_defined syncResult
    then ret (Settled (Normal (response (id request) syncResult)))
    else
      let* filterPromise := _handleAsynchronousFilterMethods request in
      match filterPromise with
      | Some filterPromise =>
          ret (then_ filterPromise (fun res => with_id res (id request)))
      | None =>
          let* p := call_async (_handleAsynchronousMethods request) in
          ret (then_ p (fun res => with_id res (id request)))
      end).

(** *** The event loop *)

(** [l.map(f)] for a promise-returning [f]: the synchronous parts run in
    order, each on the provider as the previous one left it. *)
Fixpoint map_async {A B} (f : A -> Async B) (l : list A)
  : WalletLinkProvider -> list (Promise B) * WalletLinkProvider :=
  fun this =>
    match l with
    | [] => ([], this)
    | x :: l' =>
        let (p, this1) := f x this in
        let (ps, this2) := map_async f l' this1 in
        (p :: ps, this2)
    end.

(** Whether the executor of [new Promise] in [_sendRequestAsync] settles the
    promise itself, before [_sendRequestAsync] returns: [resolve] on a
    synchronous result, [reject] in the [catch] around the synchronous and the
    filter handlers.  Every other promise is settled later, by the reactions
    [.then(...).catch(...)] on the promise of its handler, even when that
    promise was settled already when the handler returned it. *)
Definition settled_by_executor (request : JSONRPCRequest) (this : WalletLinkProvider) : bool :=
  match _handleSynchronousMethods request this with
  | (Throw _, _) => true
  | (Normal syncResult, this1) =>
      if is_defined syncResult then true
      else
        match _handleAsynchronousFilterMethods request this1 with
        | (Throw _, _) => true
        | (Normal _, _) => false
        end
  end.

(** The same for each promise of [requests.map(r => this._sendRequestAsync(r))]. *)
Fixpoint settled_by_executors (requests : list JSONRPCRequest) (this : WalletLinkProvider)
  : list bool :=
  match requests with
  | [] => []
  | r :: requests' =>
      settled_by_executor r this ::
      settled_by_executors requests' (snd (_sendRequestAsync r this))
  end.

(** One turn of the event loop: promise [i] is settled by its reactions.  When
    it waits for a collaborator, the call has completed with [o] and the
    continuation runs; when the promise of its handler was settled already,
    [o] plays no part. *)
Definition Completion : Type := nat * Outcome JSValue.

Definition complete {A} (c : Completion) (ps : list (Promise A))
  : WalletLinkProvider -> list (Promise A) * WalletLinkProvider :=
  fun this =>
    match ps !! (fst c) with
    | Some (Pending _ k) =>
        match k (snd c) this with
        | (r, this') => (<[fst c := Settled r]> ps, this')
        end
    | _ => (ps, this)
    end.

(** The promises and the provider after the turns of [sched], in that
    order. *)
Fixpoint run_completions {A} (sched : list Completion) (ps : list (Promise A))
  : WalletLinkProvider -> list (Promise A) * WalletLinkProvider :=
  fun this =>
    match sched with
    | [] => (ps, this)
    | c :: sched' =>
        let (ps', this') := complete c ps this in
        run_completions sched' ps' this'
    end.

(** The error promise [i] has rejected with, if it has. *)
Definition rejection_of {A} (ps : list (Promise A)) (i : nat) : option JSError :=
  match ps !! i with
  | Some (Settled (Throw e)) => Some e
  | _ => None
  end.

(** The first rejection among the promises [order], taken in that order. *)
Fixpoint first_rejection {A} (ps : list (Promise A)) (order : list nat) : option JSError :=
  match order with
  | [] => None
  | i :: order' =>
      match rejection_of ps i with
      | Some e => Some e
      | None => first_rejection ps order'
      end
  end.

(** The positions marked in [known], in increasing order. *)
Definition marked (known : list bool) : list nat :=
  List.filter (fun i => default false (known !! i)) (seq 0 (length known)).

Definition has_turn (i : nat) (sched : list Completion) : bool :=
  existsb (Nat.eqb i) (map fst sched).

Definition is_settled {A} (p : option (Promise A)) : bool :=
  match p with
  | Some (Settled _) => true
  | _ => false
  end.

(** The promises of whose settlement [Promise.all] is told before the first
    turn of [sched], in the order in which it is told.  First come the
    promises settled by their executor, marked in [known], in the order of the
    batch: they are settled when [Promise.all] subscribes to them, their
    reactions are queued then, and these run before any reaction that has yet
    to settle another promise.  Next come the promises whose handler had
    settled its promise when it returned it, in the order of the batch: their
    reactions run in the microtasks of the call itself.  [sched] may give such
    a promise a turn of its own instead, which puts it after the answer of a
    collaborator that had answered by the time it returned. *)
Definition told_at_once {A} (known : list bool) (ps : list (Promise A))
           (sched : list Completion) : list nat :=
  marked known ++
  List.filter (fun i => negb (default false (known !! i)) &&
                        is_settled (ps !! i) && negb (has_turn i sched))
              (seq 0 (length ps)).

Fixpoint all_fulfilled {A} (ps : list (Promise A)) : option (list A) :=
  match ps with
  | [] => Some []
  | Settled (Normal a) :: ps' =>
      match all_fulfilled ps' with
      | Some l => Some (a :: l)
      | None => None
      end
  | _ => None
  end.

(** Whether each of [n] promises is among [told]. *)
Definition told_all (told : list nat) (n : nat) : bool :=
  forallb (fun i => existsb (Nat.eqb i) told) (seq 0 n).

(** [Promise.all(ps)] after the turns of [sched], [told] being the promises of
    whose settlement it has been told so far, in the order in which it was
    told.  Each turn adds the promise it settles.  [Promise.all] rejects with
    the first rejection it is told of, fulfils with all the values in the
    order of [ps] once it has been told of every promise, and has not settled
    ([None]) while neither has happened. *)
Fixpoint Promise_all {A} (told : list nat) (ps : list (Promise A))
         (sched : list Completion) (this : WalletLinkProvider)
  : option (Outcome (list A)) :=
  match first_rejection ps told with
  | Some e => Some (Throw e)
  | None =>
      if told_all told (length ps)
      then option_map Normal (all_fulfilled ps)
      else
        match sched with
        | [] => None
        | c :: sched' =>
            let (ps', this') := complete c ps this in
            Promise_all (told ++ [fst c]) ps' sched' this'
        end
  end.

(** A Node-style callback [(err, result) => ...]: code of the caller, which
    returns or throws. *)
Definition Callback (A : Type) : Type := option JSError -> option A -> Outcome unit.

(** One call of the callback: its two arguments. *)
Definition Invocation (A : Type) : Type := option JSError * option A.

(** [p.then(v => cb(null, v)).catch(err => cb(err, null))] for a promise [p]
    that has settled as [settled], or not at all: the calls of [cb]. *)
Definition then_catch {A} (settled : option (Outcome A)) (cb : Callback A)
  : list (Invocation A) :=
  match settled with
  | None => []
  | Some (Normal v) =>
      match cb None (Some v) with
      | Normal _ => [(None, Some v)]
      | Throw e => [(None, Some v); (Some e, None)]
      end
  | Some (Throw err) => [(Some err, None)]
  end.

(** *** The public surfaces *)

(** [Promise.all(requests.map(r => this._sendRequestAsync(r)))]: the promises
    handed to [Promise.all]. *)
Definition _sendMultipleRequestsAsync (requests : list JSONRPCRequest)
  : WalletLinkProvider -> list (Promise JSONRPCResponse) * WalletLinkProvider :=
  map_async _sendRequestAsync requests.

(** [sendAsync(requests, callback)] with an array: the calls of the callback
    and the provider once the turns of [sched] have been taken. *)
Definition sendAsync_batch (requests : list JSONRPCRequest)
           (callback : Callback (list JSONRPCResponse)) (sched : list Completion)
  : WalletLinkProvider -> list (Invocation (list JSONRPCResponse)) * WalletLinkProvider :=
  fun this =>
    let (ps, this1) := _sendMultipleRequestsAsync requests this in
    (then_catch
       (Promise_all (told_at_once (settled_by_executors requests this) ps sched)
                    ps sched this1)
       callback,
     snd (run_completions sched ps this1)).

(** A single promise under the completion, if any, of its collaborator call. *)
Definition settle {A} (p : Promise A) (completion : option (Outcome JSValue))
  : WalletLinkProvider -> option (Outcome A) * WalletLinkProvider :=
  fun this =>
    match p, completion with
    | Settled o, _ => (Some o, this)
    | Pending _ k, Some o =>
        match k o this with
        | (r, this') => (Some r, this')
        end
    | Pending _ _, None => (None, this)
    end.

(** [sendAsync(request, callback)] with a single request. *)
Definition sendAsync_single (request : JSONRPCRequest)
           (callback : Callback JSONRPCResponse) (completion : option (Outcome JSValue))
  : WalletLinkProvider -> list (Invocation JSONRPCResponse) * WalletLinkProvider :=
  fun this =>
    let (p, this1) := _sendRequestAsync request this in
    let (settled, this2) := settle p completion this1 in
    (then_catch settled callback, this2).

(** [send(method, params)]: the promise of the bare result. *)
Definition send_method (method : string) (callbackOrParams : JSValue) : Async JSValue :=
  fun this =>
    let params :=
      match callbackOrParams with
      | JArr l => l
      | JUndefined => []
      | v => [v]
      end in
    let (p, this') := _sendRequestAsync (mkRequest 1 method (Some params)) this in
    (then_ p (fun res => get_prop res "result"), this').

(** [send(request)] *)
Definition send_request (request : JSONRPCRequest) : M JSONRPCResponse :=
  _sendRequest request.

(** [send(requests)]: [requests.map(r => this._sendRequest(r))] *)
Fixpoint send_requests (requests : list JSONRPCRequest) : M (list JSONRPCResponse) :=
  match requests with
  | [] => ret []
  | r :: requests' =>
      let* res := _sendRequest r in
      let* rest := send_requests requests' in
      ret (res :: rest)
  end.

Definition enable : Async JSValue :=
  fun this =>
    if (0 <? length (_addresses this))%nat
    then (Settled (Normal (addresses_value (_addresses this))), this)
    else send_method JSONRPCMethod.eth_requestAccounts JUndefined this.

End Provider.

Arguments WalletLinkProvider Window : clear implicits.
Arguments Settled {Window A} o.
Arguments Pending {Window A} call k.

(** ** Construction

    The constructor of [WalletLinkProvider] and the getters, with the two
    collaborators only the constructor uses. *)

(** [crypto.createHash("sha256").update(s, "utf8").digest("hex")] *)
Class Crypto := {
  sha256_hex : string -> string
}.

(** [walletLinkStorage.getItem]: a read returns the stored value, or [null]
    when there is none, or throws. *)
Class WalletLinkStorageRead := {
  getItem : string -> Outcome JSValue
}.

(** [WalletLinkProviderOptions].  [relay] records whether a relay object is
    passed; the constructor only tests it. *)
Record WalletLinkProviderOptions := mkOptions {
  opt_relay : bool;
  opt_appName : option string;
  opt_jsonRpcUrl : string;
  opt_chainId : option Z
}.

Definition DEFAULT_APP_NAME : string := "DApp".

(** [s || dflt] for an optional string. *)
Definition string_or (s : option string) (dflt : string) : string :=
  match s with
  | Some s' => if String.eqb s' "" then dflt else s'
  | None => dflt
  end.

(** [[appName, chainId, jsonRpcUrl].join()]: the elements as strings, with
    commas between them. *)
Definition join_identity (appName : string) (chain : IntNumber) (jsonRpcUrl : string)
  : string :=
  appName +:+ "," +:+ Number_toString chain +:+ "," +:+ jsonRpcUrl.

Section Construction.

Context {Window : Type}.
Context {util : Util} {storage : WalletLinkStorage} {reads : WalletLinkStorageRead}
        {crypto : Crypto}.

(** The [try { ... } catch {}] that ends the constructor: whatever the read or
    [_setAddresses] throws is dropped, and the provider is left as it is at
    that point. *)
Definition restore_addresses (this : WalletLinkProvider Window) : WalletLinkProvider Window :=
  match getItem (_localStorageAddressesKey this) with
  | Throw _ => this
  | Normal addresses =>
      if truthy addresses
      then snd (_setAddresses addresses false this)
      else this
  end.

(** [new WalletLinkProvider(options)] *)
Definition constructor (options : WalletLinkProviderOptions)
  : Outcome (WalletLinkProvider Window) :=
  if negb (opt_relay options)
  then Throw (Error "realy must be provided")
  else if String.eqb (opt_jsonRpcUrl options) ""
  then Throw (Error "jsonRpcUrl must be provided")
  else
    let appName := string_or (opt_appName options) DEFAULT_APP_NAME in
    match ensureIntNumber
            (js_or (match opt_chainId options with
                    | Some n => JNum n
                    | None => JUndefined
                    end)
                   (JNum 1)) with
    | Throw e => Throw e
    | Normal chain =>
        let providerId :=
          substring 0 10 (sha256_hex (join_identity appName chain (opt_jsonRpcUrl options))) in
        Normal (restore_addresses
                  (mkProvider appName chain (opt_jsonRpcUrl options) providerId
                              [] None []))
    end.

(** [get networkVersion()] *)
Definition networkVersion (this : WalletLinkProvider Window) : string :=
  Number_toString (_chainId this).

End Construction.

(** ** Configuration of the linking page

    [NODE_ENV], [WEB_URL] and [RPC_URL], as functions of the build
    environment and of [document.location]. *)

(** The environment variables and the location the module reads. *)
Record Environment := mkEnvironment {
  env_NODE_ENV : option string;
  env_REACT_APP_WEB_URL : option string;
  env_REACT_APP_RPC_URL : option string;
  location_protocol : string;
  location_host : string
}.

Fixpoint skip (n : nat) (s : string) : string :=
  match n, s with
  | O, _ => s
  | S n', String _ s' => skip n' s'
  | S _, EmptyString => EmptyString
  end.

(** [s.replace(pat, rep)] for a string pattern and a replacement free of "$":
    the first occurrence of [pat] is replaced. *)
Fixpoint replace_first (pat rep s : string) : string :=
  if String.prefix pat s
  then rep +:+ skip (String.length pat) s
  else
    match s with
    | EmptyString => EmptyString
    | String c s' => String c (replace_first pat rep s')
    end.

(** [process.env.NODE_ENV || "development"] *)
Definition NODE_ENV (env : Environment) : string :=
  string_or (env_NODE_ENV env) "development".

Definition getWebUrl (env : Environment) : string :=
  if String.eqb (NODE_ENV env) "development"
  then string_or (env_REACT_APP_WEB_URL env) "http://localhost:3001"
  else location_protocol env +:+ "//" +:+ location_host env.

Definition getRpcUrl (env : Environment) : string :=
  if String.eqb (NODE_ENV env) "development"
  then string_or (env_REACT_APP_RPC_URL env) "ws://localhost:8080/rpc"
  else replace_first "http" "ws" (location_protocol env) +:+ "//" +:+
       location_host env +:+ "/rpc".

Definition WEB_URL (env : Environment) : string := getWebUrl env.
Definition RPC_URL (env : Environment) : string := getRpcUrl env.

(** ** A reference set of collaborators

    The theorems below hold for every implementation of the collaborator
    interfaces.  To run the provider on concrete requests one needs concrete
    collaborators; these follow the spec. *)

Module Reference.

Definition hex_digit (c : ascii) : option Z :=
  let n := Z.of_nat (nat_of_ascii c) in
  if (48 <=? n)%Z && (n <=? 57)%Z then Some (n - 48)%Z
  else if (97 <=? n)%Z && (n <=? 102)%Z then Some (n - 87)%Z
  else if (65 <=? n)%Z && (n <=? 70)%Z then Some (n - 55)%Z
  else None.

Definition dec_digit (c : ascii) : option Z :=
  let n := Z.of_nat (nat_of_ascii c) in
  if (48 <=? n)%Z && (n <=? 57)%Z then Some (n - 48)%Z else None.

(** The digits of [s] in base [base], most significant first, added to [acc]. *)
Fixpoint parse_digits (digit : ascii -> option Z) (base : Z) (acc : Z) (s : string)
  : option Z :=
  match s with
  | EmptyString => Some acc
  | String c s' =>
      match digit c with
      | Some d => parse_digits digit base (acc * base + d)%Z s'
      | None => None
      end
  end.

Definition parse_number (digit : ascii -> option Z) (base : Z) (s : string) : option Z :=
  match s with
  | EmptyString => None
  | _ => parse_digits digit base 0%Z s
  end.

(** [s] without a leading "0x" or "0X", and whether it had one. *)
Definition strip0x (s : string) : bool * string :=
  match s with
  | String "0" (String x s') =>
      if Ascii.eqb x "x" || Ascii.eqb x "X" then (true, s') else (false, s)
  | _ => (false, s)
  end.

Fixpoint all_hex (s : string) : bool :=
  match s with
  | EmptyString => true
  | String c s' => match hex_digit c with Some _ => all_hex s' | None => false end
  end.

Fixpoint hex_bytes (s : string) : option (list byte) :=
  match s with
  | EmptyString => Some []
  | String hi (String lo s') =>
      match hex_digit hi, hex_digit lo, hex_bytes s' with
      | Some h, Some l, Some bs =>
          Some (default x00 (Byte.of_N (Z.to_N (16 * h + l))) :: bs)
      | _, _, _ => None
      end
  | String _ EmptyString => None
  end.

Definition invalid_input (what : string) : JSError :=
  Error ("invalid " +:+ what).

(** Modelled from the spec: [./util] is not among the sources.  Per
    the spec an address is validated and normalised (case/format) before
    acceptance: here, forty hexadecimal digits with an optional "0x", returned
    in lower case with the prefix. *)
Definition ensureAddressString (v : JSValue) : Outcome AddressString :=
  match v with
  | JStr s =>
      let body := snd (strip0x s) in
      if all_hex body && (String.length body =? 40)%nat
      then Normal ("0x" +:+ lower_string body)
      else Throw (invalid_input "Ethereum address")
  | _ => Throw (invalid_input "Ethereum address")
  end.

(** Modelled from the spec: numeric-like fields accept hex-string,
    decimal-string or native-number representations and must parse as
    non-negative integers; malformed values fail. *)
Definition ensureBN (v : JSValue) : Outcome BN :=
  match v with
  | JNum n => if (0 <=? n)%Z then Normal n else Throw (invalid_input "number")
  | JStr s =>
      let parsed :=
        match strip0x s with
        | (true, body) => parse_number hex_digit 16 body
        | (false, body) => parse_number dec_digit 10 body
        end in
      match parsed with
      | Some n => Normal n
      | None => Throw (invalid_input "number")
      end
  | _ => Throw (invalid_input "number")
  end.

(** Modelled from the spec: as [ensureBN], for the integer fields. *)
Definition ensureIntNumber (v : JSValue) : Outcome IntNumber := ensureBN v.

(** Modelled from the spec: a filter id is a hexadecimal string; malformed
    arguments fail fast. *)
Definition ensureHexString (v : JSValue) : Outcome HexString :=
  match v with
  | JStr s =>
      let body := snd (strip0x s) in
      if all_hex body
      then Normal (lower_string body)
      else Throw (invalid_input "hexadecimal string")
  | _ => Throw (invalid_input "hexadecimal string")
  end.

(** Modelled from the spec: [data] is a byte string; here, the bytes written
    as a hexadecimal string. *)
Definition ensureBuffer (v : JSValue) : Outcome Buffer :=
  match v with
  | JStr s =>
      match hex_bytes (snd (strip0x s)) with
      | Some bs => Normal bs
      | None => Throw (invalid_input "buffer")
      end
  | _ => Throw (invalid_input "buffer")
  end.

#[export] Instance util : Util :=
  Build_Util ensureAddressString ensureBN ensureBuffer ensureHexString ensureIntNumber.

(** Modelled from the spec: the values of [ProviderErrorCode] are declared in
    [./types], which is not among the sources; the spec only asks that the codes be distinct. *)
#[export] Instance codes : ProviderErrorCodes :=
  Build_ProviderErrorCodes
    (fun c => match c with
              | USER_DENIED_REQUEST_ACCOUNTS => 4001
              | USER_DENIED_REQUEST_SIGNATURE => 4002
              | UNAUTHORIZED => 4100
              end%Z).

(** Modelled from the spec: [WalletLinkRelay] is not among the sources; its
    [openLinkingWindow()] returns a handle.  Here a bare handle whose [opener]
    is set. *)
#[export] Instance windows : WalletLinkWindows unit :=
  Build_WalletLinkWindows unit tt (fun _ => true).

(** Modelled from the spec: [FilterPolyfill] is not among the sources; its
    [uninstallFilter(filterId)] returns a boolean.  Here a polyfill that knows
    every filter id. *)
#[export] Instance filters : FilterPolyfillSync :=
  Build_FilterPolyfillSync (fun _ => true).

(** Modelled from the spec: [walletLinkStorage] is not among the sources; it
    is a key/value [get]/[set] capability.  Here a storage whose writes
    succeed. *)
Definition storage : WalletLinkStorage :=
  Build_WalletLinkStorage (fun _ _ => Normal tt).

(** Modelled from the spec: the same capability when a write fails, as
    [localStorage.setItem] does once the quota is exceeded. *)
Definition full_storage : WalletLinkStorage :=
  Build_WalletLinkStorage (fun _ _ => Throw (Error "QuotaExceededError")).

Definition alice : AddressString := "0x00000000000000000000000000000000000000a1".
Definition bob : AddressString := "0x00000000000000000000000000000000000000b2".

(** A provider on chain 1 with no authorised address. *)
Definition fresh : WalletLinkProvider unit :=
  mkProvider "DApp" 1%Z "https://rpc.example/" "0123456789" [] None [].

(** The same provider once [alice] and [bob] are authorised. *)
Definition authorized : WalletLinkProvider unit :=
  mkProvider "DApp" 1%Z "https://rpc.example/" "0123456789" [alice; bob] None [].

(** Modelled from the spec: the provider identity is a one-way digest of the
    configuration.  SHA-256 is not computed here; this stand-in returns its
    input, which is enough to run the constructor. *)
Definition digest (s : string) : string := s.

#[export] Instance crypto : Crypto := Build_Crypto digest.

(** Modelled from the spec: the storage capability's [get(key)] answers a
    value or nothing, or fails.  Here a storage that answers every key with
    the outcome [stored]. *)
Definition storage_holding (stored : Outcome JSValue) : WalletLinkStorageRead :=
  Build_WalletLinkStorageRead (fun _ => stored).

(** The options of the reference provider. *)
Definition options : WalletLinkProviderOptions :=
  mkOptions true None "https://rpc.example/" None.

(** A production build served from [https://link.example]. *)
Definition production : Environment :=
  mkEnvironment (Some "production") None None "https:" "link.example".

End Reference.

(** * Properties *)

(** The synchronous table of the spec. *)
Definition synchronous_table : list string :=
  [JSONRPCMethod.eth_accounts; JSONRPCMethod.eth_coinbase;
   JSONRPCMethod.net_version; JSONRPCMethod.eth_uninstallFilter].

(** The filter table of the spec. *)
Definition filter_table : list string :=
  [JSONRPCMethod.eth_newFilter; JSONRPCMethod.eth_newBlockFilter;
   JSONRPCMethod.eth_newPendingTransactionFilter;
   JSONRPCMethod.eth_getFilterChanges; JSONRPCMethod.eth_getFilterLogs].

(** The relay table of the spec. *)
Definition relay_table : list string :=
  [JSONRPCMethod.eth_requestAccounts; JSONRPCMethod.eth_sign;
   JSONRPCMethod.eth_ecRecover; JSONRPCMethod.personal_sign;
   JSONRPCMethod.personal_ecRecover; JSONRPCMethod.eth_signTransaction;
   JSONRPCMethod.eth_sendRawTransaction; JSONRPCMethod.eth_sendTransaction].

(** The relay-backed methods whose [catch] block remaps a denial. *)
Definition denial_capable : list string :=
  [JSONRPCMethod.eth_requestAccounts; JSONRPCMethod.eth_sign;
   JSONRPCMethod.personal_sign; JSONRPCMethod.eth_signTransaction;
   JSONRPCMethod.eth_sendTransaction].

Section Properties.

Context {Window : Type}.
Context {util : Util} {codes : ProviderErrorCodes} {storage : WalletLinkStorage}
        {windows : WalletLinkWindows Window} {filters : FilterPolyfillSync}.

Implicit Types (this : WalletLinkProvider Window) (request : JSONRPCRequest).

(** ** The vocabulary of the properties *)

(** The error a relay rejection [err] becomes in a [catch] block that remaps
    denials to [denied]. *)
Definition remapped (denied err : JSError) : JSError :=
  if is_denial err then denied else err.

Definition UserDeniedAccountAccess : JSError :=
  ProviderError (JStr "User denied account authorization")
                (JNum (code_value USER_DENIED_REQUEST_ACCOUNTS)) JUndefined.

Definition UserDeniedMessageSignature : JSError :=
  ProviderError (JStr "User denied message signature")
                (JNum (code_value USER_DENIED_REQUEST_SIGNATURE)) JUndefined.

Definition UserDeniedTransactionSignature : JSError :=
  ProviderError (JStr "User denied transaction signature")
                (JNum (code_value USER_DENIED_REQUEST_SIGNATURE)) JUndefined.

(** The error each denial-capable method throws for a denial. *)
Definition user_denied (method : string) : JSError :=
  if String.eqb method JSONRPCMethod.eth_requestAccounts then UserDeniedAccountAccess
  else if String.eqb method JSONRPCMethod.eth_sign then UserDeniedMessageSignature
  else if String.eqb method JSONRPCMethod.personal_sign then UserDeniedMessageSignature
  else UserDeniedTransactionSignature.

Definition relay_call (call : ExternalCall) : Prop :=
  match call with
  | requestEthereumAccounts _ | signEthereumMessage _ _ _
  | signEthereumTransaction _ | signAndSubmitEthereumTransaction _ => True
  | _ => False
  end.

(** A promise that, if it waits at all, waits for the relay and turns a
    rejection [err] of the relay into the rejection [remapped denied err]. *)
Definition remaps_denials (denied : JSError) (p : Promise (Window := Window) JSONRPCResponse) : Prop :=
  forall call k, p = Pending call k ->
    relay_call call /\
    forall err this, fst (k (Throw err) this) = Throw (remapped denied err).

(** A continuation that turns a rejection of the relay into [denied] when its
    message is a string that mentions a denial, and passes any other
    rejection on as it is. *)
Definition remaps_rejections (denied : JSError)
           (k : Outcome JSValue -> M (Window := Window) JSONRPCResponse) : Prop :=
  forall (err : JSError) this,
    ((exists s, err_message err = JStr s /\ mentions_denial s) ->
     fst (k (Throw err) this) = Throw denied) /\
    (~ (exists s, err_message err = JStr s /\ mentions_denial s) ->
     fst (k (Throw err) this) = Throw err).

(** Every value a synchronous computation returns satisfies [P]. *)
Definition returns_only {A} (P : A -> Prop) (m : M (Window := Window) A) : Prop :=
  forall this a this', m this = (Normal a, this') -> P a.

(** Every value the promise fulfils with, now or after its collaborator call
    completes, satisfies [P]. *)
Definition fulfils_with {A} (P : A -> Prop) (p : Promise (Window := Window) A) : Prop :=
  match p with
  | Settled (Normal a) => P a
  | Settled (Throw _) => True
  | Pending _ k => forall completion, returns_only P (k completion)
  end.

(** The responses a handler builds itself carry id 0. *)
Definition built_with_id_0 (p : Promise (Window := Window) JSONRPCResponse) : Prop :=
  fulfils_with (fun res => get_prop res "id" = JNum 0) p.

(** The promises of a batch whose elements have all fulfilled, with [vs]. *)
Definition fulfilled {A} (vs : list A) : list (Promise (Window := Window) A) :=
  map (fun v => Settled (Normal v)) vs.

(** The order in which [Promise.all] is told of the settlements of a batch
    whose promises are [ps]: those it is told of at once, then the promises of
    the turns of [sched]. *)
Definition settlement_order {A} (known : list bool) (ps : list (Promise (Window := Window) A))
           (sched : list Completion) : list nat :=
  told_at_once known ps sched ++ map fst sched.

(** The error thrown by [_requireAuthorization]. *)
Definition Unauthorized : JSError :=
  ProviderError (JStr "Unauthorized") (JNum (code_value UNAUTHORIZED)) JUndefined.

(** The methods whose handler starts with [_requireAuthorization]. *)
Definition requires_authorization : list string :=
  [JSONRPCMethod.eth_sign; JSONRPCMethod.personal_sign;
   JSONRPCMethod.eth_signTransaction; JSONRPCMethod.eth_sendTransaction].

(** The calls made on the relay. *)
Definition relay_operation (call : ExternalCall) : Prop :=
  match call with
  | requestEthereumAccounts _ | signEthereumMessage _ _ _
  | ethereumAddressFromSignedMessage _ _ _ | signEthereumTransaction _
  | submitEthereumTransaction _ _ | signAndSubmitEthereumTransaction _ => True
  | _ => False
  end.

(** The calls made on the filter polyfill. *)
Definition filter_operation (call : ExternalCall) : Prop :=
  match call with
  | newFilter _ | newBlockFilter | newPendingTransactionFilter
  | getFilterChanges _ | getFilterLogs _ => True
  | _ => False
  end.

(** The effects of the [finally] block on a provider whose linking window is
    [w]. *)
Definition closing_effects (w : option Window) : list Effect :=
  match w with
  | Some _ => [EffLinkWindowClose; EffWindowFocus]
  | None => []
  end.

(** The effects on the linking window and on the focus. *)
Definition window_effect (e : Effect) : Prop :=
  match e with
  | EffOpenWalletLinkWindow | EffLinkWindowFocus | EffLinkWindowClose
  | EffWindowFocus => True
  | _ => False
  end.

(** The fields declared [readonly] are the same in both providers. *)
Definition same_configuration (this this' : WalletLinkProvider Window) : Prop :=
  _appName this' = _appName this /\
  _chainId this' = _chainId this /\
  _jsonRpcUrl this' = _jsonRpcUrl this /\
  _providerId this' = _providerId this.

(** A synchronous computation that leaves the [readonly] fields alone. *)
Definition keeps_configuration {A} (m : M (Window := Window) A) : Prop :=
  forall this, same_configuration this (snd (m this)).

(** A callback is handed an error or a result, never both and never
    neither. *)
Definition well_formed_invocation {A} (invocation : Invocation A) : Prop :=
  match invocation with
  | (Some _, None) | (None, Some _) => True
  | _ => False
  end.

(** A linking window is tracked and its [opener] is still set. *)
Definition controllable (this : WalletLinkProvider Window) : bool :=
  match _walletLinkWindow this with
  | Some w => opener w
  | None => false
  end.

(** What [_eth_requestAccounts] does once the relay has answered (the code
    after its [await]); the lemma [_eth_requestAccounts_unauthorized] shows it
    is the continuation of the promise. *)
Definition after_requestEthereumAccounts (completion : Outcome JSValue)
  : M (Window := Window) JSONRPCResponse :=
  bind (try_finally
          match completion with
          | Normal res => ret res
          | Throw err =>
              rethrow_denied "User denied account authorization"
                             USER_DENIED_REQUEST_ACCOUNTS err
          end
          close_walletLinkWindow)
       (fun res =>
          if negb (truthy (get_prop res "result"))
          then throw (Error "accounts received is empty")
          else bind (_setAddresses (get_prop res "result") true)
                    (fun _ => bind get (fun this' =>
                       ret (response 0 (addresses_value (_addresses this')))))).

(** A promise whose continuation, whenever it runs, leaves the [readonly]
    fields alone. *)
Definition promise_keeps_configuration {A} (p : Promise (Window := Window) A) : Prop :=
  match p with
  | Settled _ => True
  | Pending _ k => forall completion, keeps_configuration (k completion)
  end.

(** A promise-returning method that keeps the [readonly] fields, now and
    later. *)
Definition async_keeps_configuration {A} (f : Async (Window := Window) A) : Prop :=
  forall this,
    same_configuration this (snd (f this)) /\
    promise_keeps_configuration (fst (f this)).

(** As [promise_keeps_configuration], for the promise a filter method may
    return. *)
Definition optional_promise_keeps_configuration
           (o : option (Promise (Window := Window) JSONRPCResponse)) : Prop :=
  match o with
  | Some p => promise_keeps_configuration p
  | None => True
  end.

(** ** Proofs *)

Lemma eqb_false_of_neq (a b : string) : a <> b -> String.eqb a b = false.
Proof. intros Hne. now apply String.eqb_neq. Qed.

Lemma not_in_synchronous_table (m : string) :
  ~ In m synchronous_table ->
  String.eqb m JSONRPCMethod.eth_accounts = false /\
  String.eqb m JSONRPCMethod.eth_coinbase = false /\
  String.eqb m JSONRPCMethod.eth_uninstallFilter = false /\
  String.eqb m JSONRPCMethod.net_version = false.
Proof.
  intros Hnot. unfold synchronous_table in Hnot. cbn [In] in Hnot.
  repeat split; apply eqb_false_of_neq; intros ->; apply Hnot; tauto.
Qed.

(** Outside the synchronous table the [switch] falls to its default. *)
Lemma _handleSynchronousMethods_default request this :
  ~ In (method request) synchronous_table ->
  _handleSynchronousMethods request this = (Normal JUndefined, this).
Proof.
  intros Hnot. destruct (not_in_synchronous_table _ Hnot) as (Ha & Hc & Hu & Hn).
  unfold _handleSynchronousMethods. now rewrite Ha, Hc, Hu, Hn.
Qed.

Lemma _handleAsynchronousFilterMethods_default request this :
  ~ In (method request) filter_table ->
  _handleAsynchronousFilterMethods request this = (Normal None, this).
Proof.
  intros Hnot. unfold filter_table in Hnot. cbn [In] in Hnot.
  unfold _handleAsynchronousFilterMethods.
  rewrite !eqb_false_of_neq; [reflexivity | ..];
    intros Heq; apply Hnot; rewrite Heq; tauto.
Qed.

Lemma _sendRequest_unsupported request this :
  ~ In (method request) synchronous_table ->
  _sendRequest request this =
    (Throw (synchronous_unsupported (method request)), this).
Proof.
  intros Hnot. unfold _sendRequest, bind.
  now rewrite (_handleSynchronousMethods_default _ _ Hnot).
Qed.

Lemma _sendRequest_eth_accounts request this :
  method request = JSONRPCMethod.eth_accounts ->
  _sendRequest request this =
    (Normal (response (id request) (addresses_value (_addresses this))), this).
Proof.
  intros Hm. unfold _sendRequest, _handleSynchronousMethods, bind. now rewrite Hm.
Qed.

Lemma _sendRequest_eth_coinbase request this :
  method request = JSONRPCMethod.eth_coinbase ->
  _sendRequest request this =
    (Normal (response (id request)
               (match selectedAddress this with Some a => JStr a | None => JNull end)),
     this).
Proof.
  intros Hm. unfold _sendRequest, _handleSynchronousMethods, bind. rewrite Hm.
  cbn. unfold _eth_coinbase, bind, get, ret.
  now destruct (selectedAddress this).
Qed.

Lemma _sendRequest_net_version request this :
  method request = JSONRPCMethod.net_version ->
  _sendRequest request this =
    (Normal (response (id request) (JStr (Number_toString (_chainId this)))), this).
Proof.
  intros Hm. unfold _sendRequest, _handleSynchronousMethods, bind. now rewrite Hm.
Qed.

Lemma _sendRequest_eth_uninstallFilter request this :
  method request = JSONRPCMethod.eth_uninstallFilter ->
  _sendRequest request this =
    match ensureHexString (nth_param 0 (params_or_empty request)) with
    | Normal filterId =>
        (Normal (response (id request) (JBool (uninstallFilter filterId))),
         add_effect (EffUninstallFilter filterId) this)
    | Throw e => (Throw e, this)
    end.
Proof.
  intros Hm. unfold _sendRequest, _handleSynchronousMethods, bind. rewrite Hm.
  cbn. unfold _eth_uninstallFilter, bind, lift, perform, modify, ret.
  now destruct (ensureHexString _).
Qed.

(** C1. Through [send(request)] without a callback, a method outside the
    synchronous table throws the error whose message names the method twice
    and asks for a callback; [eth_accounts], [eth_coinbase] and [net_version]
    always return a response with the request's id and the method's result
    (for [net_version], the chain id as [Number::toString] prints it);
    [eth_uninstallFilter] returns such a response, with the filter polyfill's
    answer, only when its first parameter passes [ensureHexString], and
    otherwise throws what [ensureHexString] threw, leaving the provider as it
    was. *)
Theorem C1_synchronous_surface request this :
  (~ In (method request) synchronous_table ->
   _sendRequest request this =
     (Throw (Error ("WalletLink does not support calling " +:+ method request +:+
                    " synchronously without a callback. Please provide a callback parameter to call " +:+
                    method request +:+ " asynchronously.")),
      this)) /\
  (method request = JSONRPCMethod.eth_accounts ->
   _sendRequest request this =
     (Normal (response (id request) (addresses_value (_addresses this))), this)) /\
  (method request = JSONRPCMethod.eth_coinbase ->
   _sendRequest request this =
     (Normal (response (id request)
                (match selectedAddress this with Some a => JStr a | None => JNull end)),
      this)) /\
  (method request = JSONRPCMethod.net_version ->
   _sendRequest request this =
     (Normal (response (id request) (JStr (Number_toString (_chainId this)))), this)) /\
  (method request = JSONRPCMethod.eth_uninstallFilter ->
   _sendRequest request this =
     match ensureHexString (nth_param 0 (params_or_empty request)) with
     | Normal filterId =>
         (Normal (response (id request) (JBool (uninstallFilter filterId))),
          add_effect (EffUninstallFilter filterId) this)
     | Throw e => (Throw e, this)
     end).
Proof.
  split; [apply _sendRequest_unsupported |].
  split; [apply _sendRequest_eth_accounts |].
  split; [apply _sendRequest_eth_coinbase |].
  split; [apply _sendRequest_net_version | apply _sendRequest_eth_uninstallFilter].
Qed.

(** C10. With no authorised address, [eth_coinbase] through [send(request)]
    returns a response whose result is [null]: the handler's [null] is a
    defined result, and [_sendRequest] throws only on [undefined]. *)
Theorem C10_coinbase_null_when_unauthorized request this :
  method request = JSONRPCMethod.eth_coinbase ->
  _addresses this = [] ->
  _eth_coinbase this = (Normal JNull, this) /\
  is_defined JNull = true /\
  _sendRequest request this = (Normal (response (id request) JNull), this).
Proof.
  intros Hm Hempty.
  assert (Hsel : selectedAddress this = None)
    by (unfold selectedAddress; now rewrite Hempty).
  repeat split.
  - unfold _eth_coinbase, bind, get, ret. now rewrite Hsel.
  - rewrite (_sendRequest_eth_coinbase _ _ Hm), Hsel. reflexivity.
Qed.

(** *** The address store *)

Lemma map_throwing_Normal {A B} (f : A -> Outcome B) (l : list A) (l' : list B) :
  map_throwing f l = Normal l' <-> Forall2 (fun a b => f a = Normal b) l l'.
Proof.
  revert l'. induction l as [|x l IH]; intros l'; cbn.
  - split.
    + intros [= <-]. constructor.
    + intros Hall. now inversion Hall.
  - split.
    + destruct (f x) as [y|e] eqn:Hx; [|discriminate].
      destruct (map_throwing f l) as [ys|e] eqn:Hl; [|discriminate].
      intros [= <-]. constructor; [assumption | now apply IH].
    + intros Hall. inversion Hall as [|? y ? ys Hx Hrest]; subst.
      rewrite Hx. apply IH in Hrest. now rewrite Hrest.
Qed.

Lemma map_throwing_all_valid {A B} (f : A -> Outcome B) (l : list A) :
  Forall (fun a => exists b, f a = Normal b) l ->
  exists l', map_throwing f l = Normal l'.
Proof.
  induction 1 as [|x l [y Hx] _ [ys Hl]]; cbn.
  - now exists [].
  - rewrite Hx, Hl. now exists (y :: ys).
Qed.

Lemma map_throwing_some_invalid {A B} (f : A -> Outcome B) (l : list A) :
  Exists (fun a => exists e, f a = Throw e) l ->
  exists e, map_throwing f l = Throw e.
Proof.
  induction l as [|x l IH]; intros Hex; [now inversion Hex|].
  cbn. destruct (f x) as [y|e] eqn:Hx; [|now exists e].
  inversion Hex as [? ? [e He]|? ? Hrest]; subst; [congruence|].
  destruct (IH Hrest) as [e He]. rewrite He. now exists e.
Qed.

(** What [_setAddresses] does on an array, path by path. *)
Lemma _setAddresses_array (l : list JSValue) (persist : bool) this :
  _setAddresses (JArr l) persist this =
    match map_throwing ensureAddressString l with
    | Throw e => (Throw e, this)
    | Normal normalized =>
        let key := _localStorageAddressesKey this in
        if persist
        then
          match setItem key normalized with
          | Normal _ =>
              (Normal tt,
               add_effect (EffEmit "accountsChanged" normalized)
                 (add_effect (EffStorageSetItem key normalized)
                    (set_addresses normalized this)))
          | Throw e =>
              (Throw e,
               add_effect (EffStorageSetItem key normalized)
                 (set_addresses normalized this))
          end
        else
          (Normal tt,
           add_effect (EffEmit "accountsChanged" normalized)
             (set_addresses normalized this))
    end.
Proof.
  unfold _setAddresses, bind, lift, modify, perform, get, ret.
  destruct (map_throwing ensureAddressString l) as [normalized|e]; [|reflexivity].
  destruct persist; [|reflexivity].
  cbn. now destruct (setItem _ normalized) as [[]|e].
Qed.

Lemma _addresses_after_setAddresses (l : list JSValue) (persist : bool) this normalized :
  map_throwing ensureAddressString l = Normal normalized ->
  _addresses (snd (_setAddresses (JArr l) persist this)) = normalized.
Proof.
  intros Hmap. rewrite _setAddresses_array, Hmap. cbn.
  destruct persist; [|reflexivity].
  now destruct (setItem _ normalized).
Qed.

Lemma _eth_accounts_reads this :
  _eth_accounts this = (Normal (addresses_value (_addresses this)), this).
Proof. reflexivity. Qed.

(** C5. When every entry passes [ensureAddressString], the list read back
    after [_setAddresses] is the list of the normalised entries, in the order
    of the input (and is the input itself when the input is already in
    normal form), and the call returns unless a requested storage write
    throws; when some entry, wherever it stands, fails validation, the call
    throws and the provider is exactly as it was. *)
Theorem C5_setAddresses_all_or_nothing (l : list JSValue) (persist : bool) this :
  (Forall (fun a => exists n, ensureAddressString a = Normal n) l ->
   exists normalized,
     Forall2 (fun a n => ensureAddressString a = Normal n) l normalized /\
     _addresses (snd (_setAddresses (JArr l) persist this)) = normalized /\
     fst (_eth_accounts (snd (_setAddresses (JArr l) persist this))) =
       Normal (addresses_value normalized) /\
     (persist = false \/
      setItem (_localStorageAddressesKey this) normalized = Normal tt ->
      fst (_setAddresses (JArr l) persist this) = Normal tt)) /\
  (forall addrs : list AddressString,
     l = map JStr addrs ->
     Forall (fun a => ensureAddressString (JStr a) = Normal a) addrs ->
     _addresses (snd (_setAddresses (JArr l) persist this)) = addrs) /\
  (Exists (fun a => exists e, ensureAddressString a = Throw e) l ->
   exists e, _setAddresses (JArr l) persist this = (Throw e, this)).
Proof.
  split; [|split].
  - intros Hvalid.
    destruct (map_throwing_all_valid _ _ Hvalid) as [normalized Hmap].
    exists normalized. split; [now apply map_throwing_Normal|].
    rewrite (_addresses_after_setAddresses _ _ _ _ Hmap).
    split; [reflexivity|]. split.
    + rewrite _eth_accounts_reads. cbn [fst].
      now rewrite (_addresses_after_setAddresses _ _ _ _ Hmap).
    + intros Hok. rewrite _setAddresses_array, Hmap. cbn.
      destruct persist; [|reflexivity].
      destruct Hok as [?|Hset]; [discriminate|]. now rewrite Hset.
  - intros addrs -> Hnormal.
    apply _addresses_after_setAddresses, map_throwing_Normal.
    induction Hnormal; cbn; constructor; assumption.
  - intros Hinvalid.
    destruct (map_throwing_some_invalid _ _ Hinvalid) as [e Hmap].
    exists e. now rewrite _setAddresses_array, Hmap.
Qed.

(** C6, as the code has it.  With [persist] set and every entry valid,
    [_setAddresses] replaces the list, then writes it under the provider's
    storage key; when the write returns, the call returns after emitting
    [accountsChanged] with the new list; when the write throws, the call throws
    that error with the list already replaced and nothing emitted. *)
Theorem C6_setAddresses_persist (l : list JSValue) (normalized : list AddressString) this :
  map_throwing ensureAddressString l = Normal normalized ->
  _setAddresses (JArr l) true this =
    match setItem (_localStorageAddressesKey this) normalized with
    | Normal _ =>
        (Normal tt,
         add_effect (EffEmit "accountsChanged" normalized)
           (add_effect (EffStorageSetItem (_localStorageAddressesKey this) normalized)
              (set_addresses normalized this)))
    | Throw e =>
        (Throw e,
         add_effect (EffStorageSetItem (_localStorageAddressesKey this) normalized)
           (set_addresses normalized this))
    end.
Proof.
  intros Hmap. now rewrite _setAddresses_array, Hmap.
Qed.

(** *** The transaction normaliser *)

Lemma includes_In (l : list AddressString) (a : AddressString) :
  includes l a = true <-> In a l.
Proof.
  unfold includes. rewrite existsb_exists. split.
  - intros (x & Hin & Heq). apply String.eqb_eq in Heq. now subst.
  - intros Hin. exists a. split; [assumption | apply String.eqb_refl].
Qed.

Lemma selectedAddress_Some this (a : AddressString) :
  selectedAddress this = Some a ->
  String.eqb a "" = false /\ includes (_addresses this) a = true.
Proof.
  unfold selectedAddress. destruct (_addresses this) as [|x l] eqn:Haddr; [discriminate|].
  destruct (String.eqb x "") eqn:Hx; [discriminate|]. intros [= <-].
  split; [assumption|]. apply includes_In. now left.
Qed.

(** C4. On [{to, value: "0x5"}], with a selected address, a [to] that passes
    [ensureAddressString] and an [ensureBN] that reads "0x5" as 5, the result
    has the selected address as sender, weiValue 5, empty data, no nonce, no
    gas fields and the provider's chain id; with no usable [from] and no
    selected address the call throws "Ethereum address is unavailable" (the
    spec's MissingField); when the resolved sender, a non-empty address, is
    not among the authorised addresses it throws "Unknown Ethereum address"
    (the spec's UnauthorizedAddress).  The provider is never changed. *)
Theorem C4_prepareTransactionParams this :
  (forall (to : JSValue) (to' a : AddressString),
     selectedAddress this = Some a ->
     truthy to = true ->
     ensureAddressString to = Normal to' ->
     ensureBN (JStr "0x5") = Normal 5%Z ->
     _prepareTransactionParams (JObj [("to", to); ("value", JStr "0x5")]) this =
       (Normal (mkTx a (Some to') 5%Z [] None None None (_chainId this)), this)) /\
  (forall tx : JSValue,
     truthy (get_prop tx "from") = false ->
     selectedAddress this = None ->
     _prepareTransactionParams tx this =
       (Throw (Error "Ethereum address is unavailable"), this)) /\
  (forall (tx : JSValue) (a : AddressString),
     (truthy (get_prop tx "from") = true /\
      ensureAddressString (get_prop tx "from") = Normal a) \/
     (truthy (get_prop tx "from") = false /\ selectedAddress this = Some a) ->
     a <> "" ->
     ~ In a (_addresses this) ->
     _prepareTransactionParams tx this =
       (Throw (Error "Unknown Ethereum address"), this)).
Proof.
  split; [|split].
  - intros to to' a Hsel Hto Hto' Hbn.
    destruct (selectedAddress_Some _ _ Hsel) as [Hne Hinc].
    unfold _prepareTransactionParams, bind, get, ensure_or, nullable, lift, ret.
    cbn. rewrite Hsel, Hne, Hinc, Hto, Hto', Hbn. reflexivity.
  - intros tx Hfrom Hsel.
    unfold _prepareTransactionParams, bind, get, ensure_or, lift, ret, throw.
    now rewrite Hfrom, Hsel.
  - intros tx a Hresolved Hne Hnotin.
    assert (Hinc : includes (_addresses this) a = false).
    { destruct (includes (_addresses this) a) eqn:Hinc; [|reflexivity].
      apply includes_In in Hinc. contradiction. }
    destruct Hresolved as [[Hfrom Hok] | [Hfrom Hsel]].
    + unfold _prepareTransactionParams, bind, get, ensure_or, nullable, lift, ret, throw.
      rewrite Hfrom, Hok. cbn. rewrite (eqb_false_of_neq _ _ Hne), Hinc. reflexivity.
    + destruct (selectedAddress_Some _ _ Hsel) as [_ Hin]. congruence.
Qed.

(** *** The denial pattern *)

Lemma prefix_ci_spec (pat s : string) :
  prefix_ci pat s = true <->
  exists mid post, s = mid +:+ post /\ lower_string mid = pat.
Proof.
  revert s. induction pat as [|p pat IH]; intros s; cbn.
  - split; [|reflexivity]. intros _. now exists "", s.
  - destruct s as [|c s].
    + split; [discriminate|]. intros (mid & post & Hs & Hmid).
      destruct mid; cbn in *; discriminate.
    + rewrite andb_true_iff, IH. split.
      * intros [Hc (mid & post & -> & <-)]. apply Ascii.eqb_eq in Hc. subst p.
        now exists (String c mid), post.
      * intros (mid & post & Hs & Hmid).
        destruct mid as [|m mid]; cbn in *; [discriminate|].
        injection Hs as -> ->. injection Hmid as <- <-.
        split; [apply Ascii.eqb_refl | now exists mid, post].
Qed.

Lemma search_ci_spec (pat s : string) :
  search_ci pat s = true <-> contains_ci pat s.
Proof.
  unfold contains_ci. induction s as [|c s IH]; cbn [search_ci].
  - rewrite orb_false_r, prefix_ci_spec. split.
    + intros (mid & post & Hs & Hmid). now exists "", mid, post.
    + intros (pre & mid & post & Hs & Hmid).
      destruct pre; cbn in Hs; [|discriminate]. now exists mid, post.
  - rewrite orb_true_iff, IH, prefix_ci_spec. split.
    + intros [(mid & post & Hs & Hmid) | (pre & mid & post & -> & Hmid)].
      * now exists "", mid, post.
      * now exists (String c pre), mid, post.
    + intros (pre & mid & post & Hs & Hmid). destruct pre as [|c' pre]; cbn in Hs.
      * left. now exists mid, post.
      * injection Hs as -> ->. right. now exists pre, mid, post.
Qed.

(** The executable test is the spec's sentence. *)
Lemma is_denial_spec (err : JSError) :
  is_denial err = true <-> exists s, err_message err = JStr s /\ mentions_denial s.
Proof.
  unfold is_denial, mentions_denial, matches_denied_rejected.
  destruct (err_message err) as [| | | | s | |];
    try (split; [discriminate | intros (s' & Hs & _); discriminate]).
  rewrite orb_true_iff, !search_ci_spec. split.
  - intros Hm. now exists s.
  - intros (s' & [= <-] & Hm). exact Hm.
Qed.

(** *** Inversion of the monadic code *)

Lemma bind_Normal {A B} (m : M A) (f : A -> M B) this (b : B) this1 :
  bind m f this = (Normal b, this1) ->
  exists a this', m this = (Normal a, this') /\ f a this' = (Normal b, this1).
Proof.
  unfold bind. destruct (m this) as [[a|e] this']; [|discriminate].
  intros Hf. now exists a, this'.
Qed.

Lemma async_Pending {A} (body : M (Promise A)) this call k this1 :
  async body this = (Pending call k, this1) ->
  body this = (Normal (Pending call k), this1).
Proof.
  unfold async. destruct (body this) as [[p|e] this']; intros [= <- <-]; reflexivity.
Qed.

Lemma then_Pending {A B} (p : Promise A) (f : A -> B) call k :
  then_ p f = Pending call k ->
  exists k0, p = Pending call k0 /\
             forall completion this,
               fst (k completion this) = outcome_map f (fst (k0 completion this)).
Proof.
  destruct p as [o|c k0]; cbn; [discriminate|]. intros [= <- <-].
  exists k0. split; [reflexivity|]. intros completion this.
  now destruct (k0 completion this).
Qed.

Lemma rethrow_denied_remapped {A} message code err this :
  rethrow_denied (A := A) message code err this =
    (Throw (remapped (ProviderError (JStr message) (JNum (code_value code)) JUndefined) err),
     this).
Proof. unfold rethrow_denied, remapped, throw. now destruct (is_denial err). Qed.

Lemma await_catch_remaps (c : ExternalCall)
      (k : JSValue -> M (Window := Window) JSONRPCResponse)
      message code :
  relay_call c ->
  remaps_denials (ProviderError (JStr message) (JNum (code_value code)) JUndefined)
                 (await_catch c k (rethrow_denied message code)).
Proof.
  intros Hrelay call k' [= <- <-]. split; [assumption|].
  intros err this. now rewrite rethrow_denied_remapped.
Qed.

Lemma close_walletLinkWindow_returns this :
  exists this', close_walletLinkWindow this = (Normal tt, this').
Proof.
  unfold close_walletLinkWindow, bind, get, perform, modify, ret.
  destruct (_walletLinkWindow this); eexists; reflexivity.
Qed.

Lemma _eth_requestAccounts_remaps this :
  remaps_denials UserDeniedAccountAccess (fst (_eth_requestAccounts this)).
Proof.
  intros call k Hp.
  assert (Hk : relay_call call /\
               k = fun completion =>
                 bind (try_finally
                         match completion with
                         | Normal res => ret res
                         | Throw err =>
                             rethrow_denied "User denied account authorization"
                                            USER_DENIED_REQUEST_ACCOUNTS err
                         end close_walletLinkWindow)
                      (fun res =>
                         if negb (truthy (get_prop res "result"))
                         then throw (Error "accounts received is empty")
                         else bind (_setAddresses (get_prop res "result") true)
                                   (fun _ => bind get (fun this' =>
                                      ret (response 0 (addresses_value (_addresses this'))))))).
  { revert Hp. unfold _eth_requestAccounts, async, bind, get, ret, perform, modify.
    destruct (0 <? length (_addresses this))%nat; [discriminate|].
    destruct (_walletLinkWindow this) as [w|]; [destruct (opener w)|];
      cbn; intros [= <- <-]; split; exact I || reflexivity. }
  destruct Hk as [Hrelay ->]. split; [assumption|].
  intros err this2. unfold bind, try_finally.
  rewrite rethrow_denied_remapped.
  destruct (close_walletLinkWindow_returns this2) as [this3 ->]. reflexivity.
Qed.

Lemma remaps_denials_Settled denied (o : Outcome JSONRPCResponse) :
  remaps_denials denied (Settled o).
Proof. intros call k. discriminate. Qed.

Lemma _requireAuthorization_cases this :
  _requireAuthorization this = (Normal tt, this) \/
  exists e, _requireAuthorization this = (Throw e, this).
Proof.
  unfold _requireAuthorization, bind, get, ret, throw.
  destruct (length (_addresses this) =? 0)%nat; [right; eexists|left]; reflexivity.
Qed.

Lemma _eth_sign_remaps params this :
  remaps_denials UserDeniedMessageSignature (fst (_eth_sign params this)).
Proof.
  unfold _eth_sign, async, bind, lift, ret.
  destruct (_requireAuthorization_cases this) as [-> | [e ->]];
    [|apply remaps_denials_Settled].
  destruct (ensureBuffer _); [|apply remaps_denials_Settled].
  destruct (ensureAddressString _); [|apply remaps_denials_Settled].
  now apply await_catch_remaps.
Qed.

Lemma _personal_sign_remaps params this :
  remaps_denials UserDeniedMessageSignature (fst (_personal_sign params this)).
Proof.
  unfold _personal_sign, async, bind, lift, ret.
  destruct (_requireAuthorization_cases this) as [-> | [e ->]];
    [|apply remaps_denials_Settled].
  destruct (ensureBuffer _); [|apply remaps_denials_Settled].
  destruct (ensureAddressString _); [|apply remaps_denials_Settled].
  now apply await_catch_remaps.
Qed.

Lemma _eth_signTransaction_remaps params this :
  remaps_denials UserDeniedTransactionSignature (fst (_eth_signTransaction params this)).
Proof.
  unfold _eth_signTransaction, async, bind, ret.
  destruct (_requireAuthorization_cases this) as [-> | [e ->]];
    [|apply remaps_denials_Settled].
  destruct (_prepareTransactionParams _ this) as [[tx|e] this'];
    [|apply remaps_denials_Settled].
  now apply await_catch_remaps.
Qed.

Lemma _eth_sendTransaction_remaps params this :
  remaps_denials UserDeniedTransactionSignature (fst (_eth_sendTransaction params this)).
Proof.
  unfold _eth_sendTransaction, async, bind, ret.
  destruct (_requireAuthorization_cases this) as [-> | [e ->]];
    [|apply remaps_denials_Settled].
  destruct (_prepareTransactionParams _ this) as [[tx|e] this'];
    [|apply remaps_denials_Settled].
  now apply await_catch_remaps.
Qed.

(** Evaluate the comparisons of method names that are closed terms. *)
Ltac eval_eqb :=
  repeat match goal with
         | |- context [String.eqb ?a ?b] =>
             let v := eval vm_compute in (String.eqb a b) in
             change (String.eqb a b) with v
         end;
  cbv iota.

(** A method outside the synchronous and filter tables goes to
    [_handleAsynchronousMethods], and its response gets the request's id. *)
Lemma _sendRequestAsync_asynchronous request this :
  ~ In (method request) synchronous_table ->
  ~ In (method request) filter_table ->
  _sendRequestAsync request this =
    (then_ (fst (_handleAsynchronousMethods request this))
           (fun res => with_id res (id request)),
     snd (_handleAsynchronousMethods request this)).
Proof.
  intros Hsync Hfilter.
  unfold _sendRequestAsync, async, bind.
  rewrite (_handleSynchronousMethods_default _ _ Hsync). cbn [is_defined].
  rewrite (_handleAsynchronousFilterMethods_default _ _ Hfilter).
  unfold call_async, ret.
  now destruct (_handleAsynchronousMethods request this).
Qed.

Lemma denial_capable_tables (m : string) :
  In m denial_capable -> ~ In m synchronous_table /\ ~ In m filter_table.
Proof.
  unfold denial_capable, synchronous_table, filter_table. cbn [In].
  intros Hin; split; intros Hin';
    repeat (destruct Hin as [<- | Hin]; [intuition discriminate|]);
    contradiction.
Qed.

Lemma _handleAsynchronousMethods_remaps request this :
  In (method request) denial_capable ->
  remaps_denials (user_denied (method request))
                 (fst (_handleAsynchronousMethods request this)).
Proof.
  unfold denial_capable. cbn [In].
  intros [Hm | [Hm | [Hm | [Hm | [Hm | []]]]]];
    unfold _handleAsynchronousMethods, user_denied; rewrite <- Hm; eval_eqb.
  - apply _eth_requestAccounts_remaps.
  - apply _eth_sign_remaps.
  - apply _personal_sign_remaps.
  - apply _eth_signTransaction_remaps.
  - apply _eth_sendTransaction_remaps.
Qed.

(** Whenever a denial-capable request is left waiting, it waits for the
    relay, and its continuation remaps the relay's rejections. *)
Lemma _sendRequestAsync_remaps request this call k this1 :
  In (method request) denial_capable ->
  _sendRequestAsync request this = (Pending call k, this1) ->
  relay_call call /\ remaps_rejections (user_denied (method request)) k.
Proof.
  intros Hin Hsend.
  destruct (denial_capable_tables _ Hin) as [Hsync Hfilter].
  rewrite (_sendRequestAsync_asynchronous _ _ Hsync Hfilter) in Hsend.
  injection Hsend as Hp _.
  apply then_Pending in Hp as (k0 & Hp & Hk).
  destruct (_handleAsynchronousMethods_remaps request this Hin _ _ Hp) as [Hrelay Hrej].
  split; [assumption|]. intros err this2.
  rewrite Hk, Hrej. unfold remapped. cbn [outcome_map].
  split; intros Hdenial.
  - apply is_denial_spec in Hdenial. now rewrite Hdenial.
  - destruct (is_denial err) eqn:Hd; [|reflexivity].
    apply is_denial_spec in Hd. contradiction.
Qed.

Lemma _requireAuthorization_nonempty this :
  _addresses this <> [] -> _requireAuthorization this = (Normal tt, this).
Proof.
  intros Hne. unfold _requireAuthorization, bind, get, ret.
  destruct (_addresses this); [contradiction | reflexivity].
Qed.

(** Route a request whose method is a literal of the relay table to its
    handler. *)
Ltac to_relay_handler :=
  rewrite _sendRequestAsync_asynchronous by (cbn; intuition discriminate);
  unfold _handleAsynchronousMethods, params_or_empty; cbn [method params id]; eval_eqb.

(** A request that is known to wait remaps the relay's rejections. *)
Ltac remaps_as_waiting Hsend :=
  match type of Hsend with
  | _sendRequestAsync ?request ?this = (Pending ?call ?k, ?this1) =>
      exact (proj2 (_sendRequestAsync_remaps request this call k this1
                      ltac:(cbn; tauto) Hsend))
  end.

(** C3. The five denial-capable methods, sent through the asynchronous path,
    do reach the relay: [eth_requestAccounts] on a provider with no
    authorised address, [eth_sign] and [personal_sign] on an authorised
    provider once their message and address validate, [eth_signTransaction]
    and [eth_sendTransaction] on an authorised provider once the transaction
    normalises; each then waits for the relay call named here.  If the relay
    rejects that call with an error whose message is a string containing
    "denied" or "rejected" in any letter case, the request rejects with the
    method's own [ProviderError]: "User denied account authorization" with
    the code USER_DENIED_REQUEST_ACCOUNTS, or "User denied message signature"
    or "User denied transaction signature" with the code
    USER_DENIED_REQUEST_SIGNATURE; if the relay rejects with any other error,
    the request rejects with that very error.  A request for one of these
    methods never waits for anything but the relay.  The two codes are those
    of two members of [ProviderErrorCode], and differ as numbers whenever the
    enum gives its members different values. *)
Theorem C3_relay_denials_are_remapped (i : Z) (ps : option (list JSValue)) this :
  let params := default [] ps in
  let raw := js_or (nth_param 0 params) (JObj []) in
  (_addresses this = [] ->
   exists k waiting,
     _sendRequestAsync (mkRequest i JSONRPCMethod.eth_requestAccounts ps) this =
       (Pending (requestEthereumAccounts (_appName this)) k, waiting) /\
     remaps_rejections
       (ProviderError (JStr "User denied account authorization")
                      (JNum (code_value USER_DENIED_REQUEST_ACCOUNTS)) JUndefined) k) /\
  (_addresses this <> [] ->
   (forall message address,
      ensureBuffer (nth_param 1 params) = Normal message ->
      ensureAddressString (nth_param 0 params) = Normal address ->
      exists k,
        _sendRequestAsync (mkRequest i JSONRPCMethod.eth_sign ps) this =
          (Pending (signEthereumMessage message address false) k, this) /\
        remaps_rejections
          (ProviderError (JStr "User denied message signature")
                         (JNum (code_value USER_DENIED_REQUEST_SIGNATURE)) JUndefined) k) /\
   (forall message address,
      ensureBuffer (nth_param 0 params) = Normal message ->
      ensureAddressString (nth_param 1 params) = Normal address ->
      exists k,
        _sendRequestAsync (mkRequest i JSONRPCMethod.personal_sign ps) this =
          (Pending (signEthereumMessage message address true) k, this) /\
        remaps_rejections
          (ProviderError (JStr "User denied message signature")
                         (JNum (code_value USER_DENIED_REQUEST_SIGNATURE)) JUndefined) k) /\
   (forall tx,
      fst (_prepareTransactionParams raw this) = Normal tx ->
      (exists k waiting,
         _sendRequestAsync (mkRequest i JSONRPCMethod.eth_signTransaction ps) this =
           (Pending (signEthereumTransaction tx) k, waiting) /\
         remaps_rejections
           (ProviderError (JStr "User denied transaction signature")
                          (JNum (code_value USER_DENIED_REQUEST_SIGNATURE)) JUndefined) k) /\
      (exists k waiting,
         _sendRequestAsync (mkRequest i JSONRPCMethod.eth_sendTransaction ps) this =
           (Pending (signAndSubmitEthereumTransaction tx) k, waiting) /\
         remaps_rejections
           (ProviderError (JStr "User denied transaction signature")
                          (JNum (code_value USER_DENIED_REQUEST_SIGNATURE)) JUndefined) k))) /\
  (forall request call k this1,
     In (method request) denial_capable ->
     _sendRequestAsync request this = (Pending call k, this1) ->
     relay_call call /\ remaps_rejections (user_denied (method request)) k) /\
  (code_value USER_DENIED_REQUEST_ACCOUNTS <> code_value USER_DENIED_REQUEST_SIGNATURE ->
   err_code UserDeniedAccountAccess <> err_code UserDeniedMessageSignature /\
   err_code UserDeniedAccountAccess <> err_code UserDeniedTransactionSignature).
Proof.
  cbn zeta. split; [|split; [|split]].
  - intros Hempty.
    destruct (_sendRequestAsync (mkRequest i JSONRPCMethod.eth_requestAccounts ps) this)
      as [p waiting] eqn:Hsend.
    assert (Hp : exists k, p = Pending (requestEthereumAccounts (_appName this)) k).
    { revert Hsend. to_relay_handler.
      unfold _eth_requestAccounts, async, bind, get, ret, perform, modify.
      rewrite Hempty. cbn.
      destruct (_walletLinkWindow this) as [w|]; [destruct (opener w)|];
        cbn; intros [= <- _]; eexists; reflexivity. }
    destruct Hp as [k ->]. exists k, waiting. split; [reflexivity|].
    remaps_as_waiting Hsend.
  - intros Hne. split; [|split].
    + intros message address Hm Ha.
      assert (Hsend : exists k,
                 _sendRequestAsync (mkRequest i JSONRPCMethod.eth_sign ps) this =
                   (Pending (signEthereumMessage message address false) k, this)).
      { to_relay_handler. unfold _eth_sign, async, bind, lift, ret.
        rewrite (_requireAuthorization_nonempty _ Hne), Hm, Ha. cbn.
        eexists. reflexivity. }
      destruct Hsend as [k Hsend]. exists k. split; [exact Hsend|].
      remaps_as_waiting Hsend.
    + intros message address Hm Ha.
      assert (Hsend : exists k,
                 _sendRequestAsync (mkRequest i JSONRPCMethod.personal_sign ps) this =
                   (Pending (signEthereumMessage message address true) k, this)).
      { to_relay_handler. unfold _personal_sign, async, bind, lift, ret.
        rewrite (_requireAuthorization_nonempty _ Hne), Hm, Ha. cbn.
        eexists. reflexivity. }
      destruct Hsend as [k Hsend]. exists k. split; [exact Hsend|].
      remaps_as_waiting Hsend.
    + intros tx Htx. split.
      * assert (Hsend : exists k waiting,
                   _sendRequestAsync (mkRequest i JSONRPCMethod.eth_signTransaction ps) this =
                     (Pending (signEthereumTransaction tx) k, waiting)).
        { to_relay_handler. unfold _eth_signTransaction, async, bind, ret.
          rewrite (_requireAuthorization_nonempty _ Hne).
          destruct (_prepareTransactionParams _ this) as [[tx'|e'] this1];
            cbn in Htx; [|discriminate]. injection Htx as ->. cbn.
          do 2 eexists. reflexivity. }
        destruct Hsend as (k & waiting & Hsend). exists k, waiting.
        split; [exact Hsend|]. remaps_as_waiting Hsend.
      * assert (Hsend : exists k waiting,
                   _sendRequestAsync (mkRequest i JSONRPCMethod.eth_sendTransaction ps) this =
                     (Pending (signAndSubmitEthereumTransaction tx) k, waiting)).
        { to_relay_handler. unfold _eth_sendTransaction, async, bind, ret.
          rewrite (_requireAuthorization_nonempty _ Hne).
          destruct (_prepareTransactionParams _ this) as [[tx'|e'] this1];
            cbn in Htx; [|discriminate]. injection Htx as ->. cbn.
          do 2 eexists. reflexivity. }
        destruct Hsend as (k & waiting & Hsend). exists k, waiting.
        split; [exact Hsend|]. remaps_as_waiting Hsend.
  - intros request call k this1. apply _sendRequestAsync_remaps.
  - intros Hcodes. split; cbn; intros [= Heq]; contradiction.
Qed.

(** *** Request accounts *)

Lemma nonempty_length (l : list AddressString) :
  l <> [] -> (0 <? length l)%nat = true.
Proof. now destruct l. Qed.

Lemma _eth_requestAccounts_cached this :
  _addresses this <> [] ->
  _eth_requestAccounts this =
    (Settled (Normal (response 0 (addresses_value (_addresses this)))), this).
Proof.
  intros Hne. unfold _eth_requestAccounts, async, bind, get, ret.
  now rewrite (nonempty_length _ Hne).
Qed.

Lemma _sendRequestAsync_eth_requestAccounts_cached i p this :
  _addresses this <> [] ->
  _sendRequestAsync (mkRequest i JSONRPCMethod.eth_requestAccounts p) this =
    (Settled (Normal (response i (addresses_value (_addresses this)))), this).
Proof.
  intros Hne. rewrite _sendRequestAsync_asynchronous.
  - unfold _handleAsynchronousMethods. cbn [method]. eval_eqb.
    now rewrite (_eth_requestAccounts_cached _ Hne).
  - cbn. intuition discriminate.
  - cbn. intuition discriminate.
Qed.

(** C2. With a non-empty address list, request-accounts is settled at once
    with the cached list, whether called as the handler, as an
    [eth_requestAccounts] request on the asynchronous path, through
    [send("eth_requestAccounts")] or through [enable()]; the promise waits for
    no collaborator call, and the provider, its linking window and its record
    of effects are left exactly as they were. *)
Theorem C2_request_accounts_uses_cache this :
  _addresses this <> [] ->
  _eth_requestAccounts this =
    (Settled (Normal (response 0 (addresses_value (_addresses this)))), this) /\
  (forall i p,
     _sendRequestAsync (mkRequest i JSONRPCMethod.eth_requestAccounts p) this =
       (Settled (Normal (response i (addresses_value (_addresses this)))), this)) /\
  (forall callbackOrParams,
     send_method JSONRPCMethod.eth_requestAccounts callbackOrParams this =
       (Settled (Normal (addresses_value (_addresses this))), this)) /\
  enable this = (Settled (Normal (addresses_value (_addresses this))), this).
Proof.
  intros Hne. split; [now apply _eth_requestAccounts_cached|].
  split; [intros; now apply _sendRequestAsync_eth_requestAccounts_cached|].
  split.
  - intros v. unfold send_method.
    now rewrite (_sendRequestAsync_eth_requestAccounts_cached _ _ _ Hne).
  - unfold enable. now rewrite (nonempty_length _ Hne).
Qed.

(** *** The remote fallback *)

Lemma _handleAsynchronousMethods_fallback request this :
  ~ In (method request) relay_table ->
  _handleAsynchronousMethods request this =
    (await (fetch (_jsonRpcUrl this) request) check_remote_response, this).
Proof.
  intros Hnot. unfold relay_table in Hnot. cbn [In] in Hnot.
  unfold _handleAsynchronousMethods.
  rewrite !eqb_false_of_neq; [reflexivity | ..];
    intros Heq; apply Hnot; rewrite Heq; tauto.
Qed.

(** C8, as the code has it.  A request whose method is outside the relay
    table waits for one [fetch] of the configured endpoint with the request as
    body, and what happens next is final (the continuation makes no further
    call): a failed fetch rejects with the same error; a falsy parsed body
    rejects with the [ProviderError] "unexpected response"; a body whose
    [error] property is truthy rejects with a [ProviderError] carrying that
    error's [code] and [data] and, as message, that error's [message] when it
    is truthy and "RPC Error" when it is empty or absent; every other body
    fulfils the promise with the body itself. *)
Theorem C8_remote_fallback request this :
  ~ In (method request) relay_table ->
  exists k,
    _handleAsynchronousMethods request this =
      (Pending (fetch (_jsonRpcUrl this) request) k, this) /\
    forall this',
      (forall e, k (Throw e) this' = (Throw e, this')) /\
      (forall json,
         truthy json = false ->
         k (Normal json) this' =
           (Throw (ProviderError (JStr "unexpected response") JUndefined JUndefined),
            this')) /\
      (forall json,
         truthy json = true ->
         truthy (get_prop json "error") = true ->
         let error := get_prop json "error" in
         k (Normal json) this' =
           (Throw (ProviderError
                     (if truthy (get_prop error "message")
                      then get_prop error "message"
                      else JStr "RPC Error")
                     (get_prop error "code") (get_prop error "data")),
            this')) /\
      (forall json,
         truthy json = true ->
         truthy (get_prop json "error") = false ->
         k (Normal json) this' = (Normal json, this')).
Proof.
  intros Hnot. rewrite (_handleAsynchronousMethods_fallback _ _ Hnot).
  eexists. split; [reflexivity|]. intros this'.
  unfold check_remote_response, throw, ret, js_or.
  repeat split.
  - intros json Hjson. now rewrite Hjson.
  - intros json Hjson Herror. cbn zeta. now rewrite Hjson, Herror.
  - intros json Hjson Herror. now rewrite Hjson, Herror.
Qed.

(** *** Correlation ids *)

Lemma returns_only_ret {A} (P : A -> Prop) (a : A) : P a -> returns_only P (ret a).
Proof. intros HP this a' this' [= <- _]. exact HP. Qed.

Lemma returns_only_throw {A} (P : A -> Prop) (e : JSError) : returns_only P (throw e).
Proof. intros this a this'. discriminate. Qed.

Lemma returns_only_bind {A B} (P : B -> Prop) (m : M A) (f : A -> M B) :
  (forall a, returns_only P (f a)) -> returns_only P (bind m f).
Proof.
  intros Hf this b this' Hrun. apply bind_Normal in Hrun as (a & this1 & _ & Hrun).
  exact (Hf a _ _ _ Hrun).
Qed.

Lemma returns_only_rethrow_denied {A} (P : A -> Prop) message code err :
  returns_only P (rethrow_denied message code err).
Proof. intros this a this'. rewrite rethrow_denied_remapped. discriminate. Qed.

Lemma fulfils_with_await {A} (P : A -> Prop) c (k : JSValue -> M A) :
  (forall res, returns_only P (k res)) -> fulfils_with P (await c k).
Proof.
  intros Hk [res|err]; [apply Hk | apply returns_only_throw].
Qed.

Lemma fulfils_with_await_catch {A} (P : A -> Prop) c (k : JSValue -> M A) handler :
  (forall res, returns_only P (k res)) ->
  (forall err, returns_only P (handler err)) ->
  fulfils_with P (await_catch c k handler).
Proof.
  intros Hk Hh [res|err]; [apply Hk | apply Hh].
Qed.

Lemma fulfils_with_async {A} (P : A -> Prop) (body : M (Promise A)) this :
  returns_only (fulfils_with P) body -> fulfils_with P (fst (async body this)).
Proof.
  intros Hbody. unfold async.
  destruct (body this) as [[p|e] this'] eqn:Hrun; cbn; [|exact I].
  exact (Hbody _ _ _ Hrun).
Qed.

Lemma fulfils_with_then {A B} (P : B -> Prop) (p : Promise A) (f : A -> B) :
  (forall a, P (f a)) -> fulfils_with P (then_ p f).
Proof.
  intros Hf. destruct p as [[a|e]|c k]; cbn; [apply Hf | exact I |].
  intros completion this b this'.
  destruct (k completion this) as [[a|e] this1]; cbn; [|discriminate].
  intros [= <- _]. apply Hf.
Qed.

Lemma returns_only_call_async {A} (P : A -> Prop) (f : Async A) :
  (forall this, fulfils_with P (fst (f this))) ->
  returns_only (fulfils_with P) (call_async f).
Proof.
  intros Hf this p this'. unfold call_async. specialize (Hf this).
  destruct (f this) as [p' this1]. intros [= <- _]. exact Hf.
Qed.

Lemma assoc_get_set (k : string) (v : JSValue) (ps : list (string * JSValue)) :
  assoc_get k (assoc_set k v ps) = v.
Proof.
  induction ps as [|[k' v'] ps IH]; cbn.
  - now rewrite String.eqb_refl.
  - destruct (String.eqb k k') eqn:Hk; cbn; now rewrite Hk.
Qed.

Lemma with_id_id (res : JSONRPCResponse) (i : Z) :
  get_prop (with_id res i) "id" = JNum i.
Proof. apply assoc_get_set. Qed.

Ltac id_0 :=
  unfold built_with_id_0;
  repeat first
    [ apply fulfils_with_async
    | apply returns_only_bind; intros
    | apply returns_only_ret
    | apply fulfils_with_await_catch; intros
    | apply fulfils_with_await; intros
    | apply returns_only_rethrow_denied
    | apply returns_only_throw
    | reflexivity ].

Lemma _eth_requestAccounts_id_0 this : built_with_id_0 (fst (_eth_requestAccounts this)).
Proof.
  unfold _eth_requestAccounts, built_with_id_0.
  apply fulfils_with_async, returns_only_bind. intros this0.
  destruct (0 <? length (_addresses this0))%nat; [now apply returns_only_ret|].
  apply returns_only_bind. intros _. apply returns_only_ret.
  intros completion. apply returns_only_bind. intros res.
  destruct (negb (truthy (get_prop res "result"))); [apply returns_only_throw|].
  id_0.
Qed.

Lemma _handleAsynchronousMethods_relay_id_0 request this :
  In (method request) relay_table ->
  built_with_id_0 (fst (_handleAsynchronousMethods request this)).
Proof.
  unfold relay_table. cbn [In].
  intros [Hm | [Hm | [Hm | [Hm | [Hm | [Hm | [Hm | [Hm | []]]]]]]]];
    unfold _handleAsynchronousMethods; rewrite <- Hm; eval_eqb.
  - apply _eth_requestAccounts_id_0.
  - unfold _eth_sign. id_0.
  - unfold _eth_ecRecover. id_0.
  - unfold _personal_sign. id_0.
  - unfold _personal_ecRecover. id_0.
  - unfold _eth_signTransaction. id_0.
  - unfold _eth_sendRawTransaction. id_0.
  - unfold _eth_sendTransaction. id_0.
Qed.

Lemma _sendRequestAsync_id request this :
  fulfils_with (fun res => get_prop res "id" = JNum (id request))
               (fst (_sendRequestAsync request this)).
Proof.
  unfold _sendRequestAsync.
  apply fulfils_with_async, returns_only_bind. intros syncResult.
  destruct (is_defined syncResult).
  - now apply returns_only_ret.
  - apply returns_only_bind. intros [filterPromise|].
    + apply returns_only_ret, fulfils_with_then. intros res. apply with_id_id.
    + apply returns_only_bind. intros p.
      apply returns_only_ret, fulfils_with_then. intros res. apply with_id_id.
Qed.

(** C9. Whatever the method and whichever path handles it, a response that
    [_sendRequestAsync] fulfils with, at once or after the collaborator call
    completes, has the request's id, and so has the response handed to the
    callback of [sendAsync]; yet the relay handlers and the three
    filter-creating handlers build their own responses with id 0. *)
Theorem C9_response_carries_request_id request this :
  fulfils_with (fun res => get_prop res "id" = JNum (id request))
               (fst (_sendRequestAsync request this)) /\
  (forall callback completion,
     Forall (fun invocation =>
               forall res, snd invocation = Some res ->
                           get_prop res "id" = JNum (id request))
            (fst (sendAsync_single request callback completion this))) /\
  (In (method request) relay_table ->
   built_with_id_0 (fst (_handleAsynchronousMethods request this))) /\
  (forall params,
     built_with_id_0 (fst (_eth_newFilter params this)) /\
     built_with_id_0 (fst (_eth_newBlockFilter this)) /\
     built_with_id_0 (fst (_eth_newPendingTransactionFilter this))).
Proof.
  split; [apply _sendRequestAsync_id|]. split; [|split].
  - intros callback completion. unfold sendAsync_single.
    pose proof (_sendRequestAsync_id request this) as Hid.
    destruct (_sendRequestAsync request this) as [p this1]. cbn [fst] in Hid.
    assert (Hsettled : forall res this2,
               settle p completion this1 = (Some (Normal res), this2) ->
               get_prop res "id" = JNum (id request)).
    { intros res this2. unfold settle.
      destruct p as [o|c k]; [intros [= ->]; exact Hid|].
      destruct completion as [o|]; [|discriminate].
      destruct (k o this1) as [r this3] eqn:Hk. intros [= -> _].
      exact (Hid _ _ _ _ Hk). }
    destruct (settle p completion this1) as [[[res|e]|] this2]; cbn.
    + specialize (Hsettled res this2 eq_refl).
      destruct (callback None (Some res)); repeat constructor;
        cbn; intros ? [= <-] || discriminate; assumption.
    + repeat constructor. discriminate.
    + constructor.
  - apply _handleAsynchronousMethods_relay_id_0.
  - intros params. repeat split.
    + unfold _eth_newFilter. id_0.
    + unfold _eth_newBlockFilter. id_0.
    + unfold _eth_newPendingTransactionFilter. id_0.
Qed.

(** *** Batches *)

Lemma complete_settled {A} (c : Completion) (ps : list (Promise (Window := Window) A)) this j o :
  ps !! j = Some (Settled o) ->
  fst (complete c ps this) !! j = Some (Settled o).
Proof.
  intros Hj. unfold complete.
  destruct (ps !! c.1) as [[o'|call k]|] eqn:Hi; cbn; try assumption.
  destruct (k c.2 this) as [r this']. cbn.
  rewrite list_lookup_insert_ne; [assumption|]. intros Heq. congruence.
Qed.

(** A settled promise stays as it is. *)
Lemma run_completions_settled {A} sched (ps : list (Promise (Window := Window) A)) this j o :
  ps !! j = Some (Settled o) ->
  fst (run_completions sched ps this) !! j = Some (Settled o).
Proof.
  revert ps this. induction sched as [|c sched IH]; intros ps this Hj; cbn.
  - assumption.
  - pose proof (complete_settled c ps this j o Hj) as Hstep.
    destruct (complete c ps this) as [ps' this']. now apply IH.
Qed.

Lemma complete_length {A} (c : Completion) (ps : list (Promise (Window := Window) A)) this :
  length (fst (complete c ps this)) = length ps.
Proof.
  unfold complete.
  destruct (ps !! c.1) as [[o'|call k]|] eqn:Hi; cbn; try reflexivity.
  destruct (k c.2 this) as [r this']. cbn. apply length_insert.
Qed.

(** The promise of a turn is settled once the turn has been taken. *)
Lemma complete_turn {A} (c : Completion) (ps : list (Promise (Window := Window) A)) this :
  (fst c < length ps)%nat ->
  exists o, fst (complete c ps this) !! fst c = Some (Settled o).
Proof.
  intros Hlt. unfold complete.
  destruct (lookup_lt_is_Some_2 ps (fst c) Hlt) as [p Hp]. rewrite Hp.
  destruct p as [o|call k]; cbn; [now exists o|].
  destruct (k c.2 this) as [r this']. cbn. exists r.
  now apply list_lookup_insert_eq.
Qed.

Lemma run_completions_length {A} sched (ps : list (Promise (Window := Window) A)) this :
  length (fst (run_completions sched ps this)) = length ps.
Proof.
  revert ps this. induction sched as [|c sched IH]; intros ps this; cbn; [reflexivity|].
  pose proof (complete_length c ps this) as Hstep.
  destruct (complete c ps this) as [ps' this']. cbn in Hstep. now rewrite IH.
Qed.

Lemma run_completions_turn {A} sched (ps : list (Promise (Window := Window) A)) this i :
  In i (map fst sched) -> (i < length ps)%nat ->
  exists o, fst (run_completions sched ps this) !! i = Some (Settled o).
Proof.
  revert ps this. induction sched as [|c sched IH]; intros ps this; cbn; [contradiction|].
  intros [<- | Hin] Hlt.
  - destruct (complete_turn c ps this Hlt) as [o Ho].
    destruct (complete c ps this) as [ps' this']. cbn in Ho.
    exists o. now apply run_completions_settled.
  - pose proof (complete_length c ps this) as Hlen.
    destruct (complete c ps this) as [ps' this']. cbn in Hlen.
    apply IH; [assumption | now rewrite Hlen].
Qed.

Lemma rejection_of_Some {A} (ps : list (Promise (Window := Window) A)) i e :
  rejection_of ps i = Some e <-> ps !! i = Some (Settled (Throw e)).
Proof.
  unfold rejection_of. destruct (ps !! i) as [[[a|e']|call k]|]; split; congruence.
Qed.

Lemma rejection_of_settled {A} sched (ps : list (Promise (Window := Window) A)) this j o :
  ps !! j = Some (Settled o) ->
  rejection_of (fst (run_completions sched ps this)) j = rejection_of ps j.
Proof.
  intros Hj. unfold rejection_of.
  now rewrite (run_completions_settled sched ps this j o Hj), Hj.
Qed.

Lemma first_rejection_app {A} (ps : list (Promise (Window := Window) A)) order1 order2 :
  first_rejection ps (order1 ++ order2) =
    match first_rejection ps order1 with
    | Some e => Some e
    | None => first_rejection ps order2
    end.
Proof.
  induction order1 as [|i order1 IH]; cbn; [reflexivity|].
  now destruct (rejection_of ps i).
Qed.

Lemma first_rejection_ext {A} (ps ps' : list (Promise (Window := Window) A)) order :
  (forall j, In j order -> rejection_of ps j = rejection_of ps' j) ->
  first_rejection ps order = first_rejection ps' order.
Proof.
  induction order as [|i order IH]; intros Hsame; cbn; [reflexivity|].
  rewrite (Hsame i) by now left. rewrite IH; [reflexivity|].
  intros j Hj. apply Hsame. now right.
Qed.

Lemma first_rejection_None {A} (ps : list (Promise (Window := Window) A)) order :
  first_rejection ps order = None <-> forall j, In j order -> rejection_of ps j = None.
Proof.
  induction order as [|i order IH]; cbn; [tauto|].
  destruct (rejection_of ps i) as [e|] eqn:Hi.
  - split; [discriminate|]. intros Hall. rewrite <- Hi. apply Hall. now left.
  - rewrite IH. split.
    + intros Hall j [<- | Hj]; [assumption | now apply Hall].
    + intros Hall j Hj. apply Hall. now right.
Qed.

(** The first rejection is the rejection of the first promise, in the
    order, that has rejected. *)
Lemma first_rejection_first {A} (ps : list (Promise (Window := Window) A)) pre i post e :
  ps !! i = Some (Settled (Throw e)) ->
  (forall j e', In j pre -> ps !! j <> Some (Settled (Throw e'))) ->
  first_rejection ps (pre ++ i :: post) = Some e.
Proof.
  intros Hi Hpre. rewrite first_rejection_app.
  assert (Hnone : first_rejection ps pre = None).
  { apply first_rejection_None. intros j Hj.
    destruct (rejection_of ps j) as [e'|] eqn:Hrej; [|reflexivity].
    apply rejection_of_Some in Hrej. now destruct (Hpre j e' Hj). }
  rewrite Hnone. cbn. now rewrite (proj2 (rejection_of_Some ps i e) Hi).
Qed.

Lemma first_rejection_Some {A} (ps : list (Promise (Window := Window) A)) order e :
  first_rejection ps order = Some e ->
  exists pre i post,
    order = pre ++ i :: post /\
    ps !! i = Some (Settled (Throw e)) /\
    forall j e', In j pre -> ps !! j <> Some (Settled (Throw e')).
Proof.
  induction order as [|i order IH]; cbn; [discriminate|].
  destruct (rejection_of ps i) as [e'|] eqn:Hi.
  - intros [= ->]. exists [], i, order. split; [reflexivity|].
    split; [now apply rejection_of_Some | contradiction].
  - intros Hrest. destruct (IH Hrest) as (pre & i' & post & -> & Hi' & Hpre).
    exists (i :: pre), i', post. split; [reflexivity|]. split; [assumption|].
    intros j e' [<- | Hj]; [|now apply Hpre].
    intros Hrej. apply rejection_of_Some in Hrej. congruence.
Qed.

Lemma in_marked (known : list bool) j :
  In j (marked known) <-> known !! j = Some true.
Proof.
  unfold marked. rewrite filter_In, in_seq. split.
  - intros [_ Hj]. destruct (known !! j) as [[|]|]; cbn in Hj; congruence.
  - intros Hj. split; [|now rewrite Hj].
    apply lookup_lt_Some in Hj. lia.
Qed.

(** Among the promises marked in [known], the first rejection is that of the
    first one, in the order of the batch, that has rejected. *)
Lemma first_rejection_marked {A} (ps : list (Promise (Window := Window) A)) known i e :
  known !! i = Some true ->
  ps !! i = Some (Settled (Throw e)) ->
  (forall j e', (j < i)%nat -> known !! j = Some true ->
                ps !! j <> Some (Settled (Throw e'))) ->
  first_rejection ps (marked known) = Some e.
Proof.
  intros Hknown Hi Hfirst. unfold marked.
  assert (Hlt : (i < length known)%nat) by now apply lookup_lt_Some in Hknown.
  replace (length known) with (i + S (length known - S i))%nat by lia.
  rewrite seq_app, List.filter_app. cbn [seq List.filter].
  rewrite Nat.add_0_l, Hknown. cbn [default].
  apply first_rejection_first; [assumption|].
  intros j e' Hj. apply filter_In in Hj as [Hj Hmark]. apply in_seq in Hj.
  apply Hfirst; [lia|]. destruct (known !! j) as [[|]|]; cbn in Hmark; congruence.
Qed.

Lemma all_fulfilled_Some {A} (ps : list (Promise (Window := Window) A)) vs :
  all_fulfilled ps = Some vs <-> ps = fulfilled vs.
Proof.
  revert vs. induction ps as [|p ps IH]; intros vs; cbn.
  - split; [intros [= <-]; reflexivity | now destruct vs].
  - destruct p as [[a|e]|call k]; try (split; [discriminate | now destruct vs]).
    destruct (all_fulfilled ps) as [l|].
    + split.
      * intros [= <-]. cbn. f_equal. now apply IH.
      * destruct vs as [|v vs]; [discriminate|]. intros [= -> Hps].
        apply IH in Hps. now injection Hps as ->.
    + split; [discriminate|]. destruct vs as [|v vs]; [discriminate|].
      intros [= -> Hps]. apply IH in Hps. discriminate.
Qed.

Lemma all_fulfilled_fulfilled {A} (vs : list A) :
  all_fulfilled (fulfilled vs) = Some vs.
Proof. now apply all_fulfilled_Some. Qed.

Lemma rejection_of_fulfilled {A} (vs : list A) j :
  rejection_of (fulfilled vs) j = None.
Proof.
  unfold rejection_of, fulfilled. rewrite list_lookup_fmap.
  now destruct (vs !! j).
Qed.

Lemma first_rejection_fulfilled {A} (vs : list A) order :
  first_rejection (fulfilled vs) order = None.
Proof. apply first_rejection_None. intros j _. apply rejection_of_fulfilled. Qed.

(** Promises that have all settled, none with a rejection, have all
    fulfilled. *)
Lemma settled_without_rejection {A} (ps : list (Promise (Window := Window) A)) :
  (forall i, (i < length ps)%nat -> exists o, ps !! i = Some (Settled o)) ->
  (forall i, rejection_of ps i = None) ->
  exists vs, ps = fulfilled vs.
Proof.
  induction ps as [|p ps IH]; intros Hsettled Hnone; [now exists []|].
  destruct (Hsettled 0%nat ltac:(cbn; lia)) as [o Ho]. cbn in Ho. injection Ho as ->.
  destruct o as [a|e]; [|specialize (Hnone 0%nat); discriminate].
  destruct IH as [vs ->].
  - intros i Hi. apply (Hsettled (S i)). cbn. lia.
  - intros i. apply (Hnone (S i)).
  - now exists (a :: vs).
Qed.

Lemma complete_fulfilled {A} (c : Completion) (vs : list A) this :
  complete c (fulfilled vs) this = (fulfilled vs, this).
Proof.
  unfold complete, fulfilled. rewrite list_lookup_fmap.
  now destruct (vs !! c.1).
Qed.

Lemma run_completions_fulfilled {A} sched (vs : list A) this :
  fst (run_completions sched (fulfilled vs) this) = fulfilled vs.
Proof.
  revert this. induction sched as [|c sched IH]; intros this; cbn; [reflexivity|].
  rewrite complete_fulfilled. apply IH.
Qed.

Lemma told_all_In (told : list nat) (n : nat) :
  told_all told n = true <-> forall i, (i < n)%nat -> In i told.
Proof.
  unfold told_all. rewrite forallb_forall. split.
  - intros Hall i Hi.
    assert (Hseq : In i (seq 0 n)) by (apply in_seq; lia).
    apply Hall, existsb_exists in Hseq as (j & Hj & Heq).
    apply Nat.eqb_eq in Heq. now subst.
  - intros Hall i Hi. apply in_seq in Hi. apply existsb_exists.
    exists i. split; [apply Hall; lia | apply Nat.eqb_refl].
Qed.

(** What [Promise.all] answers, read off the promises as they are after the
    turns and off the order in which it is told of them. *)
Lemma Promise_all_spec {A} (told : list nat) (ps : list (Promise (Window := Window) A))
      sched this :
  (forall j, In j told -> (j < length ps)%nat -> exists o, ps !! j = Some (Settled o)) ->
  Promise_all told ps sched this =
    match first_rejection (fst (run_completions sched ps this))
                          (told ++ map fst sched) with
    | Some e => Some (Throw e)
    | None =>
        if told_all (told ++ map fst sched) (length ps)
        then option_map Normal (all_fulfilled (fst (run_completions sched ps this)))
        else None
    end.
Proof.
  revert told ps this. induction sched as [|c sched IH]; intros told ps this Htold.
  - cbn. now rewrite app_nil_r.
  - assert (Hsame : first_rejection (fst (run_completions (c :: sched) ps this)) told =
                    first_rejection ps told).
    { apply first_rejection_ext. intros j Hj.
      destruct (decide (j < length ps)%nat) as [Hlt|Hge].
      - destruct (Htold j Hj Hlt) as [o Ho]. exact (rejection_of_settled _ _ _ _ _ Ho).
      - unfold rejection_of.
        rewrite !lookup_ge_None_2; [reflexivity | lia | rewrite run_completions_length; lia]. }
    cbn [Promise_all].
    destruct (first_rejection ps told) as [e|] eqn:Hrej.
    + rewrite first_rejection_app, Hsame, ?Hrej. reflexivity.
    + destruct (told_all told (length ps)) eqn:Hall.
      * assert (Hps : exists vs, ps = fulfilled vs).
        { apply settled_without_rejection.
          - intros i Hi. apply Htold; [|assumption].
            now apply (proj1 (told_all_In _ _) Hall).
          - intros i. destruct (rejection_of ps i) as [e|] eqn:Hi; [|reflexivity].
            assert (Hlt : (i < length ps)%nat)
              by now apply rejection_of_Some, lookup_lt_Some in Hi.
            pose proof (proj1 (told_all_In _ _) Hall i Hlt) as Hin.
            now rewrite (proj1 (first_rejection_None ps told) Hrej i Hin) in Hi. }
        destruct Hps as [vs ->].
        rewrite run_completions_fulfilled, first_rejection_fulfilled.
        assert (Hmore : told_all (told ++ map fst (c :: sched)) (length (fulfilled vs)) = true).
        { apply told_all_In. intros i Hi. apply in_or_app. left.
          now apply (proj1 (told_all_In _ _) Hall). }
        now rewrite Hmore.
      * cbn [run_completions map].
        pose proof (complete_length c ps this) as Hlen'.
        pose proof (complete_turn c ps this) as Hturn.
        pose proof (fun j o => complete_settled c ps this j o) as Hkeep.
        destruct (complete c ps this) as [ps' this']. cbn [fst] in *.
        rewrite IH.
        -- rewrite <- app_assoc. cbn [app]. now rewrite Hlen'.
        -- intros j Hj Hlt. rewrite Hlen' in Hlt.
           apply in_app_or in Hj as [Hj | [<- | []]].
           ++ destruct (Htold j Hj Hlt) as [o Ho]. exists o. now apply Hkeep.
           ++ now apply Hturn.
Qed.

(** The promises [Promise.all] is told of at once are settled. *)
Lemma told_at_once_settled {A} (known : list bool)
      (ps : list (Promise (Window := Window) A)) sched j :
  (forall i, known !! i = Some true -> exists o, ps !! i = Some (Settled o)) ->
  In j (told_at_once known ps sched) ->
  exists o, ps !! j = Some (Settled o).
Proof.
  intros Hknown Hj. unfold told_at_once in Hj. apply in_app_or in Hj as [Hj | Hj].
  - apply Hknown. now apply in_marked.
  - apply filter_In in Hj as [_ Hj].
    apply andb_true_iff in Hj as [Hj _]. apply andb_true_iff in Hj as [_ Hj].
    destruct (ps !! j) as [[o|call k]|]; try discriminate. now exists o.
Qed.

(** Properties of what each promise fulfils with survive the event loop. *)
Lemma complete_fulfils_with {A X} (P : X -> A -> Prop) (xs : list X)
      (c : Completion) (ps : list (Promise (Window := Window) A)) this :
  Forall2 (fun x p => fulfils_with (P x) p) xs ps ->
  Forall2 (fun x p => fulfils_with (P x) p) xs (fst (complete c ps this)).
Proof.
  intros Hall. unfold complete.
  destruct (ps !! c.1) as [[o'|call k]|] eqn:Hi; cbn; try assumption.
  destruct (k c.2 this) as [r this'] eqn:Hk. cbn.
  destruct (Forall2_lookup_r _ _ _ _ _ Hall Hi) as (x & Hx & Hp).
  rewrite <- (list_insert_id xs c.1 x Hx).
  apply Forall2_insert; [assumption|].
  destruct r as [a|e]; cbn; [|exact I]. exact (Hp _ _ _ _ Hk).
Qed.

Lemma run_completions_fulfils_with {A X} (P : X -> A -> Prop) (xs : list X)
      sched (ps : list (Promise (Window := Window) A)) this :
  Forall2 (fun x p => fulfils_with (P x) p) xs ps ->
  Forall2 (fun x p => fulfils_with (P x) p) xs (fst (run_completions sched ps this)).
Proof.
  revert ps this. induction sched as [|c sched IH]; intros ps this Hall; cbn.
  - assumption.
  - pose proof (complete_fulfils_with P xs c ps this Hall) as Hstep.
    destruct (complete c ps this) as [ps' this']. now apply IH.
Qed.

Lemma _sendMultipleRequestsAsync_ids requests this :
  Forall2 (fun request p =>
             fulfils_with (fun res => get_prop res "id" = JNum (id request)) p)
          requests (fst (_sendMultipleRequestsAsync requests this)).
Proof.
  unfold _sendMultipleRequestsAsync. revert this.
  induction requests as [|r requests IH]; intros this; cbn; [constructor|].
  pose proof (_sendRequestAsync_id r this) as Hr.
  destruct (_sendRequestAsync r this) as [p this1].
  specialize (IH this1). destruct (map_async _ requests this1) as [ps this2].
  now constructor.
Qed.

(** A promise settled by its executor is settled when [_sendRequestAsync]
    returns it. *)
Lemma settled_by_executor_Settled request this :
  settled_by_executor request this = true ->
  exists o, fst (_sendRequestAsync request this) = Settled o.
Proof.
  unfold settled_by_executor, _sendRequestAsync, async, bind.
  destruct (_handleSynchronousMethods request this) as [[syncResult|e] this1];
    [|intros _; now eexists].
  destruct (is_defined syncResult); [intros _; now eexists|].
  destruct (_handleAsynchronousFilterMethods request this1) as [[filterPromise|e] this2];
    [discriminate | intros _; now eexists].
Qed.

Lemma settled_by_executors_Settled requests this :
  length (settled_by_executors requests this) =
    length (fst (_sendMultipleRequestsAsync requests this)) /\
  forall j,
    settled_by_executors requests this !! j = Some true ->
    exists o, fst (_sendMultipleRequestsAsync requests this) !! j = Some (Settled o).
Proof.
  unfold _sendMultipleRequestsAsync. revert this.
  induction requests as [|r requests IH]; intros this; cbn [settled_by_executors map_async].
  - split; [reflexivity | intros j; discriminate].
  - pose proof (settled_by_executor_Settled r this) as Hr.
    destruct (_sendRequestAsync r this) as [p this1]. cbn [fst snd] in *.
    destruct (IH this1) as [Hlen Hall].
    destruct (map_async _sendRequestAsync requests this1) as [ps this2]. cbn [fst] in *.
    split; [cbn; now rewrite Hlen|].
    intros [|j]; cbn.
    + intros [= Hflag]. destruct (Hr Hflag) as [o ->]. now exists o.
    + apply Hall.
Qed.

Lemma _sendMultipleRequestsAsync_length requests this :
  length (fst (_sendMultipleRequestsAsync requests this)) = length requests.
Proof.
  unfold _sendMultipleRequestsAsync. revert this.
  induction requests as [|r requests IH]; intros this; cbn; [reflexivity|].
  destruct (_sendRequestAsync r this) as [p this1].
  specialize (IH this1). destruct (map_async _ requests this1) as [ps this2].
  cbn in *. now rewrite IH.
Qed.

(** C7. A batch sent through [sendAsync(requests, callback)], after any turns
    of the event loop.  [Promise.all] is told of the settlements in this
    order: the promises settled by their executor, in the order of the batch,
    then the promises whose handler had settled its promise at once (unless
    they are given a turn of their own), in the order of the batch, then the
    others, turn by turn.  If the callback is called with a result list, then
    by then every element has settled and fulfilled, the list holds their
    responses in the order of the requests, and each response has its
    request's id; once every element has settled, all of them fulfilled, the
    callback is called with that list (first of all).  If an element has
    rejected, the callback is called exactly once, with a null result list and
    the error of the first element, in the order of settlement, that
    rejected; a rejection by an executor thus comes before any other, and the
    first of these in the batch before the others.  While no rejection is
    known and some element has yet to settle, the callback is not called, and
    once every element has settled it has been called. *)
Theorem C7_batch_callback requests callback sched this :
  let ps := fst (_sendMultipleRequestsAsync requests this) in
  let this1 := snd (_sendMultipleRequestsAsync requests this) in
  let final := fst (run_completions sched ps this1) in
  let known := settled_by_executors requests this in
  let order := settlement_order known ps sched in
  let all_settled := forall i, (i < length requests)%nat -> In i order in
  let invocations := fst (sendAsync_batch requests callback sched this) in
  (forall err responses,
     In (err, Some responses) invocations ->
     err = None /\
     all_settled /\
     final = fulfilled responses /\
     Forall2 (fun request res => get_prop res "id" = JNum (id request))
             requests responses) /\
  (forall responses,
     all_settled ->
     final = fulfilled responses ->
     exists more, invocations = (None, Some responses) :: more) /\
  (forall pre i post e,
     order = pre ++ i :: post ->
     final !! i = Some (Settled (Throw e)) ->
     (forall j e', In j pre -> final !! j <> Some (Settled (Throw e'))) ->
     invocations = [(Some e, None)]) /\
  (forall i e,
     known !! i = Some true ->
     ps !! i = Some (Settled (Throw e)) ->
     (forall j e', (j < i)%nat -> known !! j = Some true ->
                   ps !! j <> Some (Settled (Throw e'))) ->
     invocations = [(Some e, None)]) /\
  ((forall i e, In i order -> final !! i <> Some (Settled (Throw e))) ->
   ~ all_settled ->
   invocations = []) /\
  (all_settled -> invocations <> []).
Proof.
  cbn zeta. unfold sendAsync_batch.
  pose proof (_sendMultipleRequestsAsync_ids requests this) as Hids.
  pose proof (_sendMultipleRequestsAsync_length requests this) as Hlength.
  destruct (settled_by_executors_Settled requests this) as [Hlen Hknown].
  destruct (_sendMultipleRequestsAsync requests this) as [ps this1].
  cbn [fst snd] in *.
  set (known := settled_by_executors requests this) in *.
  assert (Hsettled : forall j, In j (told_at_once known ps sched) ->
                               exists o, ps !! j = Some (Settled o)).
  { intros j. now apply told_at_once_settled. }
  rewrite (Promise_all_spec _ _ sched this1 (fun j Hj _ => Hsettled j Hj)).
  fold (settlement_order known ps sched). rewrite Hlength.
  set (order := settlement_order known ps sched).
  set (final := fst (run_completions sched ps this1)).
  pose proof (told_all_In order (length requests)) as Hall_iff.
  split; [|split; [|split; [|split; [|split]]]].
  - intros err responses Hin.
    destruct (first_rejection final order) as [e|] eqn:Hrej;
      [cbn in Hin; intuition discriminate|].
    destruct (told_all order (length requests)) eqn:Htold; [|contradiction].
    destruct (all_fulfilled final) as [vs|] eqn:Hful; [|contradiction].
    cbn in Hin.
    assert (Hvs : vs = responses /\ err = None).
    { destruct (callback None (Some vs)); cbn in Hin.
      - destruct Hin as [[= <- <-] | []]. now split.
      - destruct Hin as [[= <- <-] | [[=] | []]]. now split. }
    destruct Hvs as [-> ->]. apply all_fulfilled_Some in Hful.
    split; [reflexivity|]. split; [now apply Hall_iff|]. split; [assumption|].
    pose proof (run_completions_fulfils_with _ _ sched _ this1 Hids) as Hfinal.
    unfold final, JSONRPCResponse in *. rewrite Hful in Hfinal.
    unfold fulfilled in Hfinal. apply Forall2_fmap_r in Hfinal. exact Hfinal.
  - intros responses Hall Hfinal. rewrite Hfinal, first_rejection_fulfilled.
    rewrite (proj2 Hall_iff Hall), all_fulfilled_fulfilled. cbn.
    destruct (callback None (Some responses)); eexists; reflexivity.
  - intros pre i post e Horder Hi Hpre.
    now rewrite Horder, (first_rejection_first final pre i post e Hi Hpre).
  - intros i e Hmark Hi Hfirst.
    assert (Hfirst_final : first_rejection final (marked known) = Some e).
    { rewrite (first_rejection_ext final ps).
      - now apply (first_rejection_marked _ _ i).
      - intros j Hj. apply in_marked in Hj. destruct (Hknown j Hj) as [o Ho].
        exact (rejection_of_settled _ _ _ _ _ Ho). }
    unfold order, settlement_order, told_at_once.
    now rewrite !first_rejection_app, Hfirst_final.
  - intros Hnone Hnot.
    assert (Hrej : first_rejection final order = None).
    { apply first_rejection_None. intros j Hj.
      destruct (rejection_of final j) as [e|] eqn:Hrej; [|reflexivity].
      apply rejection_of_Some in Hrej. now destruct (Hnone j e Hj). }
    rewrite Hrej. destruct (told_all order (length requests)) eqn:Htold; [|reflexivity].
    destruct Hnot. now apply Hall_iff.
  - intros Hall.
    destruct (first_rejection final order) as [e|] eqn:Hrej; [discriminate|].
    rewrite (proj2 Hall_iff Hall).
    assert (Hful : exists vs, final = fulfilled vs).
    { apply settled_without_rejection.
      - intros i Hi. unfold final in *. rewrite run_completions_length, Hlength in Hi.
        specialize (Hall i Hi). unfold order, settlement_order in Hall.
        apply in_app_or in Hall as [Hnow | Hturn].
        + destruct (Hsettled i Hnow) as [o Ho].
          exists o. now apply run_completions_settled.
        + apply run_completions_turn; [assumption | now rewrite Hlength].
      - intros i. destruct (rejection_of final i) as [e|] eqn:Hi; [|reflexivity].
        assert (Hlt : (i < length requests)%nat).
        { apply rejection_of_Some, lookup_lt_Some in Hi. unfold final in Hi.
          now rewrite run_completions_length, Hlength in Hi. }
        now rewrite (proj1 (first_rejection_None _ _) Hrej i (Hall i Hlt)) in Hi. }
    destruct Hful as [vs ->]. rewrite all_fulfilled_fulfilled. cbn.
    now destruct (callback None (Some vs)).
Qed.

(** ** Further properties of the provider *)

Lemma with_id_response (result : JSValue) (i j : Z) :
  with_id (response j result) i = response i result.
Proof. reflexivity. Qed.

Lemma _requireAuthorization_empty this :
  _addresses this = [] -> _requireAuthorization this = (Throw Unauthorized, this).
Proof.
  intros Hempty. unfold _requireAuthorization, bind, get, throw. now rewrite Hempty.
Qed.

Lemma requires_authorization_denial_capable (m : string) :
  In m requires_authorization -> In m denial_capable.
Proof.
  unfold requires_authorization, denial_capable. cbn [In]. tauto.
Qed.

(** X1. While no address is authorised, [eth_sign], [personal_sign],
    [eth_signTransaction] and [eth_sendTransaction] reject at once with the
    [ProviderError] "Unauthorized", whatever their parameters: nothing is
    validated, the relay is not called and the provider is unchanged. *)
Theorem X1_signing_requires_authorization request this :
  In (method request) requires_authorization ->
  _addresses this = [] ->
  _sendRequestAsync request this = (Settled (Throw Unauthorized), this).
Proof.
  intros Hin Hempty.
  rewrite _sendRequestAsync_asynchronous.
  - unfold requires_authorization in Hin. cbn [In] in Hin.
    destruct Hin as [Hm | [Hm | [Hm | [Hm | []]]]];
      unfold _handleAsynchronousMethods; rewrite <- Hm; eval_eqb;
      unfold _eth_sign, _personal_sign, _eth_signTransaction, _eth_sendTransaction,
        async, bind;
      now rewrite (_requireAuthorization_empty _ Hempty).
  - apply denial_capable_tables, requires_authorization_denial_capable, Hin.
  - apply denial_capable_tables, requires_authorization_denial_capable, Hin.
Qed.

(** X2. [eth_ecRecover], [personal_ecRecover] and [eth_sendRawTransaction]
    need no authorised address: once their buffers validate they wait for the
    relay ([personal_ecRecover] with the prefix flag set, the raw transaction
    with the provider's chain id), leave the provider unchanged, answer with
    the relay's [result] under the request's id, and pass a rejection of the
    relay on as it is, a denial included. *)
Theorem X2_recovery_and_raw_send_are_open (i : Z) (ps : option (list JSValue)) this :
  (forall message signature,
     ensureBuffer (nth_param 0 (default [] ps)) = Normal message ->
     ensureBuffer (nth_param 1 (default [] ps)) = Normal signature ->
     (exists k,
        _sendRequestAsync (mkRequest i JSONRPCMethod.eth_ecRecover ps) this =
          (Pending (ethereumAddressFromSignedMessage message signature false) k, this) /\
        (forall res this', k (Normal res) this' =
                           (Normal (response i (get_prop res "result")), this')) /\
        (forall err this', k (Throw err) this' = (Throw err, this'))) /\
     (exists k,
        _sendRequestAsync (mkRequest i JSONRPCMethod.personal_ecRecover ps) this =
          (Pending (ethereumAddressFromSignedMessage message signature true) k, this) /\
        (forall res this', k (Normal res) this' =
                           (Normal (response i (get_prop res "result")), this')) /\
        (forall err this', k (Throw err) this' = (Throw err, this')))) /\
  (forall signedTransaction,
     ensureBuffer (nth_param 0 (default [] ps)) = Normal signedTransaction ->
     exists k,
       _sendRequestAsync (mkRequest i JSONRPCMethod.eth_sendRawTransaction ps) this =
         (Pending (submitEthereumTransaction signedTransaction (_chainId this)) k, this) /\
       (forall res this', k (Normal res) this' =
                          (Normal (response i (get_prop res "result")), this')) /\
       (forall err this', k (Throw err) this' = (Throw err, this'))).
Proof.
  split.
  - intros message signature Hm Hs. split; to_relay_handler.
    + unfold _eth_ecRecover, async, bind, lift, ret. rewrite Hm, Hs. cbn.
      eexists. split; [reflexivity|]. split; reflexivity.
    + unfold _personal_ecRecover, async, bind, lift, ret. rewrite Hm, Hs. cbn.
      eexists. split; [reflexivity|]. split; reflexivity.
  - intros signedTransaction Hb. to_relay_handler.
    unfold _eth_sendRawTransaction, async, bind, lift, get, ret. rewrite Hb. cbn.
    eexists. split; [reflexivity|]. split; reflexivity.
Qed.

(** X3. On an authorised provider [eth_sign] reads the address from the
    first parameter and the message from the second and signs without the
    prefix, while [personal_sign] reads the message first and the address
    second and signs with the prefix; the address is validated but not looked
    up among the authorised addresses, and the relay's [result] comes back
    under the request's id. *)
Theorem X3_sign_parameter_order (i : Z) (ps : option (list JSValue)) this :
  _addresses this <> [] ->
  (forall message address,
     ensureBuffer (nth_param 1 (default [] ps)) = Normal message ->
     ensureAddressString (nth_param 0 (default [] ps)) = Normal address ->
     exists k,
       _sendRequestAsync (mkRequest i JSONRPCMethod.eth_sign ps) this =
         (Pending (signEthereumMessage message address false) k, this) /\
       forall res this', k (Normal res) this' =
                         (Normal (response i (get_prop res "result")), this')) /\
  (forall message address,
     ensureBuffer (nth_param 0 (default [] ps)) = Normal message ->
     ensureAddressString (nth_param 1 (default [] ps)) = Normal address ->
     exists k,
       _sendRequestAsync (mkRequest i JSONRPCMethod.personal_sign ps) this =
         (Pending (signEthereumMessage message address true) k, this) /\
       forall res this', k (Normal res) this' =
                         (Normal (response i (get_prop res "result")), this')).
Proof.
  intros Hne. split; intros message address Hm Ha; to_relay_handler.
  - unfold _eth_sign, async, bind, lift, ret.
    rewrite (_requireAuthorization_nonempty _ Hne), Hm, Ha. cbn.
    eexists. split; reflexivity.
  - unfold _personal_sign, async, bind, lift, ret.
    rewrite (_requireAuthorization_nonempty _ Hne), Hm, Ha. cbn.
    eexists. split; reflexivity.
Qed.

(** X4. On an authorised provider [eth_signTransaction] and
    [eth_sendTransaction] normalise their first parameter (an empty object
    when it is missing or falsy): when normalisation throws they reject with
    that error and the relay is not called; otherwise they hand exactly the
    normalised transaction to the relay, to sign it or to sign and submit it,
    and answer with the relay's [result] under the request's id. *)
Theorem X4_transactions_are_normalised_first (i : Z) (ps : option (list JSValue)) this :
  _addresses this <> [] ->
  let raw := js_or (nth_param 0 (default [] ps)) (JObj []) in
  (forall e,
     fst (_prepareTransactionParams raw this) = Throw e ->
     fst (_sendRequestAsync (mkRequest i JSONRPCMethod.eth_signTransaction ps) this) =
       Settled (Throw e) /\
     fst (_sendRequestAsync (mkRequest i JSONRPCMethod.eth_sendTransaction ps) this) =
       Settled (Throw e)) /\
  (forall tx,
     fst (_prepareTransactionParams raw this) = Normal tx ->
     (exists k,
        fst (_sendRequestAsync (mkRequest i JSONRPCMethod.eth_signTransaction ps) this) =
          Pending (signEthereumTransaction tx) k /\
        forall res this', k (Normal res) this' =
                          (Normal (response i (get_prop res "result")), this')) /\
     (exists k,
        fst (_sendRequestAsync (mkRequest i JSONRPCMethod.eth_sendTransaction ps) this) =
          Pending (signAndSubmitEthereumTransaction tx) k /\
        forall res this', k (Normal res) this' =
                          (Normal (response i (get_prop res "result")), this'))).
Proof.
  intros Hne raw. split.
  - intros e He. split; to_relay_handler;
      unfold _eth_signTransaction, _eth_sendTransaction, async, bind;
      rewrite (_requireAuthorization_nonempty _ Hne); fold raw;
      destruct (_prepareTransactionParams raw this) as [[tx|e'] this1];
      cbn in He; try discriminate; injection He as ->; reflexivity.
  - intros tx Htx. split; to_relay_handler;
      unfold _eth_signTransaction, _eth_sendTransaction, async, bind, ret;
      rewrite (_requireAuthorization_nonempty _ Hne); fold raw;
      destruct (_prepareTransactionParams raw this) as [[tx'|e'] this1];
      cbn in Htx; try discriminate; injection Htx as ->; cbn;
      eexists; split; reflexivity.
Qed.

(** *** Linking *)

Lemma _eth_requestAccounts_unauthorized this :
  _addresses this = [] ->
  _eth_requestAccounts this =
    (Pending (requestEthereumAccounts (_appName this)) after_requestEthereumAccounts,
     if controllable this
     then add_effect EffLinkWindowFocus this
     else set_walletLinkWindow (Some openWalletLinkWindow)
            (add_effect EffOpenWalletLinkWindow this)).
Proof.
  intros Hempty. unfold _eth_requestAccounts, async, bind, get, ret, perform, modify,
    controllable.
  rewrite Hempty. cbn.
  destruct (_walletLinkWindow this) as [w|]; [destruct (opener w)|]; reflexivity.
Qed.

Lemma close_walletLinkWindow_run this :
  exists closed,
    close_walletLinkWindow this = (Normal tt, closed) /\
    _walletLinkWindow closed = None /\
    _addresses closed = _addresses this /\
    _providerId closed = _providerId this /\
    effects closed = effects this ++ closing_effects (_walletLinkWindow this).
Proof.
  unfold close_walletLinkWindow, bind, get, perform, modify, ret, closing_effects.
  destruct (_walletLinkWindow this) as [w|] eqn:Hw; eexists; (split; [reflexivity|]); cbn.
  - repeat split. now rewrite <- app_assoc.
  - repeat split; [assumption | now rewrite app_nil_r].
Qed.

Lemma _setAddresses_keeps_window (v : JSValue) (persist : bool) this :
  _walletLinkWindow (snd (_setAddresses v persist this)) = _walletLinkWindow this.
Proof.
  destruct v; try reflexivity.
  rewrite _setAddresses_array.
  destruct (map_throwing ensureAddressString elems); [|reflexivity].
  destruct persist; [|reflexivity]. cbn. now destruct (setItem _ a).
Qed.

Lemma _setAddresses_effects_grow (v : JSValue) (persist : bool) this :
  exists more, effects (snd (_setAddresses v persist this)) = effects this ++ more.
Proof.
  destruct v; try (exists []; cbn; now rewrite app_nil_r).
  rewrite _setAddresses_array.
  destruct (map_throwing ensureAddressString elems);
    [|exists []; cbn; now rewrite app_nil_r].
  destruct persist; cbn.
  - destruct (setItem _ a); cbn; rewrite <- ?app_assoc; eexists; reflexivity.
  - eexists; reflexivity.
Qed.

Lemma after_requestEthereumAccounts_Normal (res : JSValue) this2 closed :
  close_walletLinkWindow this2 = (Normal tt, closed) ->
  after_requestEthereumAccounts (Normal res) this2 =
    if negb (truthy (get_prop res "result"))
    then (Throw (Error "accounts received is empty"), closed)
    else
      match _setAddresses (get_prop res "result") true closed with
      | (Normal _, after) =>
          (Normal (response 0 (addresses_value (_addresses after))), after)
      | (Throw e, after) => (Throw e, after)
      end.
Proof.
  intros Hclose. unfold after_requestEthereumAccounts, bind, try_finally.
  unfold ret at 1. rewrite Hclose.
  destruct (negb (truthy (get_prop res "result"))); [reflexivity|].
  now destruct (_setAddresses (get_prop res "result") true closed) as [[[]|e] after].
Qed.

Lemma after_requestEthereumAccounts_Throw (err : JSError) this2 closed :
  close_walletLinkWindow this2 = (Normal tt, closed) ->
  after_requestEthereumAccounts (Throw err) this2 =
    (Throw (remapped UserDeniedAccountAccess err), closed).
Proof.
  intros Hclose. unfold after_requestEthereumAccounts, bind, try_finally.
  now rewrite rethrow_denied_remapped, Hclose.
Qed.

Lemma _setAddresses_no_window_effect (v : JSValue) (persist : bool) this :
  exists more,
    effects (snd (_setAddresses v persist this)) = effects this ++ more /\
    Forall (fun e => ~ window_effect e) more.
Proof.
  destruct v; try (exists []; cbn; rewrite app_nil_r; now split).
  rewrite _setAddresses_array.
  destruct (map_throwing ensureAddressString elems);
    [|exists []; cbn; rewrite app_nil_r; now split].
  destruct persist; cbn.
  - destruct (setItem _ a); cbn; rewrite <- ?app_assoc; eexists;
      (split; [reflexivity|]); repeat constructor; tauto.
  - eexists. split; [reflexivity|]. repeat constructor. tauto.
Qed.

(** Once the relay has answered, no window is tracked; a tracked window has
    been closed first, and nothing else was done to a window. *)
Lemma after_requestEthereumAccounts_closes (completion : Outcome JSValue) this2 :
  _walletLinkWindow (snd (after_requestEthereumAccounts completion this2)) = None /\
  exists more,
    effects (snd (after_requestEthereumAccounts completion this2)) =
      effects this2 ++ closing_effects (_walletLinkWindow this2) ++ more /\
    Forall (fun e => ~ window_effect e) more.
Proof.
  destruct (close_walletLinkWindow_run this2) as (closed & Hclose & Hwin & _ & _ & Heff).
  destruct completion as [res|err].
  - rewrite (after_requestEthereumAccounts_Normal _ _ _ Hclose).
    destruct (negb (truthy (get_prop res "result"))).
    + cbn. split; [assumption|]. exists []. rewrite app_nil_r. now split.
    + pose proof (_setAddresses_keeps_window (get_prop res "result") true closed) as Hkeep.
      destruct (_setAddresses_no_window_effect (get_prop res "result") true closed)
        as (more & Hgrow & Hmore).
      destruct (_setAddresses (get_prop res "result") true closed) as [[[]|e] after];
        cbn in *; (split; [congruence|]); exists more;
        (split; [now rewrite Hgrow, Heff, <- app_assoc | assumption]).
  - rewrite (after_requestEthereumAccounts_Throw _ _ _ Hclose). cbn.
    split; [assumption|]. exists []. rewrite app_nil_r. now split.
Qed.

(** X5. A request for accounts on an unauthorised provider waits for the
    relay's [requestEthereumAccounts] with the application's name, and before
    that does exactly one thing to the linking window: it focuses the tracked
    window when that window's [opener] is still set (and keeps tracking it),
    and otherwise opens a new one and tracks it.  So a window is tracked at
    the moment the request starts to wait, and the address list is untouched.
    The window is the provider's and not the request's: a second request made
    while the first waits starts to wait in the same way, on the window the
    first left; the answer to the first then closes that window and forgets
    it while the second request still waits, and the answer to the second
    finds no window and does nothing to one. *)
Theorem X5_one_linking_window this :
  _addresses this = [] ->
  exists k waiting,
    _eth_requestAccounts this =
      (Pending (requestEthereumAccounts (_appName this)) k, waiting) /\
    _addresses waiting = [] /\
    _walletLinkWindow waiting <> None /\
    (controllable this = true ->
     _walletLinkWindow waiting = _walletLinkWindow this /\
     effects waiting = effects this ++ [EffLinkWindowFocus]) /\
    (controllable this = false ->
     _walletLinkWindow waiting = Some openWalletLinkWindow /\
     effects waiting = effects this ++ [EffOpenWalletLinkWindow]) /\
    exists k' waiting',
      _eth_requestAccounts waiting =
        (Pending (requestEthereumAccounts (_appName this)) k', waiting') /\
      _walletLinkWindow waiting' <> None /\
      (controllable waiting = true ->
       _walletLinkWindow waiting' = _walletLinkWindow waiting /\
       effects waiting' = effects waiting ++ [EffLinkWindowFocus]) /\
      (controllable waiting = false ->
       _walletLinkWindow waiting' = Some openWalletLinkWindow /\
       effects waiting' = effects waiting ++ [EffOpenWalletLinkWindow]) /\
      forall completion,
        let answered := snd (k completion waiting') in
        _walletLinkWindow answered = None /\
        (exists more,
           effects answered =
             effects waiting' ++ [EffLinkWindowClose; EffWindowFocus] ++ more /\
           Forall (fun e => ~ window_effect e) more) /\
        forall completion',
          _walletLinkWindow (snd (k' completion' answered)) = None /\
          exists more,
            effects (snd (k' completion' answered)) = effects answered ++ more /\
            Forall (fun e => ~ window_effect e) more.
Proof.
  intros Hempty. rewrite (_eth_requestAccounts_unauthorized _ Hempty).
  set (waiting := if controllable this
                  then add_effect EffLinkWindowFocus this
                  else set_walletLinkWindow (Some openWalletLinkWindow)
                         (add_effect EffOpenWalletLinkWindow this)).
  assert (Hsame : _addresses waiting = [] /\ _appName waiting = _appName this).
  { unfold waiting. now destruct (controllable this). }
  destruct Hsame as [Hempty' Hname].
  assert (Hstart : forall that,
             let next := if controllable that
                         then add_effect EffLinkWindowFocus that
                         else set_walletLinkWindow (Some openWalletLinkWindow)
                                (add_effect EffOpenWalletLinkWindow that) in
             _walletLinkWindow next <> None /\
             (controllable that = true ->
              _walletLinkWindow next = _walletLinkWindow that /\
              effects next = effects that ++ [EffLinkWindowFocus]) /\
             (controllable that = false ->
              _walletLinkWindow next = Some openWalletLinkWindow /\
              effects next = effects that ++ [EffOpenWalletLinkWindow])).
  { intros that. unfold controllable.
    destruct (_walletLinkWindow that) as [w|] eqn:Hw; [destruct (opener w)|]; cbn;
      rewrite ?Hw; repeat split; try assumption; try discriminate. }
  exists after_requestEthereumAccounts, waiting. split; [reflexivity|].
  split; [assumption|].
  destruct (Hstart this) as (Hwin & Hfocus & Hopen).
  split; [exact Hwin|]. split; [exact Hfocus|]. split; [exact Hopen|].
  rewrite (_eth_requestAccounts_unauthorized _ Hempty'), Hname.
  do 2 eexists. split; [reflexivity|].
  destruct (Hstart waiting) as (Hwin' & Hfocus' & Hopen').
  split; [exact Hwin'|]. split; [exact Hfocus'|]. split; [exact Hopen'|].
  intros completion answered.
  destruct (after_requestEthereumAccounts_closes completion
              (if controllable waiting
               then add_effect EffLinkWindowFocus waiting
               else set_walletLinkWindow (Some openWalletLinkWindow)
                      (add_effect EffOpenWalletLinkWindow waiting)))
    as (Hnone & more & Heff & Hmore).
  fold answered in Hnone, Heff.
  split; [exact Hnone|]. split.
  - exists more. split; [|assumption]. rewrite Heff.
    destruct (_walletLinkWindow (if controllable waiting then _ else _)) eqn:Hw;
      [reflexivity | contradiction].
  - intros completion'.
    destruct (after_requestEthereumAccounts_closes completion' answered)
      as (Hnone' & more' & Heff' & Hmore').
    split; [exact Hnone'|]. exists more'. split; [|assumption].
    now rewrite Heff', Hnone.
Qed.

(** X6. However the relay answers a request for accounts, and whatever
    happens next, the linking window is closed and forgotten: once the
    continuation has run no window is tracked, and when one was tracked the
    first things done are to close it and to return the focus to the page. *)
Theorem X6_linking_window_always_closed this :
  _addresses this = [] ->
  exists k waiting,
    _eth_requestAccounts this =
      (Pending (requestEthereumAccounts (_appName this)) k, waiting) /\
    forall completion this2,
      _walletLinkWindow (snd (k completion this2)) = None /\
      exists more,
        effects (snd (k completion this2)) =
          effects this2 ++ closing_effects (_walletLinkWindow this2) ++ more.
Proof.
  intros Hempty. rewrite (_eth_requestAccounts_unauthorized _ Hempty).
  do 2 eexists. split; [reflexivity|]. intros completion this2.
  destruct (close_walletLinkWindow_run this2) as (closed & Hclose & Hwin & _ & _ & Heff).
  destruct completion as [res|err].
  - rewrite (after_requestEthereumAccounts_Normal _ _ _ Hclose).
    destruct (negb (truthy (get_prop res "result"))).
    + cbn. split; [assumption|]. exists []. now rewrite app_nil_r.
    + pose proof (_setAddresses_keeps_window (get_prop res "result") true closed) as Hkeep.
      destruct (_setAddresses_effects_grow (get_prop res "result") true closed)
        as [more Hgrow].
      destruct (_setAddresses (get_prop res "result") true closed) as [[[]|e] after];
        cbn in *; (split; [congruence|]); exists more;
        now rewrite Hgrow, Heff, <- app_assoc.
  - rewrite (after_requestEthereumAccounts_Throw _ _ _ Hclose). cbn.
    split; [assumption|]. exists []. now rewrite app_nil_r.
Qed.

(** X7. When the relay answers a request for accounts with an array whose
    entries all validate, and the storage write returns, the provider stores
    the normalised list, writes it under its storage key, emits
    [accountsChanged] with it, in that order after closing the window, and
    fulfils with the new list under id 0. *)
Theorem X7_linking_commits_the_addresses this :
  _addresses this = [] ->
  exists k waiting,
    _eth_requestAccounts this =
      (Pending (requestEthereumAccounts (_appName this)) k, waiting) /\
    forall res l normalized this2,
      get_prop res "result" = JArr l ->
      map_throwing ensureAddressString l = Normal normalized ->
      setItem (_localStorageAddressesKey this2) normalized = Normal tt ->
      fst (k (Normal res) this2) = Normal (response 0 (addresses_value normalized)) /\
      _addresses (snd (k (Normal res) this2)) = normalized /\
      effects (snd (k (Normal res) this2)) =
        effects this2 ++ closing_effects (_walletLinkWindow this2) ++
        [EffStorageSetItem (_localStorageAddressesKey this2) normalized;
         EffEmit "accountsChanged" normalized].
Proof.
  intros Hempty. rewrite (_eth_requestAccounts_unauthorized _ Hempty).
  do 2 eexists. split; [reflexivity|]. intros res l normalized this2 Hres Hmap Hset.
  destruct (close_walletLinkWindow_run this2) as (closed & Hclose & _ & _ & Hid & Heff).
  assert (Hkey : _localStorageAddressesKey closed = _localStorageAddressesKey this2)
    by (unfold _localStorageAddressesKey; now rewrite Hid).
  rewrite (after_requestEthereumAccounts_Normal _ _ _ Hclose), Hres. cbn [truthy negb].
  rewrite _setAddresses_array, Hmap. cbn zeta. rewrite Hkey, Hset. cbn.
  repeat split. now rewrite Heff, <- !app_assoc.
Qed.

(** X8. What the relay's answer to a request for accounts must look like: a
    falsy [result] rejects with "accounts received is empty", a truthy
    [result] that is not an array rejects with "addresses is not an array",
    and an array with an entry that fails validation rejects with the
    validator's error; in all three cases the address list stays as it was.
    An empty array is none of these: with a storage write that returns, the
    request fulfils with an empty list and the provider stays unauthorised. *)
Theorem X8_linking_rejects_malformed_answers this :
  _addresses this = [] ->
  exists k waiting,
    _eth_requestAccounts this =
      (Pending (requestEthereumAccounts (_appName this)) k, waiting) /\
    forall res this2,
      (truthy (get_prop res "result") = false ->
       fst (k (Normal res) this2) = Throw (Error "accounts received is empty") /\
       _addresses (snd (k (Normal res) this2)) = _addresses this2) /\
      (truthy (get_prop res "result") = true ->
       (forall l, get_prop res "result" <> JArr l) ->
       fst (k (Normal res) this2) = Throw (Error "addresses is not an array") /\
       _addresses (snd (k (Normal res) this2)) = _addresses this2) /\
      (forall l e,
         get_prop res "result" = JArr l ->
         map_throwing ensureAddressString l = Throw e ->
         fst (k (Normal res) this2) = Throw e /\
         _addresses (snd (k (Normal res) this2)) = _addresses this2) /\
      (get_prop res "result" = JArr [] ->
       setItem (_localStorageAddressesKey this2) [] = Normal tt ->
       fst (k (Normal res) this2) = Normal (response 0 (JArr [])) /\
       _addresses (snd (k (Normal res) this2)) = []).
Proof.
  intros Hempty. rewrite (_eth_requestAccounts_unauthorized _ Hempty).
  do 2 eexists. split; [reflexivity|]. intros res this2.
  destruct (close_walletLinkWindow_run this2) as (closed & Hclose & _ & Haddr & Hid & _).
  assert (Hkey : _localStorageAddressesKey closed = _localStorageAddressesKey this2)
    by (unfold _localStorageAddressesKey; now rewrite Hid).
  rewrite (after_requestEthereumAccounts_Normal _ _ _ Hclose).
  split; [|split; [|split]].
  - intros Hfalsy. rewrite Hfalsy. cbn. now split.
  - intros Htruthy Hnot. rewrite Htruthy. cbn [negb].
    destruct (get_prop res "result") as [| | | | |l|]; cbn; try (now split).
    now destruct (Hnot l).
  - intros l e Hres Hmap. rewrite Hres. cbn [truthy negb].
    rewrite _setAddresses_array, Hmap. now split.
  - intros Hres Hset. rewrite Hres. cbn [truthy negb].
    rewrite _setAddresses_array. cbn [map_throwing]. cbn zeta. rewrite Hkey, Hset.
    now split.
Qed.

Lemma after_requestEthereumAccounts_commit (res : JSValue) l normalized this2 :
  get_prop res "result" = JArr l ->
  map_throwing ensureAddressString l = Normal normalized ->
  setItem (_localStorageAddressesKey this2) normalized = Normal tt ->
  exists after,
    after_requestEthereumAccounts (Normal res) this2 =
      (Normal (response 0 (addresses_value normalized)), after) /\
    _addresses after = normalized.
Proof.
  intros Hres Hmap Hset.
  destruct (close_walletLinkWindow_run this2) as (closed & Hclose & _ & _ & Hid & _).
  assert (Hkey : _localStorageAddressesKey closed = _localStorageAddressesKey this2)
    by (unfold _localStorageAddressesKey; now rewrite Hid).
  rewrite (after_requestEthereumAccounts_Normal _ _ _ Hclose), Hres. cbn [truthy negb].
  rewrite _setAddresses_array, Hmap. cbn zeta. rewrite Hkey, Hset.
  eexists. split; reflexivity.
Qed.

(** X9. [enable()] on an unauthorised provider is a request for accounts: it
    waits for the relay, and when the relay answers with valid addresses and
    the storage write returns it fulfils with the bare list of normalised
    addresses (not a response object), which is then the provider's list;
    when the relay rejects it rejects with the remapped or original error. *)
Theorem X9_enable_links_an_unauthorized_provider this :
  _addresses this = [] ->
  exists k waiting,
    enable this = (Pending (requestEthereumAccounts (_appName this)) k, waiting) /\
    (forall res l normalized this2,
       get_prop res "result" = JArr l ->
       map_throwing ensureAddressString l = Normal normalized ->
       setItem (_localStorageAddressesKey this2) normalized = Normal tt ->
       fst (k (Normal res) this2) = Normal (addresses_value normalized) /\
       _addresses (snd (k (Normal res) this2)) = normalized) /\
    (forall err this2,
       fst (k (Throw err) this2) = Throw (remapped UserDeniedAccountAccess err)).
Proof.
  intros Hempty. unfold enable, send_method. rewrite Hempty. cbn [length Nat.ltb Nat.leb].
  rewrite _sendRequestAsync_asynchronous by (cbn; intuition discriminate).
  unfold _handleAsynchronousMethods. cbn [method]. eval_eqb.
  rewrite (_eth_requestAccounts_unauthorized _ Hempty). cbn [fst snd then_].
  do 2 eexists. split; [reflexivity|]. split.
  - intros res l normalized this2 Hres Hmap Hset.
    destruct (after_requestEthereumAccounts_commit _ _ _ _ Hres Hmap Hset)
      as (after & -> & Hafter).
    cbn. now split.
  - intros err this2.
    destruct (close_walletLinkWindow_run this2) as (closed & Hclose & _).
    now rewrite (after_requestEthereumAccounts_Throw _ _ _ Hclose).
Qed.

(** *** Routing *)

Lemma _handleSynchronousMethods_defined request this v this' :
  In (method request) synchronous_table ->
  _handleSynchronousMethods request this = (Normal v, this') ->
  is_defined v = true.
Proof.
  unfold synchronous_table. cbn [In].
  intros [Hm | [Hm | [Hm | [Hm | []]]]];
    unfold _handleSynchronousMethods; rewrite <- Hm; eval_eqb.
  - intros [= <- _]. reflexivity.
  - unfold _eth_coinbase, bind, get, ret. destruct (selectedAddress this);
      intros [= <- _]; reflexivity.
  - intros [= <- _]. reflexivity.
  - unfold _eth_uninstallFilter, bind, lift, perform, modify, ret.
    destruct (ensureHexString _); [|discriminate]. intros [= <- _]. reflexivity.
Qed.

Lemma _sendRequestAsync_synchronous request this :
  In (method request) synchronous_table ->
  _sendRequestAsync request this =
    (Settled (fst (_sendRequest request this)), snd (_sendRequest request this)).
Proof.
  intros Hin. unfold _sendRequestAsync, _sendRequest, async, bind.
  destruct (_handleSynchronousMethods request this) as [[v|e] this'] eqn:Hsync;
    [|reflexivity].
  now rewrite (_handleSynchronousMethods_defined _ _ _ _ Hin Hsync).
Qed.

(** X10. A method of the synchronous table behaves on the asynchronous path
    exactly as it does through [send(request)]: the promise is settled at
    once with the outcome of the synchronous call, a thrown validation error
    becoming a rejection, and the provider ends up the same. *)
Theorem X10_synchronous_methods_settle_at_once request this :
  In (method request) synchronous_table ->
  _sendRequestAsync request this =
    (Settled (fst (_sendRequest request this)), snd (_sendRequest request this)).
Proof. apply _sendRequestAsync_synchronous. Qed.

Lemma in_table_dec (m : string) (table : list string) : {In m table} + {~ In m table}.
Proof. apply in_dec, string_dec. Qed.

Lemma _handleAsynchronousFilterMethods_filter request this o this' :
  In (method request) filter_table ->
  _handleAsynchronousFilterMethods request this = (o, this') ->
  this' = this /\
  match o with
  | Normal (Some (Pending call _)) => filter_operation call
  | Normal (Some (Settled _)) => False
  | Normal None => False
  | Throw _ => True
  end.
Proof.
  unfold filter_table. cbn [In].
  intros [Hm | [Hm | [Hm | [Hm | [Hm | []]]]]];
    unfold _handleAsynchronousFilterMethods; rewrite <- Hm; eval_eqb;
    unfold _eth_getFilterChanges, _eth_getFilterLogs, bind, lift, ret; cbn;
    try destruct (ensureHexString _); intros [= <- <-]; split; try reflexivity;
    exact I.
Qed.

Lemma _handleAsynchronousMethods_relay request this call k this' :
  In (method request) relay_table ->
  _handleAsynchronousMethods request this = (Pending call k, this') ->
  relay_operation call.
Proof.
  unfold relay_table. cbn [In].
  intros [Hm | [Hm | [Hm | [Hm | [Hm | [Hm | [Hm | [Hm | []]]]]]]]];
    unfold _handleAsynchronousMethods; rewrite <- Hm; eval_eqb; intros Hp.
  - unfold _eth_requestAccounts in Hp. apply async_Pending in Hp.
    apply bind_Normal in Hp as (this0 & this1 & _ & Hp).
    destruct (0 <? length (_addresses this0))%nat; [discriminate|].
    apply bind_Normal in Hp as (? & ? & _ & Hp). now injection Hp as <- _ _.
  - unfold _eth_sign in Hp. apply async_Pending in Hp.
    repeat (apply bind_Normal in Hp as (? & ? & _ & Hp)). now injection Hp as <- _ _.
  - unfold _eth_ecRecover in Hp. apply async_Pending in Hp.
    repeat (apply bind_Normal in Hp as (? & ? & _ & Hp)). now injection Hp as <- _ _.
  - unfold _personal_sign in Hp. apply async_Pending in Hp.
    repeat (apply bind_Normal in Hp as (? & ? & _ & Hp)). now injection Hp as <- _ _.
  - unfold _personal_ecRecover in Hp. apply async_Pending in Hp.
    repeat (apply bind_Normal in Hp as (? & ? & _ & Hp)). now injection Hp as <- _ _.
  - unfold _eth_signTransaction in Hp. apply async_Pending in Hp.
    repeat (apply bind_Normal in Hp as (? & ? & _ & Hp)). now injection Hp as <- _ _.
  - unfold _eth_sendRawTransaction in Hp. apply async_Pending in Hp.
    repeat (apply bind_Normal in Hp as (? & ? & _ & Hp)). now injection Hp as <- _ _.
  - unfold _eth_sendTransaction in Hp. apply async_Pending in Hp.
    repeat (apply bind_Normal in Hp as (? & ? & _ & Hp)). now injection Hp as <- _ _.
Qed.

(** X11. Each request is handled by one route, chosen by its method alone,
    and a request that is left waiting waits for the collaborator of that
    route and for no other: never for a method of the synchronous table; for
    the filter polyfill for a method of the filter table; for the relay for a
    method of the relay table; and for any other method for one POST of the
    request itself, unchanged, to the configured endpoint, the provider being
    left as it was. *)
Theorem X11_one_route_per_method request this call k this' :
  _sendRequestAsync request this = (Pending call k, this') ->
  ~ In (method request) synchronous_table /\
  ((In (method request) filter_table /\ filter_operation call) \/
   (~ In (method request) filter_table /\
    In (method request) relay_table /\ relay_operation call) \/
   (~ In (method request) filter_table /\
    ~ In (method request) relay_table /\
    call = fetch (_jsonRpcUrl this) request /\ this' = this)).
Proof.
  intros Hp.
  assert (Hsync : ~ In (method request) synchronous_table).
  { intros Hin. rewrite (_sendRequestAsync_synchronous _ _ Hin) in Hp.
    discriminate. }
  split; [assumption|].
  destruct (in_table_dec (method request) filter_table) as [Hfilter | Hfilter].
  - left. split; [assumption|].
    unfold _sendRequestAsync in Hp. apply async_Pending in Hp.
    unfold bind in Hp. rewrite (_handleSynchronousMethods_default _ _ Hsync) in Hp.
    cbn [is_defined] in Hp.
    destruct (_handleAsynchronousFilterMethods request this) as [o this1] eqn:Hf.
    destruct (_handleAsynchronousFilterMethods_filter _ _ _ _ Hfilter Hf) as [-> Ho].
    destruct o as [[[settled|c k0]|]|e]; try contradiction; try discriminate.
    unfold ret in Hp. cbn in Hp. now injection Hp as <- _ _.
  - right. rewrite (_sendRequestAsync_asynchronous _ _ Hsync Hfilter) in Hp.
    injection Hp as Hp Hthis. apply then_Pending in Hp as (k0 & Hp & _).
    destruct (in_table_dec (method request) relay_table) as [Hrelay | Hrelay].
    + left. repeat split; try assumption.
      destruct (_handleAsynchronousMethods request this) as [p this1] eqn:Hh.
      cbn in Hp. subst p. exact (_handleAsynchronousMethods_relay _ _ _ _ _ Hrelay Hh).
    + right. rewrite (_handleAsynchronousMethods_fallback _ _ Hrelay) in Hp, Hthis.
      cbn in Hp, Hthis. injection Hp as <- _. now repeat split.
Qed.

(** *** Filters *)

Lemma assoc_get_set_other (k k' : string) (v : JSValue) (ps : list (string * JSValue)) :
  k <> k' -> assoc_get k' (assoc_set k v ps) = assoc_get k' ps.
Proof.
  intros Hne. induction ps as [|[k0 v0] ps IH]; cbn.
  - now rewrite (eqb_false_of_neq k' k) by congruence.
  - destruct (String.eqb k k0) eqn:Hk; cbn.
    + apply String.eqb_eq in Hk. subst k0.
      now rewrite (eqb_false_of_neq k' k) by congruence.
    + now rewrite IH.
Qed.

(** Route a request whose method is a literal of the filter table to its
    handler. *)
Ltac to_filter_handler :=
  unfold _sendRequestAsync, async, bind;
  rewrite _handleSynchronousMethods_default by (cbn; intuition discriminate);
  cbn [is_defined];
  unfold _handleAsynchronousFilterMethods, params_or_empty, bind;
  cbn [method params id]; eval_eqb.

(** X12. The filter methods.  The three that create a filter wait for the
    polyfill and answer with the new filter id under the request's id.
    [eth_getFilterChanges] and [eth_getFilterLogs] reject at once, without
    calling the polyfill, when the filter id fails [ensureHexString];
    otherwise they wait for the polyfill and pass its response object on with
    the id replaced by the request's and every other property as it was.  A
    rejection of the polyfill is passed on unchanged. *)
Theorem X12_filter_requests (i : Z) (ps : option (list JSValue)) this :
  (exists k,
     _sendRequestAsync (mkRequest i JSONRPCMethod.eth_newFilter ps) this =
       (Pending (newFilter (nth_param 0 (default [] ps))) k, this) /\
     (forall filterId this', k (Normal filterId) this' =
                             (Normal (response i filterId), this')) /\
     (forall err this', k (Throw err) this' = (Throw err, this'))) /\
  (exists k,
     _sendRequestAsync (mkRequest i JSONRPCMethod.eth_newBlockFilter ps) this =
       (Pending newBlockFilter k, this) /\
     (forall filterId this', k (Normal filterId) this' =
                             (Normal (response i filterId), this')) /\
     (forall err this', k (Throw err) this' = (Throw err, this'))) /\
  (exists k,
     _sendRequestAsync (mkRequest i JSONRPCMethod.eth_newPendingTransactionFilter ps) this =
       (Pending newPendingTransactionFilter k, this) /\
     (forall filterId this', k (Normal filterId) this' =
                             (Normal (response i filterId), this')) /\
     (forall err this', k (Throw err) this' = (Throw err, this'))) /\
  (forall e,
     ensureHexString (nth_param 0 (default [] ps)) = Throw e ->
     _sendRequestAsync (mkRequest i JSONRPCMethod.eth_getFilterChanges ps) this =
       (Settled (Throw e), this) /\
     _sendRequestAsync (mkRequest i JSONRPCMethod.eth_getFilterLogs ps) this =
       (Settled (Throw e), this)) /\
  (forall filterId,
     ensureHexString (nth_param 0 (default [] ps)) = Normal filterId ->
     (exists k,
        _sendRequestAsync (mkRequest i JSONRPCMethod.eth_getFilterChanges ps) this =
          (Pending (getFilterChanges filterId) k, this) /\
        (forall res this', k (Normal res) this' = (Normal (with_id res i), this')) /\
        (forall err this', k (Throw err) this' = (Throw err, this'))) /\
     (exists k,
        _sendRequestAsync (mkRequest i JSONRPCMethod.eth_getFilterLogs ps) this =
          (Pending (getFilterLogs filterId) k, this) /\
        (forall res this', k (Normal res) this' = (Normal (with_id res i), this')) /\
        (forall err this', k (Throw err) this' = (Throw err, this')))) /\
  (forall (fields : list (string * JSValue)) (key : string),
     key <> "id" ->
     get_prop (with_id (JObj fields) i) "id" = JNum i /\
     get_prop (with_id (JObj fields) i) key = get_prop (JObj fields) key).
Proof.
  split; [|split; [|split; [|split; [|split]]]].
  - to_filter_handler. eexists. split; [reflexivity|]. split; reflexivity.
  - to_filter_handler. eexists. split; [reflexivity|]. split; reflexivity.
  - to_filter_handler. eexists. split; [reflexivity|]. split; reflexivity.
  - intros e He. split; to_filter_handler;
      unfold _eth_getFilterChanges, _eth_getFilterLogs, bind, lift; now rewrite He.
  - intros filterId Hid. split; to_filter_handler;
      unfold _eth_getFilterChanges, _eth_getFilterLogs, bind, lift, ret; rewrite Hid;
      cbn; eexists; (split; [reflexivity|]); split; reflexivity.
  - intros fields key Hkey. split; [apply with_id_id|].
    unfold with_id. cbn. apply assoc_get_set_other. congruence.
Qed.

(** *** The synchronous batch *)

Lemma _sendRequest_Normal request this res this' :
  _sendRequest request this = (Normal res, this') ->
  In (method request) synchronous_table /\
  get_prop res "id" = JNum (id request).
Proof.
  intros Hsend.
  destruct (in_table_dec (method request) synchronous_table) as [Hin | Hout].
  - split; [assumption|]. unfold _sendRequest, bind in Hsend.
    destruct (_handleSynchronousMethods request this) as [[v|e] this1]; [|discriminate].
    destruct (is_defined v); [|discriminate]. now injection Hsend as <- _.
  - rewrite (_sendRequest_unsupported _ _ Hout) in Hsend. discriminate.
Qed.

Lemma send_requests_Normal requests this responses this' :
  send_requests requests this = (Normal responses, this') ->
  Forall2 (fun request res =>
             In (method request) synchronous_table /\
             get_prop res "id" = JNum (id request))
          requests responses.
Proof.
  revert this responses this'.
  induction requests as [|r requests IH]; intros this responses this'.
  - intros [= <- _]. constructor.
  - cbn [send_requests]. intros Hrun.
    apply bind_Normal in Hrun as (res & this1 & Hr & Hrun).
    apply bind_Normal in Hrun as (rest & this2 & Hrest & Hrun).
    injection Hrun as <- _. constructor.
    + exact (_sendRequest_Normal _ _ _ _ Hr).
    + exact (IH _ _ _ Hrest).
Qed.

(** X13. [send(requests)] without a callback returns only when every request
    names a method of the synchronous table; the responses then come in the
    order of the requests, one each, with the ids of the requests.  A batch
    that contains any other method never returns. *)
Theorem X13_synchronous_batch_in_order requests this :
  (forall responses this',
     send_requests requests this = (Normal responses, this') ->
     Forall2 (fun request res =>
                In (method request) synchronous_table /\
                get_prop res "id" = JNum (id request))
             requests responses) /\
  (forall r,
     In r requests ->
     ~ In (method r) synchronous_table ->
     exists e this', send_requests requests this = (Throw e, this')).
Proof.
  split; [intros responses this' Hrun; exact (send_requests_Normal _ _ _ _ Hrun)|].
  intros r Hin Hout.
  destruct (send_requests requests this) as [[responses|e] this'] eqn:Hrun;
    [|now exists e, this'].
  apply send_requests_Normal in Hrun. apply list_elem_of_In in Hin.
  destruct (proj1 (list_elem_of_lookup _ _) Hin) as [n Hn].
  destruct (Forall2_lookup_l _ _ _ _ _ Hrun Hn) as (res & _ & Htable & _).
  contradiction.
Qed.

(** X14. [send(requests)] without a callback is fail-fast: the requests run
    in order, each on the provider as the previous one left it, and the first
    one to throw ends the batch with its error; the requests after it are not
    run, and what the earlier ones did to the provider stays done. *)
Theorem X14_synchronous_batch_is_fail_fast pre r post this responses this1 e this2 :
  send_requests pre this = (Normal responses, this1) ->
  _sendRequest r this1 = (Throw e, this2) ->
  send_requests (pre ++ r :: post) this = (Throw e, this2).
Proof.
  revert this responses. induction pre as [|r0 pre IH]; intros this responses Hpre Hr.
  - injection Hpre as _ <-. cbn [app send_requests]. unfold bind. now rewrite Hr.
  - cbn [app send_requests] in *. unfold bind in *.
    destruct (_sendRequest r0 this) as [[res0|e0] this0]; [|discriminate].
    destruct (send_requests pre this0) as [[rest|e1] this3] eqn:Hrest; [|discriminate].
    injection Hpre as _ <-. now rewrite (IH _ _ Hrest Hr).
Qed.

(** *** Callbacks *)

Lemma then_catch_discipline {A} (settled : option (Outcome A)) (callback : Callback A) :
  Forall well_formed_invocation (then_catch settled callback) /\
  (settled = None -> then_catch settled callback = []) /\
  (forall err, settled = Some (Throw err) ->
               then_catch settled callback = [(Some err, None)]) /\
  (forall v, settled = Some (Normal v) ->
             match callback None (Some v) with
             | Normal _ => then_catch settled callback = [(None, Some v)]
             | Throw e => then_catch settled callback = [(None, Some v); (Some e, None)]
             end).
Proof.
  split; [|split; [|split]].
  - destruct settled as [[v|err]|]; cbn; [|repeat constructor..].
    destruct (callback None (Some v)); repeat constructor.
  - now intros ->.
  - now intros err ->.
  - intros v ->. cbn. now destruct (callback None (Some v)).
Qed.

(** X15. The callback of [sendAsync(request, callback)] is handed either an
    error or a response, never both and never neither; it is not called while
    the request is still waiting; a rejection calls it once with the error; a
    fulfilment calls it once with the response, unless the callback itself
    throws on that call, in which case it is called a second time with its
    own error. *)
Theorem X15_single_callback_discipline request callback completion this :
  let invocations := fst (sendAsync_single request callback completion this) in
  let settled :=
    fst (settle (fst (_sendRequestAsync request this)) completion
                (snd (_sendRequestAsync request this))) in
  Forall well_formed_invocation invocations /\
  (settled = None -> invocations = []) /\
  (forall err, settled = Some (Throw err) -> invocations = [(Some err, None)]) /\
  (forall res,
     settled = Some (Normal res) ->
     match callback None (Some res) with
     | Normal _ => invocations = [(None, Some res)]
     | Throw e => invocations = [(None, Some res); (Some e, None)]
     end) /\
  (forall call k,
     fst (_sendRequestAsync request this) = Pending call k ->
     completion = None ->
     invocations = []).
Proof.
  cbn zeta. unfold sendAsync_single.
  destruct (_sendRequestAsync request this) as [p this1]. cbn [fst snd].
  destruct (settle p completion this1) as [settled this2] eqn:Hsettle. cbn [fst snd].
  destruct (then_catch_discipline settled callback) as (Hwf & Hnone & Hthrow & Hnormal).
  repeat split; try assumption.
  intros call k -> ->. cbn in Hsettle. injection Hsettle as <- _. reflexivity.
Qed.

(** *** [send(method, params)] *)

(** X16. [send(method, params)] for a method outside the three tables posts
    a request with id 1 to the configured endpoint, with [params] itself when
    it is an array, no parameters when it is [undefined], and the one-element
    array of it otherwise; when the endpoint answers with an object that
    carries no error the promise fulfils with that object's [result] alone. *)
Theorem X16_send_method_forwards (method : string) (callbackOrParams : JSValue) this :
  ~ In method synchronous_table ->
  ~ In method filter_table ->
  ~ In method relay_table ->
  exists k,
    send_method method callbackOrParams this =
      (Pending
         (fetch (_jsonRpcUrl this)
                (mkRequest 1 method
                           (Some match callbackOrParams with
                                 | JArr l => l
                                 | JUndefined => []
                                 | v => [v]
                                 end)))
         k,
       this) /\
    (forall fields this',
       truthy (get_prop (JObj fields) "error") = false ->
       k (Normal (JObj fields)) this' = (Normal (get_prop (JObj fields) "result"), this')) /\
    (forall err this', k (Throw err) this' = (Throw err, this')).
Proof.
  intros Hsync Hfilter Hrelay. unfold send_method.
  rewrite _sendRequestAsync_asynchronous by assumption.
  rewrite _handleAsynchronousMethods_fallback by assumption.
  cbn [fst snd then_ await]. eexists. split; [reflexivity|]. split.
  - intros fields this' Herror. unfold check_remote_response.
    cbn [truthy negb]. rewrite Herror. cbn.
    f_equal. f_equal. apply assoc_get_set_other. discriminate.
  - reflexivity.
Qed.

(** *** More on the transaction normaliser *)

Lemma ensure_or_run {A} (cond : bool) (ensure : JSValue -> Outcome A) (v : JSValue)
      (dflt : A) this :
  ensure_or cond ensure v dflt this =
    ((if cond then ensure v else Normal dflt), this).
Proof. unfold ensure_or, lift, ret. now destruct cond. Qed.

(** X17. Transaction normalisation never changes the provider, and whenever
    it returns, the sender of the result is a non-empty address taken from
    the authorised list and the chain id of the result is the provider's. *)
Theorem X17_normalised_sender_is_authorized (tx : JSValue) this :
  snd (_prepareTransactionParams tx this) = this /\
  forall p,
    fst (_prepareTransactionParams tx this) = Normal p ->
    In (fromAddress p) (_addresses this) /\
    fromAddress p <> "" /\
    chainId p = _chainId this.
Proof.
  assert (Hthrow : forall (e : JSError),
             snd (Throw (A := EthereumTransactionParams) e, this) = this /\
             forall p, fst (Throw e, this) = Normal p ->
                       In (fromAddress p) (_addresses this) /\
                       fromAddress p <> "" /\ chainId p = _chainId this).
  { intros e. split; [reflexivity|]. intros p Hp. discriminate Hp. }
  unfold _prepareTransactionParams, bind, get, throw, ret.
  rewrite ensure_or_run.
  destruct (if truthy (get_prop tx "from") then _ else _) as [[a|]|e];
    try apply Hthrow.
  destruct (String.eqb a "") eqn:Hempty; [apply Hthrow|].
  destruct (includes (_addresses this) a) eqn:Hinc; cbn [negb]; [|apply Hthrow].
  cbv iota beta. rewrite ensure_or_run.
  destruct (if truthy (get_prop tx "to") then _ else _) as [to'|e]; [|apply Hthrow].
  cbv iota beta. rewrite ensure_or_run.
  destruct (if not_nullish (get_prop tx "value") then _ else _) as [value|e];
    [|apply Hthrow].
  cbv iota beta. rewrite ensure_or_run.
  destruct (if truthy (get_prop tx "data") then _ else _) as [data'|e]; [|apply Hthrow].
  cbv iota beta. rewrite ensure_or_run.
  destruct (if not_nullish (get_prop tx "nonce") then _ else _) as [nonce'|e];
    [|apply Hthrow].
  cbv iota beta. rewrite ensure_or_run.
  destruct (if not_nullish (get_prop tx "gasPrice") then _ else _) as [price|e];
    [|apply Hthrow].
  cbv iota beta. rewrite ensure_or_run.
  destruct (if not_nullish (get_prop tx "gas") then _ else _) as [gas|e];
    [|apply Hthrow].
  split; [reflexivity|]. intros p [= <-]. cbn.
  split; [now apply includes_In|]. split; [|reflexivity].
  intros ->. discriminate.
Qed.

(** X18. The defaults of the normaliser: with a selected address, a
    transaction object whose [from], [to] and [data] are falsy and whose
    [value], [nonce], [gasPrice] and [gas] are [null] or [undefined] (the
    empty object used for a missing parameter, for one) normalises, without
    any validator being consulted, to a transaction from the selected
    address with no recipient, value 0, empty data, no nonce and no gas
    fields, on the provider's chain. *)
Theorem X18_normaliser_defaults (tx : JSValue) (a : AddressString) this :
  selectedAddress this = Some a ->
  truthy (get_prop tx "from") = false ->
  truthy (get_prop tx "to") = false ->
  not_nullish (get_prop tx "value") = false ->
  truthy (get_prop tx "data") = false ->
  not_nullish (get_prop tx "nonce") = false ->
  not_nullish (get_prop tx "gasPrice") = false ->
  not_nullish (get_prop tx "gas") = false ->
  _prepareTransactionParams tx this =
    (Normal (mkTx a None 0%Z [] None None None (_chainId this)), this).
Proof.
  intros Hsel Hfrom Hto Hvalue Hdata Hnonce Hprice Hgas.
  destruct (selectedAddress_Some _ _ Hsel) as [Hne Hinc].
  unfold _prepareTransactionParams, bind, get, ret.
  rewrite ensure_or_run, Hfrom, Hsel, Hne, Hinc. cbn [negb].
  rewrite !ensure_or_run, Hto, Hvalue, Hdata, Hnonce, Hprice, Hgas. reflexivity.
Qed.

(** *** More on the address store *)

(** X19. [_setAddresses] on anything but an array throws "addresses is not
    an array" and changes nothing.  Without [persist], on an array whose
    entries all validate, it replaces the list and emits [accountsChanged]
    with the new list, exactly that and whatever the storage would do (no
    write is attempted); it emits even when the new list equals the old
    one. *)
Theorem X19_setAddresses_without_persist this :
  (forall v persist,
     (forall l, v <> JArr l) ->
     _setAddresses v persist this = (Throw (Error "addresses is not an array"), this)) /\
  (forall l normalized,
     map_throwing ensureAddressString l = Normal normalized ->
     _setAddresses (JArr l) false this =
       (Normal tt,
        add_effect (EffEmit "accountsChanged" normalized)
                   (set_addresses normalized this)) /\
     effects (snd (_setAddresses (JArr l) false this)) =
       effects this ++ [EffEmit "accountsChanged" normalized]) /\
  (forall l,
     map_throwing ensureAddressString l = Normal (_addresses this) ->
     effects (snd (_setAddresses (JArr l) false this)) =
       effects this ++ [EffEmit "accountsChanged" (_addresses this)]).
Proof.
  split; [|split].
  - intros v persist Hnot. destruct v; try reflexivity. now destruct (Hnot elems).
  - intros l normalized Hmap. rewrite _setAddresses_array, Hmap. now split.
  - intros l Hmap. now rewrite _setAddresses_array, Hmap.
Qed.

(** *** Batches of synchronous methods *)

Lemma _sendRequest_Normal_async request this res this' :
  _sendRequest request this = (Normal res, this') ->
  _sendRequestAsync request this = (Settled (Normal res), this').
Proof.
  intros Hsend. destruct (_sendRequest_Normal _ _ _ _ Hsend) as [Hin _].
  now rewrite (_sendRequestAsync_synchronous _ _ Hin), Hsend.
Qed.

Lemma send_requests_async requests this responses this' :
  send_requests requests this = (Normal responses, this') ->
  _sendMultipleRequestsAsync requests this = (fulfilled responses, this').
Proof.
  unfold _sendMultipleRequestsAsync. revert this responses this'.
  induction requests as [|r requests IH]; intros this responses this'.
  - intros [= <- <-]. reflexivity.
  - cbn [send_requests map_async]. intros Hrun.
    apply bind_Normal in Hrun as (res & this1 & Hr & Hrun).
    apply bind_Normal in Hrun as (rest & this2 & Hrest & Hrun).
    injection Hrun as <- <-.
    now rewrite (_sendRequest_Normal_async _ _ _ _ Hr), (IH _ _ _ Hrest).
Qed.

Lemma _sendRequest_Normal_executor request this res this' :
  _sendRequest request this = (Normal res, this') ->
  settled_by_executor request this = true.
Proof.
  unfold _sendRequest, settled_by_executor, bind.
  destruct (_handleSynchronousMethods request this) as [[result|e] this1];
    [|reflexivity].
  now destruct (is_defined result).
Qed.

Lemma send_requests_executors requests this responses this' :
  send_requests requests this = (Normal responses, this') ->
  forall j, (j < length requests)%nat ->
            settled_by_executors requests this !! j = Some true.
Proof.
  revert this responses this'.
  induction requests as [|r requests IH]; intros this responses this';
    [intros _ j Hj; cbn in Hj; lia|].
  cbn [send_requests settled_by_executors]. intros Hrun.
  apply bind_Normal in Hrun as (res & this1 & Hr & Hrun).
  apply bind_Normal in Hrun as (rest & this2 & Hrest & Hrun).
  rewrite (_sendRequest_Normal_executor _ _ _ _ Hr).
  rewrite (_sendRequest_Normal_async _ _ _ _ Hr). cbn [snd].
  intros [|j] Hj; [reflexivity|]. cbn in *. apply (IH _ _ _ Hrest). lia.
Qed.

Lemma Promise_all_fulfilled {A} (told : list nat) (vs : list A) sched this :
  (forall j, (j < length vs)%nat -> In j told) ->
  Promise_all told (fulfilled vs) sched this = Some (Normal vs).
Proof.
  intros Hall.
  assert (Htold : told_all told (length (fulfilled vs)) = true).
  { apply told_all_In. unfold fulfilled. now rewrite length_map. }
  destruct sched; cbn [Promise_all];
    now rewrite first_rejection_fulfilled, Htold, all_fulfilled_fulfilled.
Qed.

Lemma run_completions_fulfilled_state {A} sched (vs : list A) this :
  snd (run_completions sched (fulfilled vs) this) = this.
Proof.
  revert this. induction sched as [|c sched IH]; intros this; cbn; [reflexivity|].
  rewrite complete_fulfilled. apply IH.
Qed.

(** X24. A batch sent through [sendAsync(requests, callback)] that the
    synchronous surface would have answered (every request a method of the
    synchronous table that returns; the empty batch is one) calls the callback
    with the same responses, in the same order, without waiting for any
    collaborator: whatever completions arrive later play no part, and the
    provider ends up as after the synchronous batch. *)
Theorem X24_batch_of_synchronous_methods requests this responses this' :
  send_requests requests this = (Normal responses, this') ->
  forall callback sched,
    sendAsync_batch requests callback sched this =
      (match callback None (Some responses) with
       | Normal _ => [(None, Some responses)]
       | Throw e => [(None, Some responses); (Some e, None)]
       end,
       this').
Proof.
  intros Hrun callback sched. unfold sendAsync_batch.
  pose proof (_sendMultipleRequestsAsync_length requests this) as Hlength.
  rewrite (send_requests_async _ _ _ _ Hrun) in *. cbn [fst] in Hlength.
  unfold fulfilled in Hlength. rewrite length_map in Hlength.
  rewrite Promise_all_fulfilled.
  - now rewrite run_completions_fulfilled_state.
  - intros j Hj. unfold told_at_once. apply in_or_app. left. apply in_marked.
    apply (send_requests_executors _ _ _ _ Hrun). lia.
Qed.

(** *** The [readonly] fields *)

Lemma same_configuration_refl this : same_configuration this this.
Proof. now repeat split. Qed.

Lemma same_configuration_trans this1 this2 this3 :
  same_configuration this1 this2 -> same_configuration this2 this3 ->
  same_configuration this1 this3.
Proof.
  intros (Ha & Hc & Hu & Hp) (Ha' & Hc' & Hu' & Hp').
  repeat split; congruence.
Qed.

Lemma keeps_ret {A} (a : A) : keeps_configuration (ret a).
Proof. intros this. apply same_configuration_refl. Qed.

Lemma keeps_throw {A} (e : JSError) : keeps_configuration (throw (A := A) e).
Proof. intros this. apply same_configuration_refl. Qed.

Lemma keeps_lift {A} (o : Outcome A) : keeps_configuration (lift o).
Proof. intros this. apply same_configuration_refl. Qed.

Lemma keeps_get : keeps_configuration get.
Proof. intros this. apply same_configuration_refl. Qed.

Lemma keeps_perform (e : Effect) : keeps_configuration (perform e).
Proof. intros this. now repeat split. Qed.

Lemma keeps_set_addresses (l : list AddressString) :
  keeps_configuration (modify (set_addresses l)).
Proof. intros this. now repeat split. Qed.

Lemma keeps_set_walletLinkWindow (w : option Window) :
  keeps_configuration (modify (set_walletLinkWindow w)).
Proof. intros this. now repeat split. Qed.

Lemma keeps_bind {A B} (m : M A) (f : A -> M B) :
  keeps_configuration m -> (forall a, keeps_configuration (f a)) ->
  keeps_configuration (bind m f).
Proof.
  intros Hm Hf this. unfold bind. specialize (Hm this).
  destruct (m this) as [[a|e] this1]; cbn in *; [|assumption].
  exact (same_configuration_trans _ _ _ Hm (Hf a this1)).
Qed.

Lemma keeps_try_finally {A} (body : M A) (cleanup : M unit) :
  keeps_configuration body -> keeps_configuration cleanup ->
  keeps_configuration (try_finally body cleanup).
Proof.
  intros Hb Hc this. unfold try_finally. specialize (Hb this).
  destruct (body this) as [o this1]. specialize (Hc this1).
  destruct (cleanup this1) as [[[]|e] this2]; cbn in *;
    exact (same_configuration_trans _ _ _ Hb Hc).
Qed.

Lemma keeps_rethrow_denied {A} message code err :
  keeps_configuration (rethrow_denied (A := A) message code err).
Proof. intros this. rewrite rethrow_denied_remapped. apply same_configuration_refl. Qed.

Lemma keeps_ensure_or {A} cond (ensure : JSValue -> Outcome A) v dflt :
  keeps_configuration (ensure_or cond ensure v dflt).
Proof. intros this. rewrite ensure_or_run. apply same_configuration_refl. Qed.

(** Decompose a computation into its steps. *)
Ltac keeps :=
  repeat first
    [ apply keeps_ret | apply keeps_throw | apply keeps_lift | apply keeps_get
    | apply keeps_perform | apply keeps_set_addresses
    | apply keeps_set_walletLinkWindow | apply keeps_rethrow_denied
    | apply keeps_ensure_or
    | apply keeps_try_finally
    | apply keeps_bind; [|intros ?]
    | match goal with
      | |- keeps_configuration (if ?c then _ else _) => destruct c
      | |- keeps_configuration (match ?x with _ => _ end) => destruct x
      end ].

Lemma keeps__setAddresses v persist : keeps_configuration (_setAddresses v persist).
Proof. unfold _setAddresses. keeps. Qed.

Lemma keeps__handleSynchronousMethods request :
  keeps_configuration (_handleSynchronousMethods request).
Proof.
  unfold _handleSynchronousMethods, _eth_accounts, _eth_coinbase, _eth_uninstallFilter,
    _net_version. keeps.
Qed.

Lemma keeps__prepareTransactionParams tx :
  keeps_configuration (_prepareTransactionParams tx).
Proof. unfold _prepareTransactionParams. keeps. Qed.

Lemma keeps__requireAuthorization : keeps_configuration _requireAuthorization.
Proof. unfold _requireAuthorization. keeps. Qed.

Lemma keeps_close_walletLinkWindow : keeps_configuration close_walletLinkWindow.
Proof. unfold close_walletLinkWindow. keeps. Qed.

Lemma async_keeps {A} (body : M (Promise A)) :
  keeps_configuration body ->
  returns_only promise_keeps_configuration body ->
  async_keeps_configuration (async body).
Proof.
  intros Hk Hr this. unfold async. specialize (Hk this).
  destruct (body this) as [[p|e] this1] eqn:Hrun; cbn in *;
    (split; [assumption|]); [exact (Hr _ _ _ Hrun) | exact I].
Qed.

Lemma promise_keeps_await {A} c (k : JSValue -> M A) :
  (forall res, keeps_configuration (k res)) ->
  promise_keeps_configuration (await c k).
Proof. intros Hk [res|err]; [apply Hk | apply keeps_throw]. Qed.

Lemma promise_keeps_await_catch {A} c (k : JSValue -> M A) handler :
  (forall res, keeps_configuration (k res)) ->
  (forall err, keeps_configuration (handler err)) ->
  promise_keeps_configuration (await_catch c k handler).
Proof. intros Hk Hh [res|err]; [apply Hk | apply Hh]. Qed.

Lemma promise_keeps_then {A B} (p : Promise A) (f : A -> B) :
  promise_keeps_configuration p -> promise_keeps_configuration (then_ p f).
Proof.
  destruct p as [o|c k]; cbn; [trivial|]. intros Hk completion this.
  specialize (Hk completion this). now destruct (k completion this).
Qed.

Lemma keeps_call_async {A} (f : Async A) :
  async_keeps_configuration f -> keeps_configuration (call_async f).
Proof.
  intros Hf this. unfold call_async. destruct (Hf this) as [Hs _].
  now destruct (f this).
Qed.

Lemma returns_only_keeps_call_async {A} (f : Async A) :
  async_keeps_configuration f ->
  returns_only promise_keeps_configuration (call_async f).
Proof.
  intros Hf this p this'. unfold call_async. destruct (Hf this) as [_ Hp].
  destruct (f this) as [p' this1]. now intros [= <- _].
Qed.

Lemma keeps_after_requestEthereumAccounts completion :
  keeps_configuration (after_requestEthereumAccounts completion).
Proof.
  unfold after_requestEthereumAccounts. apply keeps_bind.
  - apply keeps_try_finally; [destruct completion; keeps|].
    apply keeps_close_walletLinkWindow.
  - intros res. destruct (negb _); [apply keeps_throw|].
    apply keeps_bind; [apply keeps__setAddresses|]. intros _. keeps.
Qed.

Lemma async_keeps__eth_requestAccounts : async_keeps_configuration _eth_requestAccounts.
Proof.
  intros this.
  destruct (_addresses this) as [|a l] eqn:Haddr.
  - rewrite (_eth_requestAccounts_unauthorized _ Haddr). split.
    + destruct (controllable this); now repeat split.
    + intros completion. apply keeps_after_requestEthereumAccounts.
  - rewrite _eth_requestAccounts_cached by (rewrite Haddr; discriminate).
    split; [apply same_configuration_refl | exact I].
Qed.

Lemma async_keeps__handleAsynchronousMethods request :
  async_keeps_configuration (_handleAsynchronousMethods request).
Proof.
  unfold _handleAsynchronousMethods.
  repeat (match goal with
          | |- async_keeps_configuration (if ?c then _ else _) => destruct c
          end);
    try apply async_keeps__eth_requestAccounts;
    try (unfold _eth_sign, _eth_ecRecover, _personal_sign, _personal_ecRecover,
           _eth_signTransaction, _eth_sendRawTransaction, _eth_sendTransaction;
         apply async_keeps;
         [ repeat first [ apply keeps__requireAuthorization
                        | apply keeps__prepareTransactionParams
                        | apply keeps_bind; [|intros ?]
                        | apply keeps_lift | apply keeps_get | apply keeps_ret ]
         | repeat (apply returns_only_bind; intros ?);
           apply returns_only_ret;
           first [ apply promise_keeps_await_catch; intros; keeps
                 | apply promise_keeps_await; intros; keeps ] ]).
  intros this. split; [apply same_configuration_refl|].
  apply promise_keeps_await. intros json. unfold check_remote_response. keeps.
Qed.

Lemma returns_only_bind_with {A B} (Q : A -> Prop) (P : B -> Prop) (m : M A)
      (f : A -> M B) :
  returns_only Q m -> (forall a, Q a -> returns_only P (f a)) ->
  returns_only P (bind m f).
Proof.
  intros Hm Hf this b this' Hrun. apply bind_Normal in Hrun as (a & this1 & Ha & Hrun).
  exact (Hf a (Hm _ _ _ Ha) _ _ _ Hrun).
Qed.

Lemma keeps_filter_install (c : ExternalCall) :
  async_keeps_configuration
    (async (ret (await (Window := Window) c
                       (fun filterId : JSValue => ret (response 0 filterId))))).
Proof.
  apply async_keeps; [keeps|].
  apply returns_only_ret, promise_keeps_await. intros. keeps.
Qed.

Lemma keeps_filter_poll (c : HexString -> ExternalCall) (params : list JSValue) :
  keeps_configuration
    (bind (lift (ensureHexString (nth_param 0 params)))
          (fun filterId => ret (await (Window := Window) (A := JSONRPCResponse)
                                      (c filterId) ret))) /\
  returns_only promise_keeps_configuration
    (bind (lift (ensureHexString (nth_param 0 params)))
          (fun filterId => ret (await (Window := Window) (A := JSONRPCResponse)
                                      (c filterId) ret))).
Proof.
  split; [keeps|].
  apply returns_only_bind. intros filterId.
  apply returns_only_ret, promise_keeps_await. intros. keeps.
Qed.

Lemma keeps__handleAsynchronousFilterMethods request :
  keeps_configuration (_handleAsynchronousFilterMethods request) /\
  returns_only optional_promise_keeps_configuration
               (_handleAsynchronousFilterMethods request).
Proof.
  unfold _handleAsynchronousFilterMethods, _eth_newFilter, _eth_newBlockFilter,
    _eth_newPendingTransactionFilter, _eth_getFilterChanges, _eth_getFilterLogs.
  repeat (match goal with
          | |- context [if ?c then _ else _] => destruct c
          end);
    try (split;
         [ apply keeps_bind; [apply keeps_call_async, keeps_filter_install | intros; keeps]
         | apply (returns_only_bind_with promise_keeps_configuration);
           [ apply returns_only_keeps_call_async, keeps_filter_install
           | intros p Hp; now apply returns_only_ret ] ]).
  - split.
    + apply keeps_bind; [apply (keeps_filter_poll getFilterChanges) | intros; keeps].
    + apply (returns_only_bind_with promise_keeps_configuration);
        [apply (keeps_filter_poll getFilterChanges) | intros p Hp; now apply returns_only_ret].
  - split.
    + apply keeps_bind; [apply (keeps_filter_poll getFilterLogs) | intros; keeps].
    + apply (returns_only_bind_with promise_keeps_configuration);
        [apply (keeps_filter_poll getFilterLogs) | intros p Hp; now apply returns_only_ret].
  - split; [keeps | now apply returns_only_ret].
Qed.

Lemma async_keeps__sendRequestAsync request :
  async_keeps_configuration (_sendRequestAsync request).
Proof.
  unfold _sendRequestAsync. apply async_keeps.
  - apply keeps_bind; [apply keeps__handleSynchronousMethods|]. intros syncResult.
    destruct (is_defined syncResult); [keeps|].
    apply keeps_bind; [apply keeps__handleAsynchronousFilterMethods|].
    intros [filterPromise|]; [keeps|].
    apply keeps_bind; [|intros; keeps].
    apply keeps_call_async, async_keeps__handleAsynchronousMethods.
  - apply returns_only_bind. intros syncResult.
    destruct (is_defined syncResult); [now apply returns_only_ret|].
    apply (returns_only_bind_with optional_promise_keeps_configuration);
      [apply keeps__handleAsynchronousFilterMethods|].
    intros [filterPromise|] Hfp.
    + apply returns_only_ret. now apply promise_keeps_then.
    + apply (returns_only_bind_with promise_keeps_configuration).
      * apply returns_only_keeps_call_async, async_keeps__handleAsynchronousMethods.
      * intros p Hp. apply returns_only_ret. now apply promise_keeps_then.
Qed.

Lemma keeps__sendRequest request : keeps_configuration (_sendRequest request).
Proof.
  unfold _sendRequest. apply keeps_bind; [apply keeps__handleSynchronousMethods|].
  intros result. destruct (is_defined result); keeps.
Qed.

Lemma keeps_send_requests requests : keeps_configuration (send_requests requests).
Proof.
  induction requests as [|r requests IH]; cbn [send_requests]; [keeps|].
  apply keeps_bind; [apply keeps__sendRequest|]. intros res.
  apply keeps_bind; [apply IH|]. intros. keeps.
Qed.

Lemma map_async_keeps requests this :
  same_configuration this (snd (_sendMultipleRequestsAsync requests this)) /\
  Forall promise_keeps_configuration (fst (_sendMultipleRequestsAsync requests this)).
Proof.
  unfold _sendMultipleRequestsAsync. revert this.
  induction requests as [|r requests IH]; intros this; cbn.
  - split; [apply same_configuration_refl | constructor].
  - destruct (async_keeps__sendRequestAsync r this) as [Hs Hp].
    destruct (_sendRequestAsync r this) as [p this1]. cbn in Hs, Hp.
    destruct (IH this1) as [Hs' Hps].
    destruct (map_async _sendRequestAsync requests this1) as [ps this2]. cbn in *.
    split; [exact (same_configuration_trans _ _ _ Hs Hs') | now constructor].
Qed.

Lemma complete_keeps {A} (c : Completion) (ps : list (Promise A)) this :
  Forall promise_keeps_configuration ps ->
  same_configuration this (snd (complete c ps this)) /\
  Forall promise_keeps_configuration (fst (complete c ps this)).
Proof.
  intros Hps. unfold complete.
  destruct (ps !! c.1) as [[o|call k]|] eqn:Hi; cbn;
    try (split; [apply same_configuration_refl | assumption]).
  pose proof (proj1 (Forall_lookup _ _) Hps _ _ Hi (snd c) this) as Hk.
  destruct (k c.2 this) as [r this1]. cbn in *. split; [assumption|].
  apply Forall_insert; [assumption | exact I].
Qed.

Lemma run_completions_keeps {A} sched (ps : list (Promise A)) this :
  Forall promise_keeps_configuration ps ->
  same_configuration this (snd (run_completions sched ps this)).
Proof.
  revert ps this. induction sched as [|c sched IH]; intros ps this Hps; cbn.
  - apply same_configuration_refl.
  - destruct (complete_keeps c ps this Hps) as [Hs Hps'].
    destruct (complete c ps this) as [ps' this1]. cbn in *.
    exact (same_configuration_trans _ _ _ Hs (IH _ _ Hps')).
Qed.

(** X25. The fields declared [readonly] ([_appName], [_chainId],
    [_jsonRpcUrl], [_providerId]) are never written after construction:
    whatever the requests, the completions of the collaborators and their
    order, the provider that [send(request)], [send(requests)],
    [sendAsync(request, callback)] and [sendAsync(requests, callback)] leave
    behind has the application name, chain id, endpoint and provider id it
    had before. *)
Theorem X25_configuration_is_never_written this :
  (forall request, same_configuration this (snd (_sendRequest request this))) /\
  (forall requests, same_configuration this (snd (send_requests requests this))) /\
  (forall request callback completion,
     same_configuration this (snd (sendAsync_single request callback completion this))) /\
  (forall requests callback sched,
     same_configuration this (snd (sendAsync_batch requests callback sched this))).
Proof.
  split; [intros; apply keeps__sendRequest|].
  split; [intros; apply keeps_send_requests|]. split.
  - intros request callback completion. unfold sendAsync_single.
    destruct (async_keeps__sendRequestAsync request this) as [Hs Hp].
    destruct (_sendRequestAsync request this) as [p this1]. cbn in Hs, Hp.
    unfold settle. destruct p as [o|c k]; cbn; [assumption|].
    destruct completion as [o|]; cbn; [|assumption].
    specialize (Hp o this1). destruct (k o this1) as [r this2]. cbn in *.
    exact (same_configuration_trans _ _ _ Hs Hp).
  - intros requests callback sched. unfold sendAsync_batch.
    destruct (map_async_keeps requests this) as [Hs Hps].
    destruct (_sendMultipleRequestsAsync requests this) as [ps this1]. cbn in *.
    exact (same_configuration_trans _ _ _ Hs (run_completions_keeps sched ps this1 Hps)).
Qed.

(** *** The network version *)

Lemma Number_toString_safe (n : IntNumber) :
  (Z.abs n < 2 ^ 53)%Z -> Number_toString n = pretty n.
Proof.
  intros Hsafe. unfold Number_toString.
  now rewrite (proj2 (Z.ltb_lt _ _) Hsafe).
Qed.

(** X26. The network version, as the getter [networkVersion] gives it, is
    what [net_version] answers, and no traffic changes it: after any batch
    sent through [sendAsync(requests, callback)], whatever the collaborators
    answer, [net_version] answers what the getter gave before.  It is the
    chain id as [Number::toString] prints it: the decimal numeral while the
    chain id is below 2^53 in absolute value, so that two providers with such
    chain ids answer the same network version only when they are on the same
    chain. *)
Theorem X26_network_version_is_stable this :
  (forall requests callback sched (i : Z) ps,
     fst (_sendRequest (mkRequest i JSONRPCMethod.net_version ps)
                       (snd (sendAsync_batch requests callback sched this))) =
       Normal (response i (JStr (networkVersion this)))) /\
  ((Z.abs (_chainId this) < 2 ^ 53)%Z ->
   networkVersion this = pretty (_chainId this)) /\
  (forall this' (i : Z) ps,
     (Z.abs (_chainId this) < 2 ^ 53)%Z ->
     (Z.abs (_chainId this') < 2 ^ 53)%Z ->
     fst (_sendRequest (mkRequest i JSONRPCMethod.net_version ps) this') =
       fst (_sendRequest (mkRequest i JSONRPCMethod.net_version ps) this) ->
     _chainId this' = _chainId this).
Proof.
  split; [|split].
  - intros requests callback sched i ps.
    rewrite _sendRequest_net_version by reflexivity. cbn [fst id].
    unfold sendAsync_batch.
    destruct (map_async_keeps requests this) as [Hs Hps].
    destruct (_sendMultipleRequestsAsync requests this) as [ps' this1]. cbn in *.
    destruct (same_configuration_trans _ _ _ Hs
                (run_completions_keeps sched ps' this1 Hps)) as (_ & -> & _).
    reflexivity.
  - apply Number_toString_safe.
  - intros this' i ps Hsafe Hsafe'. rewrite !_sendRequest_net_version by reflexivity.
    cbn [fst]. rewrite (Number_toString_safe _ Hsafe), (Number_toString_safe _ Hsafe').
    intros [= Heq]. now apply pretty_Z_inj in Heq.
Qed.

End Properties.

(** * Properties of construction and configuration *)

Lemma append_assoc (a b c : string) : (a +:+ b) +:+ c = a +:+ b +:+ c.
Proof. induction a as [|x a IH]; [reflexivity | exact (f_equal (String x) IH)]. Qed.

Section ConstructionProperties.

Context {Window : Type}.
Context {util : Util} {storage : WalletLinkStorage} {reads : WalletLinkStorageRead}
        {crypto : Crypto}.

Implicit Types (this : WalletLinkProvider Window).

Lemma _setAddresses_keeps_identity (v : JSValue) (persist : bool) this :
  _appName (snd (_setAddresses v persist this)) = _appName this /\
  _chainId (snd (_setAddresses v persist this)) = _chainId this /\
  _jsonRpcUrl (snd (_setAddresses v persist this)) = _jsonRpcUrl this /\
  _providerId (snd (_setAddresses v persist this)) = _providerId this /\
  _walletLinkWindow (snd (_setAddresses v persist this)) = _walletLinkWindow this.
Proof.
  destruct v; try (now repeat split).
  rewrite _setAddresses_array.
  destruct (map_throwing ensureAddressString elems); [|now repeat split].
  destruct persist; cbn; [|now repeat split].
  destruct (setItem _ a); now repeat split.
Qed.

Lemma restore_addresses_keeps_identity this :
  _appName (restore_addresses this) = _appName this /\
  _chainId (restore_addresses this) = _chainId this /\
  _jsonRpcUrl (restore_addresses this) = _jsonRpcUrl this /\
  _providerId (restore_addresses this) = _providerId this /\
  _walletLinkWindow (restore_addresses this) = _walletLinkWindow this.
Proof.
  unfold restore_addresses.
  destruct (getItem _) as [addresses|e]; [|now repeat split].
  destruct (truthy addresses); [|now repeat split].
  apply _setAddresses_keeps_identity.
Qed.

(** X20. The constructor throws only for a missing relay ("realy must be
    provided", as spelt in the source), then for an empty endpoint, then for a
    chain id that [ensureIntNumber] rejects.  Otherwise it returns, whatever
    the storage read does (a throwing read or unusable stored data included),
    a provider with the given endpoint, the validated chain id, the
    application name or "DApp", no linking window, and as provider id the
    first ten characters of the digest of "name,chain,endpoint", the chain
    id being printed there as [Number::toString] prints it. *)
Theorem X20_constructor_survives_storage (options : WalletLinkProviderOptions) :
  (opt_relay options = false ->
   constructor (Window := Window) options = Throw (Error "realy must be provided")) /\
  (opt_relay options = true ->
   opt_jsonRpcUrl options = "" ->
   constructor (Window := Window) options = Throw (Error "jsonRpcUrl must be provided")) /\
  (opt_relay options = true ->
   opt_jsonRpcUrl options <> "" ->
   let requested :=
     js_or (match opt_chainId options with Some n => JNum n | None => JUndefined end)
           (JNum 1) in
   (forall e, ensureIntNumber requested = Throw e ->
              constructor (Window := Window) options = Throw e) /\
   (forall chain,
      ensureIntNumber requested = Normal chain ->
      exists this,
        constructor options = Normal this /\
        _appName this = string_or (opt_appName options) "DApp" /\
        _chainId this = chain /\
        _jsonRpcUrl this = opt_jsonRpcUrl options /\
        _walletLinkWindow this = None /\
        _providerId this =
          substring 0 10
            (sha256_hex (string_or (opt_appName options) "DApp" +:+ "," +:+
                         Number_toString chain +:+ "," +:+ opt_jsonRpcUrl options)))).
Proof.
  unfold constructor. split; [|split].
  - now intros ->.
  - now intros -> ->.
  - intros -> Hurl. cbn [negb]. rewrite (proj2 (String.eqb_neq _ _) Hurl).
    cbn zeta. split.
    + now intros e ->.
    + intros chain ->. eexists. split; [reflexivity|].
      destruct (restore_addresses_keeps_identity
                  (mkProvider (string_or (opt_appName options) DEFAULT_APP_NAME) chain
                              (opt_jsonRpcUrl options)
                              (substring 0 10
                                 (sha256_hex
                                    (join_identity
                                       (string_or (opt_appName options) DEFAULT_APP_NAME)
                                       chain (opt_jsonRpcUrl options))))
                              [] None []))
        as (Ha & Hc & Hu & Hp & Hw).
      now rewrite Ha, Hc, Hu, Hp, Hw.
Qed.

(** X21. What the constructor's restore step does to a provider: when the
    storage holds, under the provider's key, an array of addresses that are
    already in normal form, that list becomes the provider's list and
    [accountsChanged] is emitted with it, and nothing is written back;
    when the read throws, or finds nothing, or finds something that is not an
    array, or an array with an entry that fails validation, the provider is
    left exactly as it was. *)
Theorem X21_restore_addresses this :
  (forall l,
     getItem (_localStorageAddressesKey this) = Normal (JArr (map JStr l)) ->
     Forall (fun a => ensureAddressString (JStr a) = Normal a) l ->
     restore_addresses this =
       add_effect (EffEmit "accountsChanged" l) (set_addresses l this)) /\
  (forall e,
     getItem (_localStorageAddressesKey this) = Throw e ->
     restore_addresses this = this) /\
  (forall v,
     getItem (_localStorageAddressesKey this) = Normal v ->
     truthy v = false ->
     restore_addresses this = this) /\
  (forall v,
     getItem (_localStorageAddressesKey this) = Normal v ->
     (forall l, v <> JArr l) ->
     restore_addresses this = this) /\
  (forall l,
     getItem (_localStorageAddressesKey this) = Normal (JArr l) ->
     Exists (fun a => exists e, ensureAddressString a = Throw e) l ->
     restore_addresses this = this).
Proof.
  unfold restore_addresses. split; [|split; [|split; [|split]]].
  - intros l -> Hnormal. cbn [truthy].
    assert (Hmap : map_throwing ensureAddressString (map JStr l) = Normal l).
    { apply map_throwing_Normal. induction Hnormal; cbn; constructor; assumption. }
    now rewrite _setAddresses_array, Hmap.
  - now intros e ->.
  - now intros v -> ->.
  - intros v -> Hnot. destruct (truthy v); [|reflexivity].
    destruct v; try reflexivity. now destruct (Hnot elems).
  - intros l -> Hinvalid. cbn [truthy].
    destruct (map_throwing_some_invalid _ _ Hinvalid) as [e Hmap].
    now rewrite _setAddresses_array, Hmap.
Qed.

(** X22. The provider id does not separate the fields it is computed from:
    the name, the chain id and the endpoint are joined with commas, so moving
    a ",number" from the end of the name to the chain id, and the old chain
    id to the front of the endpoint, gives the same provider id; the numbers
    are written as [Number::toString] prints the chain ids, which for chain
    ids below 2^53 is as decimal numerals.  Two providers configured for
    different chains can thus read and write the same storage key. *)
Theorem X22_provider_id_collisions (name endpoint : string) (c1 c2 : Z) :
  name <> "" ->
  endpoint <> "" ->
  c1 <> 0%Z ->
  c2 <> 0%Z ->
  ensureIntNumber (JNum c1) = Normal c1 ->
  ensureIntNumber (JNum c2) = Normal c2 ->
  (exists this1 this2 : WalletLinkProvider Window,
     constructor (mkOptions true (Some (name +:+ "," +:+ Number_toString c1)) endpoint
                            (Some c2)) =
       Normal this1 /\
     constructor (mkOptions true (Some name) (Number_toString c2 +:+ "," +:+ endpoint)
                            (Some c1)) =
       Normal this2 /\
     _chainId this1 = c2 /\
     _chainId this2 = c1 /\
     _localStorageAddressesKey this1 = _localStorageAddressesKey this2) /\
  ((Z.abs c1 < 2 ^ 53)%Z -> Number_toString c1 = pretty c1) /\
  ((Z.abs c2 < 2 ^ 53)%Z -> Number_toString c2 = pretty c2).
Proof.
  intros Hname Hendpoint Hc1 Hc2 He1 He2.
  split; [|split; apply Number_toString_safe].
  assert (Hname' : String.eqb (name +:+ "," +:+ Number_toString c1) "" = false)
    by (destruct name; [contradiction | reflexivity]).
  assert (Hurl' : String.eqb (Number_toString c2 +:+ "," +:+ endpoint) "" = false).
  { apply String.eqb_neq. destruct (Number_toString c2); discriminate. }
  unfold constructor. cbn [opt_relay opt_jsonRpcUrl opt_appName opt_chainId negb string_or].
  rewrite (proj2 (String.eqb_neq _ _) Hendpoint), (proj2 (String.eqb_neq _ _) Hname),
    Hname', Hurl'.
  unfold js_or. cbn [truthy].
  rewrite (proj2 (Z.eqb_neq c1 0) Hc1), (proj2 (Z.eqb_neq c2 0) Hc2).
  cbn [negb].
  rewrite He1, He2. do 2 eexists. split; [reflexivity|]. split; [reflexivity|].
  match goal with
  | |- _ (restore_addresses ?a) = _ /\ _ (restore_addresses ?b) = _ /\ _ =>
      destruct (restore_addresses_keeps_identity a) as (_ & Hca & _ & Hpa & _);
      destruct (restore_addresses_keeps_identity b) as (_ & Hcb & _ & Hpb & _)
  end.
  split; [exact Hca|]. split; [exact Hcb|].
  unfold _localStorageAddressesKey. rewrite Hpa, Hpb. cbn [_providerId].
  unfold join_identity. now rewrite !append_assoc.
Qed.

End ConstructionProperties.

(** ** The configuration of the linking page *)

Lemma prefix_spec (pat s : string) :
  String.prefix pat s = true <-> exists rest, s = pat +:+ rest.
Proof.
  revert s. induction pat as [|p pat IH]; intros s.
  - split; [intros _; now exists s | intros _; now destruct s].
  - destruct s as [|c s]; cbn.
    + split; [discriminate|]. intros [rest Hrest]. discriminate.
    + destruct (ascii_dec p c) as [->|Hne].
      * rewrite IH. split; intros [rest Hrest]; exists rest;
          [now subst | now injection Hrest].
      * split; [discriminate|]. intros [rest Hrest]. injection Hrest as Hc _.
        now destruct Hne.
Qed.

Lemma skip_append (pat rest : string) : skip (String.length pat) (pat +:+ rest) = rest.
Proof. induction pat as [|p pat IH]; cbn; [reflexivity | assumption]. Qed.

Lemma replace_first_prefix (pat rep rest : string) :
  replace_first pat rep (pat +:+ rest) = rep +:+ rest.
Proof.
  assert (Hprefix : String.prefix pat (pat +:+ rest) = true)
    by (apply prefix_spec; now exists rest).
  destruct (pat +:+ rest) eqn:Hs; cbn [replace_first]; rewrite Hprefix;
    rewrite <- Hs; now rewrite skip_append.
Qed.

Lemma replace_first_absent (pat rep s : string) :
  (forall pre post, s <> pre +:+ pat +:+ post) ->
  replace_first pat rep s = s.
Proof.
  induction s as [|c s IH]; intros Habsent.
  - cbn [replace_first]. destruct (String.prefix pat "") eqn:Hp; [|reflexivity].
    apply prefix_spec in Hp as [rest Hrest]. now destruct (Habsent "" rest).
  - cbn [replace_first]. destruct (String.prefix pat (String c s)) eqn:Hp.
    + apply prefix_spec in Hp as [rest Hrest]. now destruct (Habsent "" rest).
    + f_equal. apply IH. intros pre post ->. now apply (Habsent (String c pre) post).
Qed.

(** X23. Outside development the linking page derives its URLs from the
    page's location: the web URL is "protocol//host", and the RPC URL is
    the same with "/rpc" appended and the first "http" of the protocol
    replaced by "ws", so that "http:" becomes "ws:" and "https:" becomes
    "wss:"; a protocol in which "http" does not occur is kept as it is. *)
Theorem X23_production_urls (env : Environment) :
  NODE_ENV env <> "development" ->
  getWebUrl env = location_protocol env +:+ "//" +:+ location_host env /\
  (forall rest,
     location_protocol env = "http" +:+ rest ->
     getRpcUrl env = "ws" +:+ rest +:+ "//" +:+ location_host env +:+ "/rpc") /\
  (location_protocol env = "http:" ->
   getRpcUrl env = "ws://" +:+ location_host env +:+ "/rpc") /\
  (location_protocol env = "https:" ->
   getRpcUrl env = "wss://" +:+ location_host env +:+ "/rpc") /\
  ((forall pre post, location_protocol env <> pre +:+ "http" +:+ post) ->
   getRpcUrl env =
     location_protocol env +:+ "//" +:+ location_host env +:+ "/rpc").
Proof.
  intros Hprod. apply String.eqb_neq in Hprod.
  unfold getWebUrl, getRpcUrl. rewrite Hprod.
  assert (Hrest : forall rest,
             location_protocol env = "http" +:+ rest ->
             replace_first "http" "ws" (location_protocol env) +:+ "//" +:+
               location_host env +:+ "/rpc" =
             "ws" +:+ rest +:+ "//" +:+ location_host env +:+ "/rpc").
  { intros rest ->. rewrite replace_first_prefix. now rewrite append_assoc. }
  split; [reflexivity|]. split; [exact Hrest|].
  split; [intros Hp; exact (Hrest ":" Hp)|].
  split; [intros Hp; exact (Hrest "s:" Hp)|].
  intros Habsent. now rewrite replace_first_absent.
Qed.

(** * The properties on concrete requests

    The theorems instantiated on the reference collaborators, and the inputs
    on which three sentences of the spec do not hold as they are written. *)

Section Scenarios.

#[local] Existing Instance Reference.util.
#[local] Existing Instance Reference.codes.
#[local] Existing Instance Reference.windows.
#[local] Existing Instance Reference.filters.
#[local] Existing Instance Reference.storage.

Lemma C1_synchronous_surface_witness :
  _sendRequest (mkRequest 7 "eth_sign" (Some [])) Reference.authorized =
    (Throw (Error "WalletLink does not support calling eth_sign synchronously without a callback. Please provide a callback parameter to call eth_sign asynchronously."),
     Reference.authorized) /\
  _sendRequest (mkRequest 8 "eth_accounts" None) Reference.authorized =
    (Normal (response 8 (JArr [JStr Reference.alice; JStr Reference.bob])),
     Reference.authorized) /\
  _sendRequest (mkRequest 9 "eth_uninstallFilter" (Some [JStr "0xAB"])) Reference.authorized =
    (Normal (response 9 (JBool true)),
     add_effect (EffUninstallFilter "ab") Reference.authorized) /\
  _sendRequest (mkRequest 10 "net_version" None) Reference.authorized =
    (Normal (response 10 (JStr "1")), Reference.authorized).
Proof.
  split; [|split; [|split]].
  - apply (proj1 (C1_synchronous_surface
                    (mkRequest 7 "eth_sign" (Some [])) Reference.authorized)).
    cbn. intuition discriminate.
  - apply (proj1 (proj2 (C1_synchronous_surface
                           (mkRequest 8 "eth_accounts" None) Reference.authorized))).
    reflexivity.
  - exact (proj2 (proj2 (proj2 (proj2 (C1_synchronous_surface
             (mkRequest 9 "eth_uninstallFilter" (Some [JStr "0xAB"]))
             Reference.authorized)))) eq_refl).
  - exact (proj1 (proj2 (proj2 (proj2 (C1_synchronous_surface
             (mkRequest 10 "net_version" None) Reference.authorized)))) eq_refl).
Defined.

(** The sentence of the spec behind C1 fails here: [eth_uninstallFilter] is in
    the synchronous table, and sent without a filter id through
    [send(request)] it returns no response: the call throws what
    [ensureHexString] throws for [undefined], which is not the error for an
    unsupported synchronous call, and the filter polyfill is not called. *)
Lemma C1_uninstallFilter_without_a_filter_id_throws :
  In "eth_uninstallFilter" synchronous_table /\
  exists e,
    ensureHexString JUndefined = Throw e /\
    _sendRequest (mkRequest 9 "eth_uninstallFilter" None) Reference.authorized =
      (Throw e, Reference.authorized) /\
    e <> synchronous_unsupported "eth_uninstallFilter".
Proof.
  split; [cbn; tauto|]. eexists. split; [reflexivity|]. split; [reflexivity|].
  discriminate.
Qed.

Lemma C10_coinbase_null_when_unauthorized_witness :
  _sendRequest (mkRequest 3 "eth_coinbase" None) Reference.fresh =
    (Normal (response 3 JNull), Reference.fresh).
Proof.
  apply (C10_coinbase_null_when_unauthorized
           (mkRequest 3 "eth_coinbase" None) Reference.fresh);
    reflexivity.
Defined.

Lemma C5_setAddresses_all_or_nothing_witness :
  _addresses (snd (_setAddresses (JArr [JStr Reference.bob; JStr Reference.alice])
                                 true Reference.fresh)) =
    [Reference.bob; Reference.alice] /\
  exists e,
    _setAddresses (JArr [JStr Reference.bob; JStr "not an address"])
                  true Reference.authorized =
      (Throw e, Reference.authorized).
Proof.
  split.
  - apply (proj1 (proj2 (C5_setAddresses_all_or_nothing
                           [JStr Reference.bob; JStr Reference.alice]
                           true Reference.fresh))).
    + reflexivity.
    + repeat constructor.
  - apply (proj2 (proj2 (C5_setAddresses_all_or_nothing
                           [JStr Reference.bob; JStr "not an address"]
                           true Reference.authorized))).
    right. left. eexists. reflexivity.
Defined.

Lemma C6_setAddresses_persist_witness :
  _setAddresses (JArr [JStr Reference.alice]) true Reference.fresh =
    (Normal tt,
     add_effect (EffEmit "accountsChanged" [Reference.alice])
       (add_effect
          (EffStorageSetItem "WalletLinkProvider:0123456789:addresses" [Reference.alice])
          (set_addresses [Reference.alice] Reference.fresh))) /\
  _setAddresses (storage := Reference.full_storage)
                (JArr [JStr Reference.alice]) true Reference.fresh =
    (Throw (Error "QuotaExceededError"),
     add_effect
       (EffStorageSetItem "WalletLinkProvider:0123456789:addresses" [Reference.alice])
       (set_addresses [Reference.alice] Reference.fresh)).
Proof.
  split.
  - exact (C6_setAddresses_persist [JStr Reference.alice] [Reference.alice]
                                   Reference.fresh eq_refl).
  - exact (C6_setAddresses_persist (storage := Reference.full_storage)
                                   [JStr Reference.alice] [Reference.alice]
                                   Reference.fresh eq_refl).
Defined.

(** The sentence of the spec behind C6 fails here: every entry is valid and
    [persist] is set, the storage write throws, and the call throws too, with
    the list replaced but no [accountsChanged] emitted. *)
Lemma C6_storage_failure_is_not_swallowed :
  map_throwing ensureAddressString [JStr Reference.alice] = Normal [Reference.alice] /\
  fst (_setAddresses (storage := Reference.full_storage)
                     (JArr [JStr Reference.alice]) true Reference.fresh) =
    Throw (Error "QuotaExceededError") /\
  _addresses (snd (_setAddresses (storage := Reference.full_storage)
                                 (JArr [JStr Reference.alice]) true Reference.fresh)) =
    [Reference.alice] /\
  ~ In (EffEmit "accountsChanged" [Reference.alice])
       (effects (snd (_setAddresses (storage := Reference.full_storage)
                                    (JArr [JStr Reference.alice]) true Reference.fresh))).
Proof.
  split; [reflexivity|]. split; [reflexivity|]. split; [reflexivity|].
  intros Hin. vm_compute in Hin. destruct Hin as [Hin | []]. discriminate.
Qed.

Lemma C4_prepareTransactionParams_witness :
  _prepareTransactionParams
    (JObj [("to", JStr Reference.bob); ("value", JStr "0x5")]) Reference.authorized =
    (Normal (mkTx Reference.alice (Some Reference.bob) 5%Z [] None None None 1%Z),
     Reference.authorized) /\
  _prepareTransactionParams (JObj [("to", JStr Reference.bob)]) Reference.fresh =
    (Throw (Error "Ethereum address is unavailable"), Reference.fresh) /\
  _prepareTransactionParams
    (JObj [("from", JStr "0x00000000000000000000000000000000000000C3")])
    Reference.authorized =
    (Throw (Error "Unknown Ethereum address"), Reference.authorized).
Proof.
  split; [|split].
  - apply (proj1 (C4_prepareTransactionParams Reference.authorized)
             (JStr Reference.bob) Reference.bob Reference.alice);
      reflexivity.
  - apply (proj1 (proj2 (C4_prepareTransactionParams Reference.fresh)));
      reflexivity.
  - apply (proj2 (proj2 (C4_prepareTransactionParams Reference.authorized))
             _ "0x00000000000000000000000000000000000000c3").
    + left. split; reflexivity.
    + discriminate.
    + cbn. intuition discriminate.
Defined.

Lemma C2_request_accounts_uses_cache_witness :
  _sendRequestAsync (mkRequest 5 "eth_requestAccounts" None) Reference.authorized =
    (Settled (Normal (response 5 (JArr [JStr Reference.alice; JStr Reference.bob]))),
     Reference.authorized) /\
  enable Reference.authorized =
    (Settled (Normal (JArr [JStr Reference.alice; JStr Reference.bob])),
     Reference.authorized).
Proof.
  assert (Hne : _addresses Reference.authorized <> []) by discriminate.
  split.
  - apply (proj1 (proj2 (C2_request_accounts_uses_cache Reference.authorized Hne))).
  - apply (proj2 (proj2 (proj2 (C2_request_accounts_uses_cache Reference.authorized Hne)))).
Defined.

Lemma C3_relay_denials_are_remapped_witness :
  let denial := Error "User denied the request" in
  let refusal := Error "Request REJECTED by user" in
  let failure := Error "socket closed" in
  let transfer := JObj [("to", JStr Reference.bob); ("value", JStr "0x5")] in
  let tx := mkTx Reference.alice (Some Reference.bob) 5%Z [] None None None 1%Z in
  (exists k waiting,
     _sendRequestAsync (mkRequest 1 "eth_requestAccounts" None) Reference.fresh =
       (Pending (requestEthereumAccounts "DApp") k, waiting) /\
     fst (k (Throw denial) waiting) =
       Throw (ProviderError (JStr "User denied account authorization")
                            (JNum 4001) JUndefined) /\
     fst (k (Throw failure) waiting) = Throw failure) /\
  (exists k,
     _sendRequestAsync
       (mkRequest 2 "eth_sign" (Some [JStr Reference.alice; JStr "0xdead"]))
       Reference.authorized =
       (Pending (signEthereumMessage [xde; xad] Reference.alice false) k,
        Reference.authorized) /\
     fst (k (Throw refusal) Reference.authorized) =
       Throw (ProviderError (JStr "User denied message signature")
                            (JNum 4002) JUndefined) /\
     fst (k (Throw failure) Reference.authorized) = Throw failure) /\
  (exists k,
     _sendRequestAsync
       (mkRequest 3 "personal_sign" (Some [JStr "0xdead"; JStr Reference.alice]))
       Reference.authorized =
       (Pending (signEthereumMessage [xde; xad] Reference.alice true) k,
        Reference.authorized) /\
     fst (k (Throw denial) Reference.authorized) =
       Throw (ProviderError (JStr "User denied message signature")
                            (JNum 4002) JUndefined) /\
     fst (k (Throw failure) Reference.authorized) = Throw failure) /\
  (exists k waiting,
     _sendRequestAsync (mkRequest 4 "eth_signTransaction" (Some [transfer]))
                       Reference.authorized =
       (Pending (signEthereumTransaction tx) k, waiting) /\
     fst (k (Throw refusal) waiting) =
       Throw (ProviderError (JStr "User denied transaction signature")
                            (JNum 4002) JUndefined) /\
     fst (k (Throw failure) waiting) = Throw failure) /\
  (exists k waiting,
     _sendRequestAsync (mkRequest 5 "eth_sendTransaction" (Some [transfer]))
                       Reference.authorized =
       (Pending (signAndSubmitEthereumTransaction tx) k, waiting) /\
     fst (k (Throw denial) waiting) =
       Throw (ProviderError (JStr "User denied transaction signature")
                            (JNum 4002) JUndefined) /\
     fst (k (Throw failure) waiting) = Throw failure).
Proof.
  intros denial refusal failure transfer tx.
  assert (Hdenial : exists s, err_message denial = JStr s /\ mentions_denial s).
  { exists "User denied the request". split; [reflexivity|].
    left. exists "User ", "denied", " the request". split; reflexivity. }
  assert (Hrefusal : exists s, err_message refusal = JStr s /\ mentions_denial s).
  { exists "Request REJECTED by user". split; [reflexivity|].
    right. exists "Request ", "REJECTED", " by user". split; reflexivity. }
  assert (Hfailure : ~ (exists s, err_message failure = JStr s /\ mentions_denial s)).
  { intros Hd. apply is_denial_spec in Hd. discriminate. }
  assert (Hne : _addresses Reference.authorized <> []) by discriminate.
  split; [|split; [|split; [|split]]].
  - pose proof (C3_relay_denials_are_remapped 1 None Reference.fresh) as Hlink.
    destruct (proj1 Hlink eq_refl) as (k & waiting & Hsend & Hremaps).
    exists k, waiting. split; [exact Hsend|]. split.
    + exact (proj1 (Hremaps denial waiting) Hdenial).
    + exact (proj2 (Hremaps failure waiting) Hfailure).
  - pose proof (C3_relay_denials_are_remapped
                  2 (Some [JStr Reference.alice; JStr "0xdead"]) Reference.authorized)
      as Hsign.
    destruct (proj1 (proj1 (proj2 Hsign) Hne) [xde; xad] Reference.alice eq_refl eq_refl)
      as (k & Hsend & Hremaps).
    exists k. split; [exact Hsend|]. split.
    + exact (proj1 (Hremaps refusal Reference.authorized) Hrefusal).
    + exact (proj2 (Hremaps failure Reference.authorized) Hfailure).
  - pose proof (C3_relay_denials_are_remapped
                  3 (Some [JStr "0xdead"; JStr Reference.alice]) Reference.authorized)
      as Hsign.
    destruct (proj1 (proj2 (proj1 (proj2 Hsign) Hne))
                    [xde; xad] Reference.alice eq_refl eq_refl)
      as (k & Hsend & Hremaps).
    exists k. split; [exact Hsend|]. split.
    + exact (proj1 (Hremaps denial Reference.authorized) Hdenial).
    + exact (proj2 (Hremaps failure Reference.authorized) Hfailure).
  - pose proof (C3_relay_denials_are_remapped 4 (Some [transfer]) Reference.authorized)
      as Hsign.
    destruct (proj1 (proj2 (proj2 (proj1 (proj2 Hsign) Hne)) tx eq_refl))
      as (k & waiting & Hsend & Hremaps).
    exists k, waiting. split; [exact Hsend|]. split.
    + exact (proj1 (Hremaps refusal waiting) Hrefusal).
    + exact (proj2 (Hremaps failure waiting) Hfailure).
  - pose proof (C3_relay_denials_are_remapped 5 (Some [transfer]) Reference.authorized)
      as Hsend.
    destruct (proj2 (proj2 (proj2 (proj1 (proj2 Hsend) Hne)) tx eq_refl))
      as (k & waiting & Hsend' & Hremaps).
    exists k, waiting. split; [exact Hsend'|]. split.
    + exact (proj1 (Hremaps denial waiting) Hdenial).
    + exact (proj2 (Hremaps failure waiting) Hfailure).
Defined.

Lemma C8_remote_fallback_witness :
  exists k,
    _handleAsynchronousMethods (mkRequest 4 "eth_blockNumber" (Some [])) Reference.fresh =
      (Pending (fetch "https://rpc.example/" (mkRequest 4 "eth_blockNumber" (Some []))) k,
       Reference.fresh) /\
    k (Throw (Error "Failed to fetch")) Reference.fresh =
      (Throw (Error "Failed to fetch"), Reference.fresh) /\
    k (Normal JNull) Reference.fresh =
      (Throw (ProviderError (JStr "unexpected response") JUndefined JUndefined),
       Reference.fresh) /\
    k (Normal (JObj [("jsonrpc", JStr "2.0"); ("id", JNum 4);
                     ("error", JObj [("code", JNum (-32601));
                                     ("message", JStr "Method not found")])]))
      Reference.fresh =
      (Throw (ProviderError (JStr "Method not found") (JNum (-32601)) JUndefined),
       Reference.fresh) /\
    k (Normal (JObj [("jsonrpc", JStr "2.0"); ("id", JNum 4); ("result", JStr "0x10")]))
      Reference.fresh =
      (Normal (JObj [("jsonrpc", JStr "2.0"); ("id", JNum 4); ("result", JStr "0x10")]),
       Reference.fresh).
Proof.
  destruct (C8_remote_fallback (mkRequest 4 "eth_blockNumber" (Some [])) Reference.fresh)
    as (k & Hk & Hbody).
  { cbn. intuition discriminate. }
  exists k. split; [exact Hk|].
  destruct (Hbody Reference.fresh) as (Hfail & Hempty & Herror & Hok).
  split; [apply Hfail|]. split; [now apply Hempty|].
  split; [now apply Herror | now apply Hok].
Defined.

(** The sentence of the spec behind C8 fails here: the body carries an error
    whose message is the empty string, and the call fails with the message
    "RPC Error", which is not that error's message. *)
Lemma C8_empty_message_becomes_RPC_Error :
  exists k,
    _handleAsynchronousMethods (mkRequest 4 "eth_blockNumber" (Some [])) Reference.fresh =
      (Pending (fetch "https://rpc.example/" (mkRequest 4 "eth_blockNumber" (Some []))) k,
       Reference.fresh) /\
    get_prop (get_prop (JObj [("jsonrpc", JStr "2.0"); ("id", JNum 4);
                              ("error", JObj [("code", JNum (-32000));
                                              ("message", JStr "")])])
                       "error") "message" = JStr "" /\
    fst (k (Normal (JObj [("jsonrpc", JStr "2.0"); ("id", JNum 4);
                          ("error", JObj [("code", JNum (-32000));
                                          ("message", JStr "")])]))
           Reference.fresh) =
      Throw (ProviderError (JStr "RPC Error") (JNum (-32000)) JUndefined) /\
    JStr "RPC Error" <> JStr "".
Proof.
  eexists. split; [reflexivity|]. split; [reflexivity|].
  split; [reflexivity | discriminate].
Qed.

Lemma C9_response_carries_request_id_witness :
  fulfils_with (fun res => get_prop res "id" = JNum 7)
    (fst (_sendRequestAsync
            (mkRequest 7 "eth_sign" (Some [JStr Reference.alice; JStr "0xdeadbeef"]))
            Reference.authorized)) /\
  built_with_id_0
    (fst (_handleAsynchronousMethods
            (mkRequest 7 "eth_sign" (Some [JStr Reference.alice; JStr "0xdeadbeef"]))
            Reference.authorized)).
Proof.
  split.
  - apply (proj1 (C9_response_carries_request_id
                    (mkRequest 7 "eth_sign"
                               (Some [JStr Reference.alice; JStr "0xdeadbeef"]))
                    Reference.authorized)).
  - apply (proj1 (proj2 (proj2 (C9_response_carries_request_id
                    (mkRequest 7 "eth_sign"
                               (Some [JStr Reference.alice; JStr "0xdeadbeef"]))
                    Reference.authorized)))).
    cbn. tauto.
Defined.

Lemma C7_batch_callback_witness :
  let quiet : Callback (list JSONRPCResponse) := fun _ _ => Normal tt in
  let block := JObj [("jsonrpc", JStr "2.0"); ("id", JNum 0); ("result", JStr "0x10")] in
  (exists more,
     fst (sendAsync_batch
            [mkRequest 1 "eth_accounts" None; mkRequest 2 "net_version" None]
            quiet [] Reference.authorized) =
       (None, Some [response 1 (JArr [JStr Reference.alice; JStr Reference.bob]);
                    response 2 (JStr "1")]) :: more) /\
  fst (sendAsync_batch
         [mkRequest 1 "eth_requestAccounts" None; mkRequest 2 "eth_blockNumber" None]
         quiet
         [(1%nat, Normal block); (0%nat, Throw (Error "User denied the request"))]
         Reference.fresh) =
    [(Some (ProviderError (JStr "User denied account authorization") (JNum 4001)
                          JUndefined),
      None)] /\
  (exists e,
     ensureHexString JUndefined = Throw e /\
     forall sched,
       fst (sendAsync_batch
              [mkRequest 1 "eth_sign" None; mkRequest 2 "eth_getFilterChanges" None]
              quiet sched Reference.fresh) =
         [(Some e, None)]) /\
  fst (sendAsync_batch
         [mkRequest 1 "eth_requestAccounts" None; mkRequest 2 "eth_blockNumber" None]
         quiet [(1%nat, Normal block)] Reference.fresh) = [] /\
  (exists e,
     ensureBuffer JUndefined = Throw e /\
     fst (sendAsync_batch
            [mkRequest 1 "eth_ecRecover" None; mkRequest 2 "eth_sign" None;
             mkRequest 3 "eth_blockNumber" None]
            quiet [(2%nat, Throw (Error "Failed to fetch"))] Reference.fresh) =
       [(Some e, None)]).
Proof.
  intros quiet block. split; [|split; [|split; [|split]]].
  - apply (proj1 (proj2 (C7_batch_callback
                           [mkRequest 1 "eth_accounts" None; mkRequest 2 "net_version" None]
                           quiet [] Reference.authorized))).
    + intros i Hi. cbn in Hi. vm_compute.
      destruct i as [|[|i]]; [tauto | tauto | lia].
    + reflexivity.
  - apply (proj1 (proj2 (proj2 (C7_batch_callback
                                  [mkRequest 1 "eth_requestAccounts" None;
                                   mkRequest 2 "eth_blockNumber" None]
                                  quiet
                                  [(1%nat, Normal block);
                                   (0%nat, Throw (Error "User denied the request"))]
                                  Reference.fresh)))
             [1%nat] 0%nat []).
    + reflexivity.
    + reflexivity.
    + intros j e' [<- | []]. discriminate.
  - eexists. split; [reflexivity|]. intros sched.
    apply (proj1 (proj2 (proj2 (proj2 (C7_batch_callback
                                         [mkRequest 1 "eth_sign" None;
                                          mkRequest 2 "eth_getFilterChanges" None]
                                         quiet sched Reference.fresh))))
             1%nat).
    + reflexivity.
    + reflexivity.
    + intros j e' Hj Hknown. destruct j as [|j]; [discriminate | lia].
  - apply (proj1 (proj2 (proj2 (proj2 (proj2 (C7_batch_callback
                                                [mkRequest 1 "eth_requestAccounts" None;
                                                 mkRequest 2 "eth_blockNumber" None]
                                                quiet [(1%nat, Normal block)]
                                                Reference.fresh)))))).
    + intros i e Hin. vm_compute in Hin. destruct Hin as [<- | []]. discriminate.
    + intros Hall. specialize (Hall 0%nat ltac:(cbn; lia)). vm_compute in Hall.
      destruct Hall as [Heq | []]. discriminate.
  - eexists. split; [reflexivity|].
    apply (proj1 (proj2 (proj2 (C7_batch_callback
                                  [mkRequest 1 "eth_ecRecover" None;
                                   mkRequest 2 "eth_sign" None;
                                   mkRequest 3 "eth_blockNumber" None]
                                  quiet [(2%nat, Throw (Error "Failed to fetch"))]
                                  Reference.fresh)))
             [] 0%nat [1%nat; 2%nat]).
    + reflexivity.
    + reflexivity.
    + intros j e' [].
Defined.

(** The linking flow from the unauthorised provider: the window is opened
    before the relay is asked, and once the relay answers the window is
    closed, focus returns, the list is stored and persisted, and the
    notification goes out, in that order. *)
Example request_accounts_linking_flow :
  exists k,
    _eth_requestAccounts Reference.fresh =
      (Pending (requestEthereumAccounts "DApp") k,
       add_effect EffOpenWalletLinkWindow
         (set_walletLinkWindow (Some tt) Reference.fresh)) /\
    k (Normal (JObj [("result", JArr [JStr "0x00000000000000000000000000000000000000A1"])]))
      (add_effect EffOpenWalletLinkWindow
         (set_walletLinkWindow (Some tt) Reference.fresh)) =
      (Normal (response 0 (JArr [JStr Reference.alice])),
       mkProvider "DApp" 1%Z "https://rpc.example/" "0123456789"
                  [Reference.alice] None
                  [EffOpenWalletLinkWindow; EffLinkWindowClose; EffWindowFocus;
                   EffStorageSetItem "WalletLinkProvider:0123456789:addresses"
                                     [Reference.alice];
                   EffEmit "accountsChanged" [Reference.alice]]).
Proof. eexists. split; reflexivity. Qed.

(** A batch answers its synchronous elements on the provider as it is when
    the batch is sent: [eth_accounts] sent along with [eth_requestAccounts]
    still sees the empty list. *)
Example batch_elements_start_in_order :
  fst (sendAsync_batch
         [mkRequest 1 "eth_requestAccounts" None; mkRequest 2 "eth_accounts" None]
         (fun _ _ => Normal tt)
         [(0%nat, Normal (JObj [("result", JArr [JStr Reference.alice])]))]
         Reference.fresh) =
    [(None, Some [response 1 (JArr [JStr Reference.alice]); response 2 (JArr [])])].
Proof. reflexivity. Qed.

(** A callback that throws on the result list is called a second time, with
    its own error. *)
Example throwing_callback_is_called_again :
  fst (sendAsync_batch
         [mkRequest 1 "net_version" None]
         (fun err _ => match err with
                       | None => Throw (Error "callback failed")
                       | Some _ => Normal tt
                       end)
         [] Reference.fresh) =
    [(None, Some [response 1 (JStr "1")]); (Some (Error "callback failed"), None)].
Proof. reflexivity. Qed.

(** A collaborator that had answered by the time it returned its promise: the
    filter polyfill's own promise, handed on by [eth_getFilterChanges], is
    rejected already, and its reactions run before those of the [eth_sign]
    sent after it, whose handler had rejected at once.  The schedule says so
    by giving the second promise its turn after the first. *)
Example a_polyfill_that_had_answered_comes_first :
  fst (sendAsync_batch
         [mkRequest 1 "eth_getFilterChanges" (Some [JStr "0x1"]);
          mkRequest 2 "eth_sign" None]
         (fun _ _ => Normal tt)
         [(0%nat, Throw (Error "filter not found")); (1%nat, Normal JUndefined)]
         Reference.fresh) =
    [(Some (Error "filter not found"), None)] /\
  fst (sendAsync_batch
         [mkRequest 1 "eth_getFilterChanges" (Some [JStr "0x1"]);
          mkRequest 2 "eth_sign" None]
         (fun _ _ => Normal tt)
         [(0%nat, Throw (Error "filter not found"))]
         Reference.fresh) =
    [(Some (ProviderError (JStr "Unauthorized") (JNum 4100) JUndefined), None)].
Proof. split; reflexivity. Qed.

#[local] Existing Instance Reference.crypto.

Lemma X1_signing_requires_authorization_witness :
  _sendRequestAsync
    (mkRequest 1 "eth_sign" (Some [JStr Reference.alice; JStr "0xdeadbeef"]))
    Reference.fresh =
    (Settled (Throw (ProviderError (JStr "Unauthorized") (JNum 4100) JUndefined)),
     Reference.fresh).
Proof.
  exact (X1_signing_requires_authorization
           (mkRequest 1 "eth_sign" (Some [JStr Reference.alice; JStr "0xdeadbeef"]))
           Reference.fresh ltac:(cbn; tauto) eq_refl).
Defined.

Lemma X2_recovery_and_raw_send_are_open_witness :
  exists k,
    _sendRequestAsync (mkRequest 1 "eth_sendRawTransaction" (Some [JStr "0xf86b"]))
                      Reference.fresh =
      (Pending (submitEthereumTransaction [xf8; x6b] 1%Z) k, Reference.fresh) /\
    (forall res (this' : WalletLinkProvider unit),
       k (Normal res) this' = (Normal (response 1 (get_prop res "result")), this')) /\
    (forall err (this' : WalletLinkProvider unit),
       k (Throw err) this' = (Throw err, this')).
Proof.
  exact (proj2 (X2_recovery_and_raw_send_are_open 1 (Some [JStr "0xf86b"]) Reference.fresh)
               [xf8; x6b] eq_refl).
Defined.

Lemma X3_sign_parameter_order_witness :
  (exists k,
     _sendRequestAsync
       (mkRequest 1 "eth_sign" (Some [JStr Reference.bob; JStr "0xdead"]))
       Reference.authorized =
       (Pending (signEthereumMessage [xde; xad] Reference.bob false) k,
        Reference.authorized) /\
     forall res (this' : WalletLinkProvider unit),
       k (Normal res) this' = (Normal (response 1 (get_prop res "result")), this')) /\
  (exists k,
     _sendRequestAsync
       (mkRequest 1 "personal_sign" (Some [JStr "0xdead"; JStr Reference.bob]))
       Reference.authorized =
       (Pending (signEthereumMessage [xde; xad] Reference.bob true) k,
        Reference.authorized) /\
     forall res (this' : WalletLinkProvider unit),
       k (Normal res) this' = (Normal (response 1 (get_prop res "result")), this')).
Proof.
  assert (Hne : _addresses Reference.authorized <> []) by discriminate.
  split.
  - exact (proj1 (X3_sign_parameter_order
                    1 (Some [JStr Reference.bob; JStr "0xdead"])
                    Reference.authorized Hne)
                 [xde; xad] Reference.bob eq_refl eq_refl).
  - exact (proj2 (X3_sign_parameter_order
                    1 (Some [JStr "0xdead"; JStr Reference.bob])
                    Reference.authorized Hne)
                 [xde; xad] Reference.bob eq_refl eq_refl).
Defined.

Lemma X4_transactions_are_normalised_first_witness :
  fst (_sendRequestAsync
         (mkRequest 1 "eth_sendTransaction"
                    (Some [JObj [("from", JStr "0x00000000000000000000000000000000000000c3")]]))
         Reference.authorized) =
    Settled (Throw (Error "Unknown Ethereum address")) /\
  exists k,
    fst (_sendRequestAsync (mkRequest 1 "eth_sendTransaction" None) Reference.authorized) =
      Pending (signAndSubmitEthereumTransaction
                 (mkTx Reference.alice None 0%Z [] None None None 1%Z)) k /\
    forall res (this' : WalletLinkProvider unit),
      k (Normal res) this' = (Normal (response 1 (get_prop res "result")), this').
Proof.
  assert (Hne : _addresses Reference.authorized <> []) by discriminate.
  split.
  - exact (proj2 (proj1 (X4_transactions_are_normalised_first
                           1 (Some [JObj [("from",
                                           JStr "0x00000000000000000000000000000000000000c3")]])
                           Reference.authorized Hne)
                        (Error "Unknown Ethereum address") eq_refl)).
  - exact (proj2 (proj2 (X4_transactions_are_normalised_first
                           1 None Reference.authorized Hne)
                        (mkTx Reference.alice None 0%Z [] None None None 1%Z) eq_refl)).
Defined.

Lemma X5_one_linking_window_witness :
  exists k waiting,
    _eth_requestAccounts Reference.fresh =
      (Pending (requestEthereumAccounts "DApp") k, waiting) /\
    _addresses waiting = [] /\
    _walletLinkWindow waiting = Some tt /\
    effects waiting = [EffOpenWalletLinkWindow] /\
    exists k' waiting',
      _eth_requestAccounts waiting =
        (Pending (requestEthereumAccounts "DApp") k', waiting') /\
      _walletLinkWindow waiting' = Some tt /\
      effects waiting' = [EffOpenWalletLinkWindow; EffLinkWindowFocus] /\
      forall completion,
        _walletLinkWindow (snd (k completion waiting')) = None /\
        forall completion',
          _walletLinkWindow (snd (k' completion' (snd (k completion waiting')))) = None.
Proof.
  destruct (X5_one_linking_window Reference.fresh eq_refl)
    as (k & waiting & Hsend & Hempty & _ & _ & Hopen & k' & waiting' & Hsend' & _ &
        Hfocus' & _ & Hanswers).
  exists k, waiting. split; [exact Hsend|]. split; [exact Hempty|].
  destruct (Hopen eq_refl) as [Hwin Heff].
  split; [exact Hwin|]. split; [exact Heff|].
  exists k', waiting'. split; [exact Hsend'|].
  assert (Hcontrol : controllable waiting = true).
  { unfold controllable. now rewrite Hwin. }
  destruct (Hfocus' Hcontrol) as [Hwin' Heff'].
  split; [now rewrite Hwin'|]. split; [now rewrite Heff', Heff|].
  intros completion. destruct (Hanswers completion) as (Hnone & _ & Hsecond).
  split; [exact Hnone|]. intros completion'. exact (proj1 (Hsecond completion')).
Defined.

Lemma X6_linking_window_always_closed_witness :
  exists k waiting,
    _eth_requestAccounts Reference.fresh =
      (Pending (requestEthereumAccounts "DApp") k, waiting) /\
    forall completion (this2 : WalletLinkProvider unit),
      _walletLinkWindow (snd (k completion this2)) = None /\
      exists more,
        effects (snd (k completion this2)) =
          effects this2 ++ closing_effects (_walletLinkWindow this2) ++ more.
Proof. exact (X6_linking_window_always_closed Reference.fresh eq_refl). Defined.

Lemma X7_linking_commits_the_addresses_witness :
  exists k waiting,
    _eth_requestAccounts Reference.fresh =
      (Pending (requestEthereumAccounts "DApp") k, waiting) /\
    fst (k (Normal (JObj [("result", JArr [JStr Reference.bob])])) waiting) =
      Normal (response 0 (JArr [JStr Reference.bob])) /\
    _addresses (snd (k (Normal (JObj [("result", JArr [JStr Reference.bob])])) waiting)) =
      [Reference.bob].
Proof.
  destruct (X7_linking_commits_the_addresses Reference.fresh eq_refl)
    as (k & waiting & Hk & Hcommit).
  exists k, waiting. split; [exact Hk|].
  destruct (Hcommit (JObj [("result", JArr [JStr Reference.bob])])
                    [JStr Reference.bob] [Reference.bob] waiting
                    eq_refl eq_refl eq_refl) as (Hfst & Haddr & _).
  split; assumption.
Defined.

Lemma X8_linking_rejects_malformed_answers_witness :
  exists k waiting,
    _eth_requestAccounts Reference.fresh =
      (Pending (requestEthereumAccounts "DApp") k, waiting) /\
    fst (k (Normal (JObj [])) waiting) = Throw (Error "accounts received is empty") /\
    fst (k (Normal (JObj [("result", JStr Reference.bob)])) waiting) =
      Throw (Error "addresses is not an array") /\
    fst (k (Normal (JObj [("result", JArr [JStr "nobody"])])) waiting) =
      Throw (Reference.invalid_input "Ethereum address") /\
    fst (k (Normal (JObj [("result", JArr [])])) waiting) = Normal (response 0 (JArr [])).
Proof.
  destruct (X8_linking_rejects_malformed_answers Reference.fresh eq_refl)
    as (k & waiting & Hk & Hanswers).
  exists k, waiting. split; [exact Hk|].
  split; [exact (proj1 (proj1 (Hanswers (JObj []) waiting) eq_refl))|].
  split.
  { refine (proj1 (proj1 (proj2 (Hanswers (JObj [("result", JStr Reference.bob)]) waiting))
                         eq_refl _)).
    intros l. discriminate. }
  split.
  { exact (proj1 (proj1 (proj2 (proj2 (Hanswers (JObj [("result", JArr [JStr "nobody"])])
                                                waiting)))
                        [JStr "nobody"] _ eq_refl eq_refl)). }
  exact (proj1 (proj2 (proj2 (proj2 (Hanswers (JObj [("result", JArr [])]) waiting)))
               eq_refl eq_refl)).
Defined.

Lemma X9_enable_links_an_unauthorized_provider_witness :
  exists k waiting,
    enable Reference.fresh = (Pending (requestEthereumAccounts "DApp") k, waiting) /\
    fst (k (Normal (JObj [("result", JArr [JStr Reference.bob])])) waiting) =
      Normal (JArr [JStr Reference.bob]).
Proof.
  destruct (X9_enable_links_an_unauthorized_provider Reference.fresh eq_refl)
    as (k & waiting & Hk & Hcommit & _).
  exists k, waiting. split; [exact Hk|].
  exact (proj1 (Hcommit (JObj [("result", JArr [JStr Reference.bob])])
                        [JStr Reference.bob] [Reference.bob] waiting
                        eq_refl eq_refl eq_refl)).
Defined.

Lemma X10_synchronous_methods_settle_at_once_witness :
  _sendRequestAsync (mkRequest 6 "eth_uninstallFilter" (Some [JStr "0x1"]))
                    Reference.fresh =
    (Settled (Normal (response 6 (JBool true))),
     add_effect (EffUninstallFilter "1") Reference.fresh) /\
  _sendRequestAsync (mkRequest 6 "eth_uninstallFilter" None) Reference.fresh =
    (Settled (Throw (Reference.invalid_input "hexadecimal string")), Reference.fresh).
Proof.
  split.
  - exact (X10_synchronous_methods_settle_at_once
             (mkRequest 6 "eth_uninstallFilter" (Some [JStr "0x1"])) Reference.fresh
             ltac:(cbn; tauto)).
  - exact (X10_synchronous_methods_settle_at_once
             (mkRequest 6 "eth_uninstallFilter" None) Reference.fresh
             ltac:(cbn; tauto)).
Defined.

Lemma X11_one_route_per_method_witness :
  exists k,
    _sendRequestAsync (mkRequest 4 "eth_blockNumber" (Some [])) Reference.fresh =
      (Pending (fetch "https://rpc.example/" (mkRequest 4 "eth_blockNumber" (Some []))) k,
       Reference.fresh) /\
    ~ In "eth_blockNumber" synchronous_table /\
    ((In "eth_blockNumber" filter_table /\
      filter_operation
        (fetch "https://rpc.example/" (mkRequest 4 "eth_blockNumber" (Some [])))) \/
     (~ In "eth_blockNumber" filter_table /\
      In "eth_blockNumber" relay_table /\
      relay_operation
        (fetch "https://rpc.example/" (mkRequest 4 "eth_blockNumber" (Some [])))) \/
     (~ In "eth_blockNumber" filter_table /\
      ~ In "eth_blockNumber" relay_table /\
      fetch "https://rpc.example/" (mkRequest 4 "eth_blockNumber" (Some [])) =
        fetch "https://rpc.example/" (mkRequest 4 "eth_blockNumber" (Some [])) /\
      Reference.fresh = Reference.fresh)).
Proof.
  eexists. split; [reflexivity|].
  exact (X11_one_route_per_method
           (mkRequest 4 "eth_blockNumber" (Some [])) Reference.fresh _ _ _ eq_refl).
Defined.

Lemma X12_filter_requests_witness :
  (_sendRequestAsync (mkRequest 2 "eth_getFilterLogs" (Some [JStr "zz"])) Reference.fresh =
     (Settled (Throw (Reference.invalid_input "hexadecimal string")), Reference.fresh)) /\
  (exists k,
     _sendRequestAsync (mkRequest 2 "eth_getFilterChanges" (Some [JStr "0x1"]))
                       Reference.fresh =
       (Pending (getFilterChanges "1") k, Reference.fresh) /\
     (forall res (this' : WalletLinkProvider unit),
        k (Normal res) this' = (Normal (with_id res 2), this')) /\
     (forall err (this' : WalletLinkProvider unit),
        k (Throw err) this' = (Throw err, this'))) /\
  get_prop (with_id (JObj [("id", JNum 0); ("result", JArr [])]) 2) "result" = JArr [].
Proof.
  split; [|split].
  - exact (proj2 (proj1 (proj2 (proj2 (proj2 (X12_filter_requests
             2 (Some [JStr "zz"]) Reference.fresh))))
             (Reference.invalid_input "hexadecimal string") eq_refl)).
  - exact (proj1 (proj1 (proj2 (proj2 (proj2 (proj2 (X12_filter_requests
             2 (Some [JStr "0x1"]) Reference.fresh)))))
             "1" eq_refl)).
  - refine (proj2 (proj2 (proj2 (proj2 (proj2 (proj2 (X12_filter_requests
             2 None Reference.fresh)))))
             [("id", JNum 0); ("result", JArr [])] "result" _)).
    discriminate.
Defined.

Lemma X13_synchronous_batch_in_order_witness :
  Forall2 (fun request res =>
             In (method request) synchronous_table /\
             get_prop res "id" = JNum (id request))
          [mkRequest 1 "eth_accounts" None; mkRequest 2 "net_version" None]
          [response 1 (JArr [JStr Reference.alice; JStr Reference.bob]);
           response 2 (JStr "1")] /\
  exists e this',
    send_requests [mkRequest 1 "eth_accounts" None; mkRequest 2 "eth_sign" None]
                  Reference.authorized = (Throw e, this').
Proof.
  split.
  - exact (proj1 (X13_synchronous_batch_in_order
                    [mkRequest 1 "eth_accounts" None; mkRequest 2 "net_version" None]
                    Reference.authorized)
                 _ _ eq_refl).
  - refine (proj2 (X13_synchronous_batch_in_order
                     [mkRequest 1 "eth_accounts" None; mkRequest 2 "eth_sign" None]
                     Reference.authorized)
                  (mkRequest 2 "eth_sign" None) _ _).
    + right. left. reflexivity.
    + cbn. intuition discriminate.
Defined.

Lemma X14_synchronous_batch_is_fail_fast_witness :
  send_requests
    ([mkRequest 1 "eth_uninstallFilter" (Some [JStr "0x1"])] ++
     mkRequest 2 "eth_sign" None ::
     [mkRequest 3 "eth_uninstallFilter" (Some [JStr "0x2"])])
    Reference.fresh =
    (Throw (synchronous_unsupported "eth_sign"),
     add_effect (EffUninstallFilter "1") Reference.fresh).
Proof.
  exact (X14_synchronous_batch_is_fail_fast
           [mkRequest 1 "eth_uninstallFilter" (Some [JStr "0x1"])]
           (mkRequest 2 "eth_sign" None)
           [mkRequest 3 "eth_uninstallFilter" (Some [JStr "0x2"])]
           Reference.fresh _ _ _ _ eq_refl eq_refl).
Defined.

Lemma X15_single_callback_discipline_witness :
  fst (sendAsync_single (mkRequest 1 "eth_blockNumber" None)
                        (fun _ _ => Normal tt) None Reference.fresh) = [] /\
  fst (sendAsync_single (mkRequest 1 "net_version" None)
                        (fun _ _ => Throw (Error "callback failed")) None
                        Reference.fresh) =
    [(None, Some (response 1 (JStr "1"))); (Some (Error "callback failed"), None)].
Proof.
  split.
  - exact (proj1 (proj2 (X15_single_callback_discipline
                           (mkRequest 1 "eth_blockNumber" None)
                           (fun _ _ => Normal tt) None Reference.fresh))
                 eq_refl).
  - exact (proj1 (proj2 (proj2 (proj2 (X15_single_callback_discipline
                           (mkRequest 1 "net_version" None)
                           (fun _ _ => Throw (Error "callback failed")) None
                           Reference.fresh))))
                 (response 1 (JStr "1")) eq_refl).
Defined.

Lemma X16_send_method_forwards_witness :
  exists k,
    send_method "eth_getBalance" (JStr Reference.alice) Reference.fresh =
      (Pending (fetch "https://rpc.example/"
                      (mkRequest 1 "eth_getBalance" (Some [JStr Reference.alice])))
               k,
       Reference.fresh) /\
    (forall fields (this' : WalletLinkProvider unit),
       truthy (get_prop (JObj fields) "error") = false ->
       k (Normal (JObj fields)) this' = (Normal (get_prop (JObj fields) "result"), this')) /\
    (forall err (this' : WalletLinkProvider unit),
       k (Throw err) this' = (Throw err, this')).
Proof.
  apply (X16_send_method_forwards "eth_getBalance" (JStr Reference.alice) Reference.fresh);
    cbn; intuition discriminate.
Defined.

Lemma X17_normalised_sender_is_authorized_witness :
  In Reference.bob (_addresses Reference.authorized) /\
  Reference.bob <> "" /\
  1%Z = _chainId Reference.authorized.
Proof.
  exact (proj2 (X17_normalised_sender_is_authorized
                  (JObj [("from", JStr "0x00000000000000000000000000000000000000B2")])
                  Reference.authorized)
               (mkTx Reference.bob None 0%Z [] None None None 1%Z) eq_refl).
Defined.

Lemma X18_normaliser_defaults_witness :
  _prepareTransactionParams (JObj [("to", JStr ""); ("value", JNull)])
                            Reference.authorized =
    (Normal (mkTx Reference.alice None 0%Z [] None None None 1%Z), Reference.authorized).
Proof.
  exact (X18_normaliser_defaults (JObj [("to", JStr ""); ("value", JNull)])
                                 Reference.alice Reference.authorized
                                 eq_refl eq_refl eq_refl eq_refl eq_refl eq_refl
                                 eq_refl eq_refl).
Defined.

Lemma X19_setAddresses_without_persist_witness :
  _setAddresses (JStr Reference.alice) true Reference.fresh =
    (Throw (Error "addresses is not an array"), Reference.fresh) /\
  effects (snd (_setAddresses (JArr [JStr Reference.alice; JStr Reference.bob]) false
                              Reference.authorized)) =
    [EffEmit "accountsChanged" [Reference.alice; Reference.bob]].
Proof.
  split.
  - refine (proj1 (X19_setAddresses_without_persist Reference.fresh)
                  (JStr Reference.alice) true _).
    intros l. discriminate.
  - exact (proj2 (proj2 (X19_setAddresses_without_persist Reference.authorized))
                 [JStr Reference.alice; JStr Reference.bob] eq_refl).
Defined.

Lemma X20_constructor_survives_storage_witness :
  (exists this : WalletLinkProvider unit,
     constructor (reads := Reference.storage_holding (Throw (Error "SecurityError")))
                 Reference.options = Normal this /\
     _appName this = "DApp" /\
     _chainId this = 1%Z /\
     _jsonRpcUrl this = "https://rpc.example/" /\
     _walletLinkWindow this = None /\
     _providerId this = "DApp,1,htt") /\
  (exists this : WalletLinkProvider unit,
     constructor (reads := Reference.storage_holding (Normal JNull))
                 (mkOptions true (Some "Bank") "https://rpc.example/" (Some (10 ^ 21)%Z)) =
       Normal this /\
     _appName this = "Bank" /\
     _chainId this = (10 ^ 21)%Z /\
     _jsonRpcUrl this = "https://rpc.example/" /\
     _walletLinkWindow this = None /\
     _providerId this = "Bank,1e+21").
Proof.
  split.
  - refine (proj2 (proj2 (proj2 (X20_constructor_survives_storage
                                   (reads := Reference.storage_holding
                                               (Throw (Error "SecurityError")))
                                   Reference.options))
                         eq_refl _)
                  1%Z eq_refl).
    discriminate.
  - refine (proj2 (proj2 (proj2 (X20_constructor_survives_storage
                                   (reads := Reference.storage_holding (Normal JNull))
                                   (mkOptions true (Some "Bank") "https://rpc.example/"
                                              (Some (10 ^ 21)%Z))))
                         eq_refl _)
                  (10 ^ 21)%Z eq_refl).
    discriminate.
Defined.

Lemma X21_restore_addresses_witness :
  restore_addresses
    (reads := Reference.storage_holding
                (Normal (JArr [JStr Reference.alice; JStr Reference.bob])))
    Reference.fresh =
    add_effect (EffEmit "accountsChanged" [Reference.alice; Reference.bob])
               (set_addresses [Reference.alice; Reference.bob] Reference.fresh) /\
  restore_addresses (reads := Reference.storage_holding (Normal (JStr "[broken")))
                    Reference.fresh = Reference.fresh /\
  restore_addresses
    (reads := Reference.storage_holding (Normal (JArr [JStr Reference.alice; JNum 7])))
    Reference.fresh = Reference.fresh.
Proof.
  split; [|split].
  - refine (proj1 (X21_restore_addresses
                     (reads := Reference.storage_holding
                                 (Normal (JArr [JStr Reference.alice; JStr Reference.bob])))
                     Reference.fresh)
                  [Reference.alice; Reference.bob] eq_refl _).
    repeat constructor.
  - refine (proj1 (proj2 (proj2 (proj2 (X21_restore_addresses
                     (reads := Reference.storage_holding (Normal (JStr "[broken")))
                     Reference.fresh))))
                  (JStr "[broken") eq_refl _).
    intros l. discriminate.
  - refine (proj2 (proj2 (proj2 (proj2 (X21_restore_addresses
                     (reads := Reference.storage_holding
                                 (Normal (JArr [JStr Reference.alice; JNum 7])))
                     Reference.fresh))))
                  [JStr Reference.alice; JNum 7] eq_refl _).
    right. left. eexists. reflexivity.
Defined.

Lemma X22_provider_id_collisions_witness :
  exists this1 this2 : WalletLinkProvider unit,
    constructor (reads := Reference.storage_holding (Normal JNull))
                (mkOptions true (Some "DApp,5") "u" (Some 1%Z)) = Normal this1 /\
    constructor (reads := Reference.storage_holding (Normal JNull))
                (mkOptions true (Some "DApp") "1,u" (Some 5%Z)) = Normal this2 /\
    _chainId this1 = 1%Z /\
    _chainId this2 = 5%Z /\
    _localStorageAddressesKey this1 = _localStorageAddressesKey this2.
Proof.
  refine (proj1 (X22_provider_id_collisions
                   (reads := Reference.storage_holding (Normal JNull)) "DApp" "u" 5 1
                   _ _ _ _ eq_refl eq_refl));
    discriminate.
Defined.

Lemma X23_production_urls_witness :
  getWebUrl Reference.production = "https://link.example" /\
  getRpcUrl Reference.production = "wss://link.example/rpc".
Proof.
  assert (Hprod : NODE_ENV Reference.production <> "development") by discriminate.
  split.
  - exact (proj1 (X23_production_urls Reference.production Hprod)).
  - exact (proj1 (proj2 (proj2 (proj2 (X23_production_urls Reference.production Hprod))))
                 eq_refl).
Defined.

Lemma X24_batch_of_synchronous_methods_witness :
  sendAsync_batch [] (fun _ _ => Normal tt)
                  [(0%nat, Normal JNull)] Reference.fresh =
    ([(None, Some [])], Reference.fresh) /\
  sendAsync_batch [mkRequest 1 "eth_accounts" None; mkRequest 2 "eth_coinbase" None]
                  (fun _ _ => Normal tt) [] Reference.authorized =
    ([(None, Some [response 1 (JArr [JStr Reference.alice; JStr Reference.bob]);
                   response 2 (JStr Reference.alice)])],
     Reference.authorized).
Proof.
  split.
  - exact (X24_batch_of_synchronous_methods [] Reference.fresh [] Reference.fresh eq_refl
             (fun _ _ => Normal tt) [(0%nat, Normal JNull)]).
  - exact (X24_batch_of_synchronous_methods
             [mkRequest 1 "eth_accounts" None; mkRequest 2 "eth_coinbase" None]
             Reference.authorized _ _ eq_refl (fun _ _ => Normal tt) []).
Defined.

Lemma X26_network_version_is_stable_witness :
  networkVersion Reference.fresh = "1" /\
  _chainId Reference.authorized = _chainId Reference.fresh.
Proof.
  split.
  - exact (proj1 (proj2 (X26_network_version_is_stable Reference.fresh)) eq_refl).
  - exact (proj2 (proj2 (X26_network_version_is_stable Reference.fresh))
                 Reference.authorized 1%Z None eq_refl eq_refl eq_refl).
Defined.

(** From 10^21 on a chain id is printed in exponent notation, and between
    2^53 and 10^21 with the digits that tell its double from the next. *)
Example network_version_of_a_large_chain_id :
  networkVersion (mkProvider (Window := unit) "DApp" (10 ^ 21)%Z "u" "0123456789" [] None []) =
    "1e+21" /\
  networkVersion (mkProvider (Window := unit) "DApp" (2 ^ 60)%Z "u" "0123456789" [] None []) =
    "1152921504606847000" /\
  fst (_sendRequest (mkRequest 1 "net_version" None)
         (mkProvider (Window := unit) "DApp" (2 ^ 70)%Z "u" "0123456789" [] None [])) =
    Normal (response 1 (JStr "1.1805916207174113e+21")).
Proof. repeat split; vm_compute; reflexivity. Qed.

End Scenarios.
